(** * KP_PTPN cost module: period/column resolution, cell coercion, coverage

    A shallow embedding of the cost-report engine of the repository:

    - [modules/cost/excel_reader.py]   (class [ExcelReader])
    - [modules/cost/column_detector.py] (class [ColumnDetector])
    - [modules/cost/validator.py]
    - [modules/cost/config.py]         (class [ConfigLoader], the lookups)
    - [modules/cost/data_processor.py] (class [DataProcessor])
    - [web/routes/cost.py]             (the period string and the
      validation step of [convert])

    Python values are modelled as follows.  [int] is [Z].  [float] is IEEE
    binary64, given by the Standard Library's executable [spec_float] with
    precision 53 and maximal exponent 1024.  [str] is [string], the bytes
    of the UTF-8 encoding of the text.  [replace], [find] and [in] are
    written out on them.  The operations that consult the Unicode tables
    ([lower], [upper], [strip], the class [\d], the digits and white space
    of [int], [float] and [strptime]) are written out in [Py] as they act
    on ASCII text, bytes above 127 being left alone; where a property is
    stated of every text, they are parameters instead
    ([ExcelReader.Unicode]).  A [dict] is a
    [gmap], a [set] is a [gset].  An exception is a value of [exn]; a
    function that may raise returns [result]. *)

From Stdlib Require Import ZArith String Ascii List SpecFloat DecimalString.
From stdpp Require Import gmap strings list fin_maps sorting.

Local Open Scope string_scope.
Local Open Scope Z_scope.

(** ** Exceptions *)

(** The exception classes the modelled code raises or catches. *)
Inductive exn_class :=
  | ValueError
  | TypeError
  | AttributeError
  | OverflowError.

(** The text of an exception, kept as the data its f-string is built from. *)
Inductive message :=
  (** "No period headers found at row {row}" *)
  | NoPeriodHeaders (row : Z)
  (** "No REAL/RKAP headers found at row {row}" *)
  | NoTypeHeaders (row : Z)
  (** "Failed to parse Excel headers: {e}" *)
  | HeaderParseFailed (e : message)
  (** "Period {year}-{month:02d} not found in Excel! Available: ..." with the
      (year, month) pairs joined after "Available:" *)
  | PeriodNotFound (year month : Z) (available : list (Z * Z))
  (** "Failed to detect columns: {', '.join(missing)}. ..." *)
  | ColumnsNotDetected (missing : list string)
  (** "Invalid period format: '{period}'. ..." *)
  | InvalidPeriodFormat (period : string)
  (** a message of the Python runtime or of openpyxl *)
  | Builtin (text : string).

Record exn := Exception { exn_cls : exn_class; exn_msg : message }.

Inductive result (A : Type) :=
  | Ok (a : A)
  | Raise (e : exn).
Arguments Ok {A} a.
Arguments Raise {A} e.

Global Instance result_bind : MBind result :=
  λ A B k r, match r with Ok a => k a | Raise e => Raise e end.
Global Instance result_ret : MRet result := λ A a, Ok a.

(** ** Python built-ins on [str] and [list] *)

Module Py.

Definition code (c : ascii) : N := N_of_ascii c.

Definition lower_char (c : ascii) : ascii :=
  if ((65 <=? code c) && (code c <=? 90))%N then ascii_of_N (code c + 32) else c.

Definition upper_char (c : ascii) : ascii :=
  if ((97 <=? code c) && (code c <=? 122))%N then ascii_of_N (code c - 32) else c.

Definition is_digit (c : ascii) : bool :=
  ((48 <=? code c) && (code c <=? 57))%N.

Definition digit_value (c : ascii) : Z := Z.of_N (code c) - 48.

(** The digit at the head of [s] and the text after it. *)
Definition decimal (s : string) : option (Z * string) :=
  match s with
  | String c rest => if is_digit c then Some (digit_value c, rest) else None
  | EmptyString => None
  end.

(** [c.isspace()] on the ASCII range: the white space that [str.strip]
    removes. *)
Definition is_space (c : ascii) : bool :=
  (((9 <=? code c) && (code c <=? 13)) || ((28 <=? code c) && (code c <=? 32)))%N.

(** The white space that [int] and [float] skip at the ends of an ASCII
    text: the separators [\x1c] to [\x1f] are not part of it. *)
Definition is_c_space (c : ascii) : bool :=
  (((9 <=? code c) && (code c <=? 13)) || (code c =? 32))%N.

Fixpoint map_chars (f : ascii → ascii) (s : string) : string :=
  match s with
  | EmptyString => EmptyString
  | String c s' => String (f c) (map_chars f s')
  end.

(** [s.lower()] and [s.upper()]. *)
Definition lower : string → string := map_chars lower_char.
Definition upper : string → string := map_chars upper_char.

(** [s.isascii()]. *)
Definition isascii (s : string) : bool :=
  forallb (λ c, (code c <? 128)%N) (list_ascii_of_string s).

(** [s.replace(c, '')] for a one-character [c]. *)
Fixpoint remove_char (c : ascii) (s : string) : string :=
  match s with
  | EmptyString => EmptyString
  | String d s' =>
      if Ascii.eqb c d then remove_char c s' else String d (remove_char c s')
  end.

Fixpoint lstrip_by (space : ascii → bool) (s : string) : string :=
  match s with
  | EmptyString => EmptyString
  | String c s' => if space c then lstrip_by space s' else s
  end.

Fixpoint rstrip_by (space : ascii → bool) (s : string) : string :=
  match s with
  | EmptyString => EmptyString
  | String c s' =>
      match rstrip_by space s' with
      | EmptyString => if space c then EmptyString else String c EmptyString
      | r => String c r
      end
  end.

Definition lstrip : string → string := lstrip_by is_space.
Definition rstrip : string → string := rstrip_by is_space.

(** [s.strip()]. *)
Definition strip (s : string) : string := rstrip (lstrip s).

(** What [int(s)] and [float(s)] read of [s]: the text between the white
    space at its ends. *)
Definition number_text (s : string) : string :=
  rstrip_by is_c_space (lstrip_by is_c_space s).

(** [s.find(sub)]: the lowest index where [sub] starts, [-1] if none. *)
Fixpoint find_from (sub s : string) (i : Z) : Z :=
  if String.prefix sub s then i
  else match s with
       | EmptyString => -1
       | String _ s' => find_from sub s' (i + 1)
       end.

Definition find (sub s : string) : Z := find_from sub s 0.

(** [sub in s]. *)
Fixpoint contains (sub s : string) : bool :=
  String.prefix sub s ||
  match s with
  | EmptyString => false
  | String _ s' => contains sub s'
  end.

(** [str(n)] for an [int]. *)
Definition str_of_int (z : Z) : string := NilZero.string_of_int (Z.to_int z).

(** [l.sort(key=...)] and [sorted(l, key=...)]: stable, ascending. *)
Fixpoint insert_by_key {A} (key : A → Z) (x : A) (l : list A) : list A :=
  match l with
  | [] => [x]
  | y :: l' => if key x <=? key y then x :: l else y :: insert_by_key key x l'
  end.

Definition sort_by_key {A} (key : A → Z) (l : list A) : list A :=
  foldr (insert_by_key key) [] l.

(** [range(a, b)]. *)
Definition range (a b : Z) : list Z := seqZ a (b - a).

(** Truth value of an [Optional[int]]. *)
Definition truthy (o : option Z) : bool :=
  match o with
  | Some z => negb (z =? 0)
  | None => false
  end.

End Py.

(** ** Binary64 arithmetic *)

Module B64.

Definition prec : Z := 53.
Definition emax : Z := 1024.

Definition float := spec_float.

(** The nearest binary64 to an integer, ties to even; an infinity when the
    integer is too large. *)
Definition of_Z (z : Z) : float := binary_normalize prec emax z 0 false.

(** The nearest binary64 to the quotient [a / b] of two positive
    integers, ties to even. *)
Definition div_round (s : bool) (a b : positive) : float :=
  let '(q, e, l) := SFdiv_core_binary prec emax (Zpos a) 0 (Zpos b) 0 in
  binary_round_aux prec emax s q e l.

(** [a / b] on two [int]s: the correctly rounded quotient.  Python raises
    [ZeroDivisionError] when [b] is zero and [OverflowError] when the
    quotient leaves the binary64 range; here these two cases give a NaN
    and an infinity.  The one caller divides two list lengths under the
    guard [b > 0]. *)
Definition truediv (a b : Z) : float :=
  match a, b with
  | _, Z0 => S754_nan
  | Z0, Zpos _ => S754_zero false
  | Z0, Zneg _ => S754_zero true
  | Zpos p, Zpos q | Zneg p, Zneg q => div_round false p q
  | Zpos p, Zneg q | Zneg p, Zpos q => div_round true p q
  end.

(** A significand and an exponent in the form binary64 stores them. *)
Definition canonical (m : positive) (e : Z) : Prop :=
  fexp prec emax (Zdigits2 (Zpos m) + e) = e.

(** What a location adds to the truncated significand, at most. *)
Definition inexact (l : location) : Z :=
  match l with loc_Exact => 0 | loc_Inexact _ => 1 end.

Definition mul : float → float → float := SFmul prec emax.
Definition ltb : float → float → bool := SFltb.
Definition leb : float → float → bool := SFleb.
Definition eqb : float → float → bool := SFeqb.

Definition zero : float := S754_zero false.

Definition is_finite (x : float) : bool :=
  match x with
  | S754_zero _ | S754_finite _ _ _ => true
  | _ => false
  end.

Definition is_nan (x : float) : bool :=
  match x with S754_nan => true | _ => false end.

End B64.

(** [float(n)] for an [int]: [OverflowError] beyond the binary64 range. *)
Definition float_of_int (z : Z) : result B64.float :=
  let f := B64.of_Z z in
  if B64.is_finite f then Ok f
  else Raise (Exception OverflowError (Builtin "int too large to convert to float")).


(** ** [modules/cost/excel_reader.py] *)

Module ExcelReader.

(** What [cell.value] can hold in a sheet loaded by openpyxl: nothing, a
    [bool], an [int], a [float], a [str], or another object (a date, a
    time) of which only the [str()] text matters here. *)
Inductive CellValue :=
  | VNone
  | VBool (b : bool)
  | VInt (z : Z)
  | VFloat (f : B64.float)
  | VStr (s : string)
  | VOther (text : string).

Record MergedRange := {
  min_row : Z;
  min_col : Z;
  max_row : Z;
  max_col : Z
}.

(** A worksheet: its merged ranges in the order [sheet.merged_cells.ranges]
    yields them, its cells by (row, column), [None] where absent, and
    [sheet.max_column].  Reading an absent cell creates it in openpyxl; the
    reads modelled here are of cells up to [max_column] and of merged
    cells, which leaves [max_column] as it is. *)
Record Sheet := {
  merged_cells : list MergedRange;
  cells : gmap (Z * Z) CellValue;
  max_column : Z
}.

(** [sheet.cell(row, col)]: openpyxl refuses an index below 1. *)
Definition cell (sheet : Sheet) (row col : Z) : result CellValue :=
  if (row <? 1) || (col <? 1)
  then Raise (Exception ValueError (Builtin "Row or column values must be at least 1"))
  else Ok (default VNone (cells sheet !! (row, col))).

Definition MONTH_MAP : list (string * Z) :=
  [("jan", 1); ("feb", 2); ("mar", 3); ("apr", 4); ("mei", 5); ("juni", 6);
   ("juli", 7); ("agst", 8); ("sept", 9); ("okt", 10); ("nov", 11); ("des", 12)].

Definition PERIOD_HEADER_ROW : Z := 7.
Definition TYPE_HEADER_ROW : Z := 8.

Inductive PeriodType := bulan | sd.

Record Period := {
  type : PeriodType;
  text : string;
  start_col : Z;
  end_col : Z;
  month : Z;
  year : Z;
  is_sd : bool
}.

Inductive TypeName := REAL | RKAP.

(** The built-ins of [str] and [re] that consult the Unicode tables are
    left open in [Unicode]: [lower] is [str.lower] and [decimal] reads one
    character of the class [\d] at the head of a text, giving the digit it
    stands for, as [int] reads it, and the text after it.  A text is the
    sequence of the bytes of its UTF-8 encoding: the ASCII characters "2"
    and "0" and those of the month vocabulary occur in the bytes exactly
    where they occur in the characters, and offsets in bytes are ordered as
    the offsets in characters are. *)
Module Unicode.
Section builtins.

Variable lower : string → string.
Variable decimal : string → option (Z * string).

Definition _extract_month (text : string) : option Z :=
  let text_lower := lower text in
  let found_months :=
    omap (λ '(month_key, month_num),
            if Py.contains month_key text_lower
            then Some (month_num, Py.find month_key text_lower)
            else None)
         MONTH_MAP in
  match Py.sort_by_key snd found_months with
  | [] => None
  | (month_num, _) :: _ => Some month_num
  end.

(** [re.match(r'20\d{2}', s)] followed by [int(match.group())]. *)
Definition match_year (s : string) : option Z :=
  match s with
  | String c1 (String c2 rest) =>
      if Ascii.eqb c1 "2" && Ascii.eqb c2 "0"
      then match decimal rest with
           | Some (d1, rest1) =>
               match decimal rest1 with
               | Some (d2, _) => Some (2000 + 10 * d1 + d2)
               | None => None
               end
           | None => None
           end
      else None
  | _ => None
  end.

(** [re.search(r'20\d{2}', text)]: the leftmost match. *)
Fixpoint _extract_year (text : string) : option Z :=
  match match_year text with
  | Some y => Some y
  | None =>
      match text with
      | EmptyString => None
      | String _ rest => _extract_year rest
      end
  end.

End builtins.
End Unicode.

(** On ASCII text [str.lower] is [Py.lower] and [\d] is [Py.decimal]. *)
Definition _extract_month : string → option Z := Unicode._extract_month Py.lower.
Definition match_year : string → option Z := Unicode.match_year Py.decimal.
Definition _extract_year : string → option Z := Unicode._extract_year Py.decimal.

Definition sd_patterns : list string :=
  ["s.d."; "s.d "; "s/d"; "sd."; "sampai dengan"; "sampai"].

Definition _is_sd_header (text : string) : bool :=
  let text_lower := Py.lower text in
  existsb (λ pattern, Py.contains pattern text_lower) sd_patterns.

Section header_rows.

(** [repr] of a [float], a built-in that is left open. *)
Variable float_repr : B64.float → string.

(** [str(value or "")]. *)
Definition str_or_empty (value : CellValue) : string :=
  match value with
  | VNone => ""
  | VBool b => if b then "True" else ""
  | VInt z => if z =? 0 then "" else Py.str_of_int z
  | VFloat f => match f with S754_zero _ => "" | _ => float_repr f end
  | VStr s => s
  | VOther text => text
  end.

(** The loop body of [parse_period_header] for one merged range. *)
Definition period_of_range (sheet : Sheet) (row : Z) (merged_range : MergedRange)
  : result (option Period) :=
  if min_row merged_range =? row then
    value ← cell sheet row (min_col merged_range);
    let header_text := Py.strip (str_or_empty value) in
    if decide (header_text = "") then Ok None
    else
      match _extract_month header_text, _extract_year header_text with
      | Some month, Some year =>
          let is_sd := _is_sd_header header_text in
          Ok (Some {| type := if is_sd then sd else bulan;
                      text := header_text;
                      start_col := min_col merged_range;
                      end_col := max_col merged_range;
                      month := month;
                      year := year;
                      is_sd := is_sd |})
      | _, _ => Ok None
      end
  else Ok None.

Fixpoint collect_periods (sheet : Sheet) (row : Z) (ranges : list MergedRange)
  : result (list Period) :=
  match ranges with
  | [] => Ok []
  | merged_range :: rest =>
      p ← period_of_range sheet row merged_range;
      ps ← collect_periods sheet row rest;
      Ok (match p with Some p => p :: ps | None => ps end)
  end.

(** The value under the key ['all_periods'] of the returned [dict]. *)
Definition parse_period_header (sheet : Sheet) (row : Z)
  : result (list Period) :=
  collected ← collect_periods sheet row (merged_cells sheet);
  let all_period_headers := Py.sort_by_key start_col collected in
  match all_period_headers with
  | [] => Raise (Exception ValueError (NoPeriodHeaders row))
  | _ => Ok all_period_headers
  end.

Fixpoint scan_types (sheet : Sheet) (row : Z) (cols : list Z)
    (type_mapping : gmap Z TypeName) : result (gmap Z TypeName) :=
  match cols with
  | [] => Ok type_mapping
  | col :: rest =>
      value ← cell sheet row col;
      let header_text := Py.upper (Py.strip (str_or_empty value)) in
      if decide (header_text = "") then scan_types sheet row rest type_mapping
      else if Py.contains "REAL" header_text
           then scan_types sheet row rest (<[col := REAL]> type_mapping)
      else if Py.contains "RKAP" header_text
           then scan_types sheet row rest (<[col := RKAP]> type_mapping)
      else scan_types sheet row rest type_mapping
  end.

Definition parse_type_header (sheet : Sheet) (row : Z)
  : result (gmap Z TypeName) :=
  type_mapping ← scan_types sheet row (Py.range 1 (max_column sheet + 1)) ∅;
  if decide (type_mapping = ∅)
  then Raise (Exception ValueError (NoTypeHeaders row))
  else Ok type_mapping.

End header_rows.

(** *** [float(...)] *)

Fixpoint span_digits (l : list ascii) : list ascii * list ascii :=
  match l with
  | c :: l' =>
      if Py.is_digit c
      then let '(ds, rest) := span_digits l' in (c :: ds, rest)
      else ([], l)
  | [] => ([], [])
  end.

Definition digits_value (ds : list ascii) : Z :=
  fold_left (λ acc d, 10 * acc + Py.digit_value d) ds 0.

Definition parse_sign (l : list ascii) : bool * list ascii :=
  match l with
  | "-"%char :: l' => (true, l')
  | "+"%char :: l' => (false, l')
  | _ => (false, l)
  end.

(** Underscores are dropped when each one stands between two digits. *)
Fixpoint drop_underscores (prev : option ascii) (l : list ascii)
  : option (list ascii) :=
  match l with
  | [] => match prev with Some "_"%char => None | _ => Some [] end
  | "_"%char :: l' =>
      match prev with
      | Some p => if Py.is_digit p then drop_underscores (Some "_"%char) l' else None
      | None => None
      end
  | c :: l' =>
      match prev with
      | Some "_"%char =>
          if Py.is_digit c then cons c <$> drop_underscores (Some c) l' else None
      | _ => cons c <$> drop_underscores (Some c) l'
      end
  end.

(** The nearest binary64 to [(-1)^s * m * 10^e10]. *)
Definition decimal_to_float (s : bool) (m e10 : Z) : B64.float :=
  match m with
  | Zpos p =>
      if 0 <=? e10
      then B64.of_Z (if s then - (m * 10 ^ e10) else m * 10 ^ e10)
      else B64.div_round s p (Z.to_pos (10 ^ (- e10)))
  | _ => S754_zero s
  end.

(** digits, an optional fraction, an optional exponent; nothing after. *)
Definition parse_decimal (l : list ascii) : option (Z * Z) :=
  let '(int_part, r1) := span_digits l in
  let '(frac_part, r2) :=
    match r1 with
    | "."%char :: r => span_digits r
    | _ => ([], r1)
    end in
  match (int_part ++ frac_part)%list with
  | [] => None
  | mantissa =>
      let shift := - Z.of_nat (length frac_part) in
      match r2 with
      | [] => Some (digits_value mantissa, shift)
      | c :: r3 =>
          if Ascii.eqb (Py.lower_char c) "e" then
            let '(exp_sign, r4) := parse_sign r3 in
            match span_digits r4 with
            | ((_ :: _) as exp_digits, []) =>
                let e := digits_value exp_digits in
                Some (digits_value mantissa, (if exp_sign then - e else e) + shift)
            | _ => None
            end
          else None
      end
  end.

(** [float(s)] on a [str]: [None] stands for the [ValueError]. *)
Definition parse_float (s : string) : option B64.float :=
  l ← drop_underscores None (list_ascii_of_string (Py.number_text s));
  let '(sign, body) := parse_sign l in
  let word := Py.lower (string_of_list_ascii body) in
  if decide (word = "inf" ∨ word = "infinity") then Some (S754_infinity sign)
  else if decide (word = "nan") then Some S754_nan
  else '(m, e10) ← parse_decimal body; Some (decimal_to_float sign m e10).

(** [float(value)]. *)
Definition float (value : CellValue) : result B64.float :=
  match value with
  | VNone | VOther _ =>
      Raise (Exception TypeError
               (Builtin "float() argument must be a string or a real number"))
  | VBool b => Ok (B64.of_Z (if b then 1 else 0))
  | VInt z => float_of_int z
  | VFloat f => Ok f
  | VStr s =>
      match parse_float s with
      | Some f => Ok f
      | None =>
          Raise (Exception ValueError (Builtin "could not convert string to float"))
      end
  end.

(** *** [get_cell_value] *)

(** A record written by [logger.warning]. *)
Record Warning := CouldNotConvert { at_row : Z; at_col : Z; cause : exn }.

(** The [try] block. *)
Definition get_cell_value_try (sheet : Sheet) (row col : Z) : result B64.float :=
  value ← cell sheet row col;
  match value with
  | VNone => Ok B64.zero
  | VStr s =>
      let value := Py.strip (Py.remove_char " " (Py.remove_char "," s)) in
      if decide (value = "" ∨ value = "-") then Ok B64.zero
      else float (VStr value)
  | _ => float value
  end.

(** The classes named by the [except] clause. *)
Definition caught (e : exn) : bool :=
  match exn_cls e with
  | ValueError | TypeError | AttributeError => true
  | _ => false
  end.

(** The value returned together with the warnings logged. *)
Definition get_cell_value (sheet : Sheet) (row col : Z)
  : result (B64.float * list Warning) :=
  match get_cell_value_try sheet row col with
  | Ok f => Ok (f, [])
  | Raise e =>
      if caught e then Ok (B64.zero, [CouldNotConvert row col e])
      else Raise e
  end.

(** *** The workbook *)

(** [self.workbook]: the worksheets by title, in the order of
    [workbook.sheetnames]. *)
Definition Workbook := list (string * Sheet).

Definition sheetnames (workbook : Workbook) : list string := workbook.*1.

(** [', '.join(names)]. *)
Fixpoint join_comma (names : list string) : string :=
  match names with
  | [] => ""
  | [name] => name
  | name :: rest => name +:+ ", " +:+ join_comma rest
  end.

(** [workbook[sheet_name]]: the first worksheet of that title. *)
Definition workbook_getitem (workbook : Workbook) (sheet_name : string)
  : option Sheet :=
  snd <$> List.find (λ '(title, _), bool_decide (title = sheet_name)) workbook.

(** The [KeyError] of [workbook[sheet_name]] cannot follow the test on
    [sheetnames]; both ends are the one [ValueError] here. *)
Definition get_sheet (workbook : Workbook) (sheet_name : string) : result Sheet :=
  let not_found :=
    Raise (Exception ValueError
             (Builtin ("Sheet '" +:+ sheet_name +:+ "' not found in workbook. " +:+
                       "Available sheets: " +:+ join_comma (sheetnames workbook)))) in
  if bool_decide (sheet_name ∉ sheetnames workbook) then not_found
  else match workbook_getitem workbook sheet_name with
       | Some sheet => Ok sheet
       | None => not_found
       end.

Definition sheet_exists (workbook : Workbook) (sheet_name : string) : bool :=
  bool_decide (sheet_name ∈ sheetnames workbook).

(** *** [_col_index_to_letter] *)

(** The [while] loop; it divides [col] by 26 each round, so [col] rounds
    are enough. *)
Fixpoint col_index_to_letter_loop (rounds : nat) (col : Z) (result : string)
  : string :=
  match rounds with
  | O => result
  | S rounds =>
      if 0 <? col then
        let col := col - 1 in
        let result := String (ascii_of_N (Z.to_N (col mod 26 + 65))) result in
        col_index_to_letter_loop rounds (col / 26) result
      else result
  end.

Definition _col_index_to_letter (col : Z) : string :=
  col_index_to_letter_loop (Z.to_nat col) col "".

End ExcelReader.

(** ** [modules/cost/column_detector.py] *)

Module ColumnDetector.
Import ExcelReader.

Global Instance TypeName_eq_dec : EqDecision TypeName.
Proof. solve_decision. Defined.

Global Instance TypeName_countable : Countable TypeName.
Proof.
  refine (inj_countable' (λ t, match t with REAL => false | RKAP => true end)
                         (λ b, if b then RKAP else REAL) _).
  by intros [].
Defined.

Global Instance PeriodType_eq_dec : EqDecision PeriodType.
Proof. solve_decision. Defined.

(** The [dict] returned by [_map_columns], one field per key. *)
Record Columns := {
  REAL_BULAN_INI : option Z;
  RKAP_BULAN_INI : option Z;
  REAL_SD : option Z;
  RKAP_SD : option Z
}.

(** [datetime.strptime(period, '%Y-%m')]: four digits, a dash, and a month
    written [1[0-2]], [0[1-9]] or [[1-9]]; the year 0 is refused. *)
Definition strptime_Y_m (period : string) : option (Z * Z) :=
  match list_ascii_of_string period with
  | y1 :: y2 :: y3 :: y4 :: "-"%char :: m =>
      if forallb Py.is_digit [y1; y2; y3; y4] then
        let year := digits_value [y1; y2; y3; y4] in
        let month :=
          match m with
          | [d] => if Py.is_digit d && negb (Ascii.eqb d "0")
                   then Some (Py.digit_value d) else None
          | [d1; d2] =>
              if Ascii.eqb d1 "1" && Py.is_digit d2 && (Py.digit_value d2 <=? 2)
              then Some (10 + Py.digit_value d2)
              else if Ascii.eqb d1 "0" && Py.is_digit d2 && negb (Ascii.eqb d2 "0")
              then Some (Py.digit_value d2)
              else None
          | _ => None
          end in
        if year =? 0 then None else pair year <$> month
      else None
  | _ => None
  end.

Definition _parse_period (period : string) : result (Z * Z) :=
  match strptime_Y_m period with
  | Some ym => Ok ym
  | None => Raise (Exception ValueError (InvalidPeriodFormat period))
  end.

(** The loop of step 3 of [detect_columns]: the first matching period of
    each type. *)
Fixpoint find_matching (all_periods : list Period) (target_year target_month : Z)
    (matching_bulan matching_sd : option Period)
  : option Period * option Period :=
  match all_periods with
  | [] => (matching_bulan, matching_sd)
  | period :: rest =>
      let is_match :=
        (year period =? target_year) && (month period =? target_month) in
      if is_match then
        if bool_decide (type period = bulan ∧ matching_bulan = None)
        then find_matching rest target_year target_month (Some period) matching_sd
        else if bool_decide (type period = sd ∧ matching_sd = None)
        then find_matching rest target_year target_month matching_bulan (Some period)
        else find_matching rest target_year target_month matching_bulan matching_sd
      else find_matching rest target_year target_month matching_bulan matching_sd
  end.

Definition _get_columns_in_range (type_headers : gmap Z TypeName)
    (start_col end_col : Z) : gmap TypeName Z :=
  fold_left
    (λ cols col,
       match type_headers !! col with
       | Some type_name => <[type_name := col]> cols
       | None => cols
       end)
    (Py.range start_col (end_col + 1)) ∅.

(** [max(type_headers.keys())]. *)
Definition max_key (type_headers : gmap Z TypeName) : result Z :=
  match (map_to_list type_headers).*1 with
  | [] => Raise (Exception ValueError (Builtin "max() arg is an empty sequence"))
  | k :: ks => Ok (foldr Z.max k ks)
  end.

(** The fallback loop of [_map_columns], with its [break]. *)
Fixpoint scan_next (type_headers : gmap Z TypeName) (cols : list Z)
    (next_real next_rkap : option Z) : option Z * option Z :=
  match cols with
  | [] => (next_real, next_rkap)
  | col :: rest =>
      let type_name := type_headers !! col in
      let '(next_real, next_rkap) :=
        if bool_decide (type_name = Some REAL ∧ next_real = None)
        then (Some col, next_rkap)
        else if bool_decide (type_name = Some RKAP ∧ next_rkap = None)
        then (next_real, Some col)
        else (next_real, next_rkap) in
      if Py.truthy next_real && Py.truthy next_rkap
      then (next_real, next_rkap)
      else scan_next type_headers rest next_real next_rkap
  end.

(** [period_headers] is the pair of the entries ['bulan'] and ['s.d.']. *)
Definition _map_columns (type_headers : gmap Z TypeName)
    (bulan_header : Period) (sd_header : option Period) : result Columns :=
  let bulan_cols :=
    _get_columns_in_range type_headers (start_col bulan_header) (end_col bulan_header) in
  match sd_header with
  | Some sd_header =>
      let sd_cols :=
        _get_columns_in_range type_headers (start_col sd_header) (end_col sd_header) in
      Ok {| REAL_BULAN_INI := bulan_cols !! REAL;
            RKAP_BULAN_INI := bulan_cols !! RKAP;
            REAL_SD := sd_cols !! REAL;
            RKAP_SD := sd_cols !! RKAP |}
  | None =>
      last ← max_key type_headers;
      let '(next_real, next_rkap) :=
        scan_next type_headers (Py.range (end_col bulan_header + 1) (last + 1))
                  None None in
      Ok {| REAL_BULAN_INI := bulan_cols !! REAL;
            RKAP_BULAN_INI := bulan_cols !! RKAP;
            REAL_SD := next_real;
            RKAP_SD := next_rkap |}
  end.

Definition required_columns : list (string * (Columns → option Z)) :=
  [("REAL_BULAN_INI", REAL_BULAN_INI); ("RKAP_BULAN_INI", RKAP_BULAN_INI);
   ("REAL_SD", REAL_SD); ("RKAP_SD", RKAP_SD)].

Definition missing_columns (columns : Columns) : list string :=
  omap (λ '(k, get), match get columns with None => Some k | Some _ => None end)
       required_columns.

Definition _validate_columns (columns : Columns) : result unit :=
  match missing_columns columns with
  | [] => Ok ()
  | missing => Raise (Exception ValueError (ColumnsNotDetected missing))
  end.

(** Steps 3 to 6 of [detect_columns], on the parsed headers. *)
Definition resolve (all_periods : list Period) (type_headers : gmap Z TypeName)
    (target_year target_month : Z) : result Columns :=
  let '(matching_bulan, matching_sd) :=
    find_matching all_periods target_year target_month None None in
  match matching_bulan with
  | None =>
      let available :=
        omap (λ p, if decide (type p = bulan) then Some (year p, month p) else None)
             all_periods in
      Raise (Exception ValueError (PeriodNotFound target_year target_month available))
  | Some bulan_header =>
      columns ← _map_columns type_headers bulan_header matching_sd;
      _ ← _validate_columns columns;
      Ok columns
  end.

Section detect.
Variable float_repr : B64.float → string.

(** Step 2 of [detect_columns]: any exception of the header parsers is
    raised again as a [ValueError]. *)
Definition parse_headers (sheet : Sheet)
  : result (list Period * gmap Z TypeName) :=
  match
    all_periods ← parse_period_header float_repr sheet PERIOD_HEADER_ROW;
    type_headers ← parse_type_header float_repr sheet TYPE_HEADER_ROW;
    Ok (all_periods, type_headers)
  with
  | Ok r => Ok r
  | Raise e => Raise (Exception ValueError (HeaderParseFailed (exn_msg e)))
  end.

(** Step 7 only prints the mapping; the [dict] returned is that of step 5. *)
Definition detect_columns (sheet : Sheet) (target_period : string)
  : result Columns :=
  '(target_year, target_month) ← _parse_period target_period;
  '(all_periods, type_headers) ← parse_headers sheet;
  resolve all_periods type_headers target_year target_month.

End detect.

End ColumnDetector.

(** ** [modules/cost/validator.py] *)

Module Validator.

(** One entry of the [perusahaan] table of the configuration file. *)
Record Company := {
  kode_perusahaan : string;
  nama : string;
  sheet_name : string;
  holding : string
}.

(** [config.get_perusahaan()]: a [dict] in insertion order, config key to
    company data; the keys of a [dict] are distinct. *)
Definition Perusahaan := list (string * Company).

(** The batch handed to the validator, a [pandas.DataFrame]: its column
    labels and, row by row, the value of the column [kode_perusahaan]. *)
Record DataFrame := {
  columns : list string;
  kode_column : list string
}.

(** [dataframe.empty]: an axis of length zero. *)
Definition df_empty (df : DataFrame) : bool :=
  match columns df, kode_column df with
  | [], _ | _, [] => true
  | _, _ => false
  end.

Inductive Status := success | warning | failed.

Record ValidationResult := {
  total_companies : Z;
  processed_companies : Z;
  missing_companies : list string;
  validation_warnings : list string;
  company_coverage_percent : B64.float;
  status : Status;
  config_key_to_name : gmap string string
}.

(** The two lookup tables built by the loop over the configuration. *)
Definition build_maps (cfg : Perusahaan)
  : gmap string string * gmap string string :=
  fold_left
    (λ '(data_code_to_config_key, config_key_to_name) '(config_key, company_data),
       let kode := kode_perusahaan company_data in
       let nama := nama company_data in
       (if decide (kode = "") then data_code_to_config_key
        else <[kode := config_key]> data_code_to_config_key,
        <[config_key := nama]> config_key_to_name))
    cfg (∅, ∅).

Definition processed_data_codes (df : DataFrame) : gset string :=
  if negb (df_empty df) && bool_decide ("kode_perusahaan" ∈ columns df)
  then list_to_set (kode_column df)
  else ∅.

(** A data code counts when the table maps it to a non-empty config key. *)
Definition config_key_of (data_code_to_config_key : gmap string string)
    (data_code : string) : option string :=
  match data_code_to_config_key !! data_code with
  | Some config_key => if decide (config_key = "") then None else Some config_key
  | None => None
  end.

Definition processed_config_keys (cfg : Perusahaan) (df : DataFrame)
  : gset string :=
  set_omap (config_key_of (build_maps cfg).1) (processed_data_codes df).

(** [sorted] on a list of [str]. *)
Definition sorted (l : list string) : list string := merge_sort String.le l.

Definition validate_company_coverage (cfg : Perusahaan) (dataframe : DataFrame)
    (expected_companies : list string)
  : Z * list string * gmap string string :=
  let processed := processed_config_keys cfg dataframe in
  let expected_set : gset string := list_to_set expected_companies in
  let missing_config_keys := sorted (elements (expected_set ∖ processed)) in
  let processed_count := Z.of_nat (size processed) in
  (processed_count, missing_config_keys, (build_maps cfg).2).

Definition determine_status (coverage_percent : B64.float) : Status :=
  if B64.ltb coverage_percent (B64.of_Z 90) then failed
  else if B64.ltb coverage_percent (B64.of_Z 100) then warning
  else success.

Definition validate_upload (cfg : Perusahaan) (dataframe : DataFrame)
    (expected_companies : list string) : ValidationResult :=
  let total := Z.of_nat (length expected_companies) in
  let '(processed_count, missing_config_keys, names) :=
    validate_company_coverage cfg dataframe expected_companies in
  let coverage :=
    if 0 <? total
    then B64.mul (B64.truediv processed_count total) (B64.of_Z 100)
    else B64.zero in
  {| total_companies := total;
     processed_companies := processed_count;
     missing_companies := missing_config_keys;
     validation_warnings := [];
     company_coverage_percent := coverage;
     status := determine_status coverage;
     config_key_to_name := names |}.

End Validator.

(** ** [modules/cost/config.py] *)

Module ConfigLoader.
Import Validator.

(** One entry of the [row_mapping] table. *)
Record CostInfo := {
  payment_type : string;
  cost_description : string
}.

(** [self._config_data] once loaded and validated: the two tables, each a
    [dict] in insertion order with [str] keys.  The file is taken not to
    change while the functions below run. *)
Record Config := {
  perusahaan : Perusahaan;
  row_mapping : list (string * CostInfo)
}.

Definition get_perusahaan (config : Config) : Perusahaan := perusahaan config.

Definition get_row_mapping (config : Config) : list (string * CostInfo) :=
  row_mapping config.

(** [perusahaan.get(nama)]. *)
Definition get_perusahaan_by_name (config : Config) (nama : string)
  : option Company :=
  snd <$> List.find (λ '(key, _), bool_decide (key = nama)) (get_perusahaan config).

Definition get_perusahaan_by_sheet (config : Config) (sheet_name : string)
  : option Company :=
  List.find (λ perusahaan, bool_decide (Validator.sheet_name perusahaan = sheet_name))
            (get_perusahaan config).*2.

Definition get_perusahaan_by_kode (config : Config) (kode : string)
  : option Company :=
  List.find (λ perusahaan, bool_decide (kode_perusahaan perusahaan = kode))
            (get_perusahaan config).*2.

Definition get_all_sheet_names (config : Config) : list string :=
  Validator.sheet_name <$> (get_perusahaan config).*2.

Definition get_holdings (config : Config) : list string :=
  let holdings : gset string := list_to_set (holding <$> (get_perusahaan config).*2) in
  sorted (elements holdings).

Definition get_companies_count (config : Config) : Z :=
  Z.of_nat (length (get_perusahaan config)).

Definition get_companies_list (config : Config) : list string :=
  (get_perusahaan config).*1.

(** The [dict] returned by [summary]. *)
Record Summary := {
  total_perusahaan : Z;
  total_row_mappings : Z;
  cash_items : Z;
  non_cash_items : Z;
  holdings : list string;
  holding_counts : gmap string Z;
  sheet_names : list string
}.

(** [sum(1 for r in row_mapping.values() if r['payment_type'] == kind)]. *)
Definition count_payment_type (kind : string) (row_mapping : list (string * CostInfo))
  : Z :=
  Z.of_nat (length (filter (λ r, payment_type r = kind) row_mapping.*2)).

Definition summary (config : Config) : Summary :=
  let perusahaan := get_perusahaan config in
  let row_mapping := get_row_mapping config in
  let cash_count := count_payment_type "CASH" row_mapping in
  let non_cash_count := count_payment_type "NON CASH" row_mapping in
  let holding_counts :=
    fold_left
      (λ (holding_counts : gmap string Z) p,
         let holding := holding p in
         <[holding := default 0 (holding_counts !! holding) + 1]> holding_counts)
      perusahaan.*2 ∅ in
  {| total_perusahaan := Z.of_nat (length perusahaan);
     total_row_mappings := Z.of_nat (length row_mapping);
     cash_items := cash_count;
     non_cash_items := non_cash_count;
     holdings := get_holdings config;
     holding_counts := holding_counts;
     sheet_names := get_all_sheet_names config |}.

End ConfigLoader.

(** ** [modules/cost/data_processor.py] *)

Module DataProcessor.
Import ExcelReader ColumnDetector Validator ConfigLoader.

(** One output row, a [dict] with these nine keys. *)
Record DataRow := {
  row_holding : string;
  row_kode_perusahaan : string;
  row_periode : string;
  row_payment_type : string;
  row_cost_description : string;
  row_REAL : B64.float;
  row_RKAP : B64.float;
  row_REAL_SD : B64.float;
  row_RKAP_SD : B64.float
}.

(** [int(s)] on a [str]: surrounding white space, a sign, digits with
    single underscores between them; [None] stands for the [ValueError]. *)
Definition int_of_str (s : string) : option Z :=
  l ← drop_underscores None (list_ascii_of_string (Py.number_text s));
  let '(sign, body) := parse_sign l in
  match span_digits body with
  | ((_ :: _) as digits, []) =>
      Some (if sign then - digits_value digits else digits_value digits)
  | _ => None
  end.

(** The counters kept on [self]. *)
Record Counters := {
  processed_count : Z;
  error_count : Z;
  skipped_sheets : list string
}.

(** [DataProcessor.__init__]. *)
Definition init : Counters :=
  {| processed_count := 0; error_count := 0; skipped_sheets := [] |}.

Section processor.

Variable float_repr : B64.float → string.

(** [self.reader.get_cell_value(sheet, row_num, columns[key])], the value
    only.  On a column that is [None] openpyxl raises a [ValueError] or a
    [TypeError], which [get_cell_value] turns into [0.0]. *)
Definition value_at (sheet : Sheet) (row_num : Z) (col : option Z)
  : result B64.float :=
  match col with
  | Some col => '(value, _) ← get_cell_value sheet row_num col; Ok value
  | None => Ok B64.zero
  end.

(** The four reads of one row, under [try] ... [except Exception]. *)
Definition read_row (sheet : Sheet) (row_num : Z) (columns : Columns)
  : B64.float * B64.float * B64.float * B64.float :=
  match
    real_bulan ← value_at sheet row_num (REAL_BULAN_INI columns);
    rkap_bulan ← value_at sheet row_num (RKAP_BULAN_INI columns);
    real_sd ← value_at sheet row_num (REAL_SD columns);
    rkap_sd ← value_at sheet row_num (RKAP_SD columns);
    Ok (real_bulan, rkap_bulan, real_sd, rkap_sd)
  with
  | Ok values => values
  | Raise _ => (B64.zero, B64.zero, B64.zero, B64.zero)
  end.

(** The loop of [process_sheet] over [row_mapping.items()].  The message
    of the [ValueError] of [int()] goes on with the literal. *)
Fixpoint extract_rows (sheet : Sheet) (perusahaan_data : Company)
    (period_full : string) (columns : Columns)
    (row_mapping : list (string * CostInfo)) : result (list DataRow) :=
  match row_mapping with
  | [] => Ok []
  | (row_num_str, cost_info) :: rest =>
      match int_of_str row_num_str with
      | None =>
          Raise (Exception ValueError (Builtin "invalid literal for int() with base 10"))
      | Some row_num =>
          let '(real_bulan, rkap_bulan, real_sd, rkap_sd) :=
            read_row sheet row_num columns in
          let data_row :=
            {| row_holding := holding perusahaan_data;
               row_kode_perusahaan := kode_perusahaan perusahaan_data;
               row_periode := period_full;
               row_payment_type := payment_type cost_info;
               row_cost_description := cost_description cost_info;
               row_REAL := real_bulan;
               row_RKAP := rkap_bulan;
               row_REAL_SD := real_sd;
               row_RKAP_SD := rkap_sd |} in
          data_rows ← extract_rows sheet perusahaan_data period_full columns rest;
          Ok (data_row :: data_rows)
      end
  end.

Definition process_sheet (workbook : Workbook) (config : Config)
    (sheet_name : string) (perusahaan_data : Company)
    (period_search : string) (period_full : option string)
  : result (list DataRow) :=
  let period_full := default period_search period_full in
  sheet ← get_sheet workbook sheet_name;
  columns ← detect_columns float_repr sheet period_search;
  extract_rows sheet perusahaan_data period_full columns (get_row_mapping config).

(** The loop of [process_all_sheets] over the companies; [self] holds the
    counters. *)
Fixpoint process_companies (workbook : Workbook) (config : Config)
    (period_search : string) (period_full : option string)
    (perusahaan_list : Perusahaan) (all_data : list DataRow) (self : Counters)
  : list DataRow * Counters :=
  match perusahaan_list with
  | [] => (all_data, self)
  | (nama_perusahaan, perusahaan_data) :: rest =>
      let sheet_name := Validator.sheet_name perusahaan_data in
      if negb (sheet_exists workbook sheet_name) then
        process_companies workbook config period_search period_full rest all_data
          {| processed_count := processed_count self;
             error_count := error_count self;
             skipped_sheets := (skipped_sheets self ++ [sheet_name])%list |}
      else
        match process_sheet workbook config sheet_name perusahaan_data
                period_search period_full with
        | Ok sheet_data =>
            process_companies workbook config period_search period_full rest
              (all_data ++ sheet_data)%list
              {| processed_count := processed_count self + 1;
                 error_count := error_count self;
                 skipped_sheets := skipped_sheets self |}
        | Raise _ =>
            process_companies workbook config period_search period_full rest all_data
              {| processed_count := processed_count self;
                 error_count := error_count self + 1;
                 skipped_sheets := skipped_sheets self |}
        end
  end.

(** The returned list together with the counters left on [self]. *)
Definition process_all_sheets (workbook : Workbook) (config : Config)
    (self : Counters) (period_search : string) (period_full : option string)
  : list DataRow * Counters :=
  let period_full := Some (default period_search period_full) in
  process_companies workbook config period_search period_full
    (get_perusahaan config) [] self.

(** [None] when the company is not configured or its sheet fails. *)
Definition process_single_perusahaan (workbook : Workbook) (config : Config)
    (nama_perusahaan : string) (period : string) : option (list DataRow) :=
  match get_perusahaan_by_name config nama_perusahaan with
  | None => None
  | Some perusahaan_data =>
      match process_sheet workbook config (Validator.sheet_name perusahaan_data)
              perusahaan_data period None with
      | Ok data_rows => Some data_rows
      | Raise _ => None
      end
  end.

End processor.

(** The [dict] returned by [get_statistics]. *)
Definition get_statistics (self : Counters) : Z * Z * Z * list string :=
  (processed_count self, error_count self,
   Z.of_nat (length (skipped_sheets self)), skipped_sheets self).

(** The [dict] returned by [validate_data]. *)
Record Issues := {
  missing_values : Z;
  negative_values : Z;
  zero_rows : Z;
  total_rows : Z;
  is_valid : bool
}.

(** The truth value of a [str]. *)
Definition nonempty (s : string) : bool := negb (bool_decide (s = "")).

Definition numeric_fields : list (DataRow → B64.float) :=
  [row_REAL; row_RKAP; row_REAL_SD; row_RKAP_SD].

Definition has_missing (row : DataRow) : bool :=
  negb (forallb nonempty
          [row_holding row; row_kode_perusahaan row; row_periode row;
           row_payment_type row; row_cost_description row]).

Definition has_negative (row : DataRow) : bool :=
  existsb (λ field, B64.ltb (field row) (B64.of_Z 0)) numeric_fields.

Definition all_zero (row : DataRow) : bool :=
  forallb (λ field, B64.eqb (field row) (B64.of_Z 0)) numeric_fields.

Definition validate_data (data : list DataRow) : Issues :=
  let '(missing_values, negative_values, zero_rows) :=
    fold_left
      (λ '(missing_values, negative_values, zero_rows) row,
         (if has_missing row then missing_values + 1 else missing_values,
          if has_negative row then negative_values + 1 else negative_values,
          if all_zero row then zero_rows + 1 else zero_rows))
      data (0, 0, 0) in
  {| missing_values := missing_values;
     negative_values := negative_values;
     zero_rows := zero_rows;
     total_rows := Z.of_nat (length data);
     is_valid := (missing_values =? 0) && (negative_values =? 0) |}.

End DataProcessor.

(** ** [web/routes/cost.py], the steps of [convert] around the engine *)

Module CostRoute.
Import Validator ConfigLoader DataProcessor.

(** [date.strftime('%Y-%m')] for a year of four digits. *)
Definition strftime_Y_m (year month : Z) : string :=
  Py.str_of_int year +:+ "-" +:+
  (if month <? 10 then "0" +:+ Py.str_of_int month else Py.str_of_int month).

(** [pd.DataFrame(result)] on a list of rows that all have the nine keys:
    no column when the list is empty. *)
Definition DataFrame_of (result : list DataRow) : DataFrame :=
  {| columns :=
       match result with
       | [] => []
       | _ => ["holding"; "kode_perusahaan"; "periode"; "payment_type";
               "cost_description"; "REAL"; "RKAP"; "REAL_SD"; "RKAP_SD"]
       end;
     kode_column := row_kode_perusahaan <$> result |}.

(** The validation step: the extracted rows against every configured key.
    Without any row [convert] raises [Exception("Tidak ada data yang
    berhasil diproses")] before it; [None] stands for that exception. *)
Definition validation_result (config : Config) (result : list DataRow)
  : option ValidationResult :=
  match result with
  | [] => None
  | _ :: _ =>
      let df := DataFrame_of result in
      let perusahaan_dict := get_perusahaan config in
      let expected_company_keys := perusahaan_dict.*1 in
      Some (validate_upload perusahaan_dict df expected_company_keys)
  end.

End CostRoute.

(** * The specification's notions and its scenarios *)

Module Spec.
Import ExcelReader ColumnDetector Validator.

(** [sub] occurs in [s] at character offset [p]. *)
Definition occurs_at (sub s : string) (p : Z) : Prop :=
  ∃ pre post, s = pre +:+ sub +:+ post ∧ Z.of_nat (String.length pre) = p.

(** A match at offset [p] of the pattern "20" followed by two characters
    of the class [\d], read as the number [y]; [decimal] reads one such
    character at the head of a text. *)
Definition year_at (decimal : string → option (Z * string)) (s : string)
    (p y : Z) : Prop :=
  ∃ pre rest d1 rest1 d2 rest2,
    s = pre +:+ "20" +:+ rest ∧ Z.of_nat (String.length pre) = p ∧
    decimal rest = Some (d1, rest1) ∧ decimal rest1 = Some (d2, rest2) ∧
    y = 2000 + 10 * d1 + d2.

(** Text outside the ASCII range, as the bytes of its UTF-8 encoding: the
    Kelvin sign U+212A between "O" and "T", and the full-width digits
    U+FF12 and U+FF14. *)
Definition kelvin_sign : string :=
  String (ascii_of_N 226) (String (ascii_of_N 132) (String (ascii_of_N 170) "")).
Definition kelvin_header : string := "O" +:+ kelvin_sign +:+ "T - Des 2024".
Definition fullwidth_2 : string :=
  String (ascii_of_N 239) (String (ascii_of_N 188) (String (ascii_of_N 146) "")).
Definition fullwidth_4 : string :=
  String (ascii_of_N 239) (String (ascii_of_N 188) (String (ascii_of_N 148) "")).
Definition fullwidth_24 : string := fullwidth_2 +:+ fullwidth_4 +:+ " / 2025".

(** A Month-kind descriptor of the target period. *)
Definition month_match (target_year target_month : Z) (p : Period) : Prop :=
  type p = bulan ∧ year p = target_year ∧ month p = target_month.

(** A Cumulative-kind descriptor of the target period. *)
Definition cumulative_match (target_year target_month : Z) (p : Period) : Prop :=
  type p = sd ∧ year p = target_year ∧ month p = target_month.

Global Instance month_match_dec ty tm p : Decision (month_match ty tm p).
Proof. unfold month_match. apply _. Defined.

Global Instance cumulative_match_dec ty tm p : Decision (cumulative_match ty tm p).
Proof. unfold cumulative_match. apply _. Defined.

(** [c] is the first column after [after] that the value-type map
    classifies as [t]. *)
Definition first_after (type_headers : gmap Z TypeName) (after : Z)
    (t : TypeName) (c : Z) : Prop :=
  after < c ∧ type_headers !! c = Some t ∧
  ∀ c', after < c' < c → type_headers !! c' ≠ Some t.

(** [c] is the highest column of the range that the map classifies as [t]. *)
Definition last_in_range (type_headers : gmap Z TypeName) (start_col end_col : Z)
    (t : TypeName) (c : Z) : Prop :=
  start_col ≤ c ≤ end_col ∧ type_headers !! c = Some t ∧
  ∀ c', start_col ≤ c' ≤ end_col → type_headers !! c' = Some t → c' ≤ c.

(** The logical column named [k] is unresolved. *)
Definition unresolved (columns : Columns) (k : string) : Prop :=
  (k = "REAL_BULAN_INI" ∧ REAL_BULAN_INI columns = None) ∨
  (k = "RKAP_BULAN_INI" ∧ RKAP_BULAN_INI columns = None) ∨
  (k = "REAL_SD" ∧ REAL_SD columns = None) ∨
  (k = "RKAP_SD" ∧ RKAP_SD columns = None).



(** The column number that a column name in letters stands for: [A] is 1,
    [Z] is 26, [AA] is 27. *)
Definition column_of_letters (letters : string) : Z :=
  fold_left (λ acc c, 26 * acc + (Z.of_N (Py.code c) - 64))
            (list_ascii_of_string letters) 0.

(** **** Worksheets *)

(** A header row 7 with one merged range over columns 5-6 holding
    [period_text], and a row 8 holding [actual] at columns 5 and 9 and
    [budget] at columns 6 and 10; columns 7 and 8 are empty. *)
Definition worksheet (period_text actual budget : string) : Sheet :=
  {| merged_cells := [ {| min_row := 7; min_col := 5; max_row := 7; max_col := 6 |} ];
     cells := list_to_map [ ((7, 5), VStr period_text);
                            ((8, 5), VStr actual); ((8, 6), VStr budget);
                            ((8, 9), VStr actual); ((8, 10), VStr budget) ];
     max_column := 10 |}.

(** The worksheet of the end-to-end scenario as the specification words
    it, and the same worksheet in the vocabulary of the code. *)
Definition worksheet_english : Sheet := worksheet "December 2024" "ACTUAL" "BUDGET".
Definition worksheet_indonesian : Sheet := worksheet "Desember 2024" "REAL" "RKAP".

(** A worksheet whose only period header is a Cumulative-kind one. *)
Definition worksheet_cumulative_only : Sheet :=
  worksheet "s.d. Desember 2024" "REAL" "RKAP".

(** What the header rows of [worksheet_indonesian] parse to. *)
Definition scenario_month : Period :=
  {| type := bulan; text := "Desember 2024"; start_col := 5; end_col := 6;
     month := 12; year := 2024; is_sd := false |}.

Definition scenario_types : gmap Z TypeName :=
  list_to_map [(5, REAL); (6, RKAP); (9, REAL); (10, RKAP)].

(** The worksheets above hold no [float]; any rendering will do. *)
Definition repr_unused : B64.float → string := λ _, "".

(** A sheet with one cell, at row 10 and column 5. *)
Definition one_cell (value : CellValue) : Sheet :=
  {| merged_cells := []; cells := {[ (10, 5) := value ]}; max_column := 5 |}.

(** **** Batches *)

Definition company (key : string) : string * Company :=
  (key, {| kode_perusahaan := key; nama := key; sheet_name := key; holding := "H" |}).

Definition ten_units : list string := ["A"; "B"; "C"; "D"; "E"; "F"; "G"; "H"; "I"; "J"].

Definition config_of (keys : list string) : Perusahaan := company <$> keys.

(** The frame built from the extracted rows of the given units. *)
Definition batch (codes : list string) : DataFrame :=
  {| columns := ["holding"; "kode_perusahaan"; "periode"; "payment_type";
                 "cost_description"; "REAL"; "RKAP"; "REAL_SD"; "RKAP_SD"];
     kode_column := codes |}.

(** **** A workbook and its configuration *)

(** Two configured units, [A] and [B], each with a sheet named after its
    key, and one cost row, at row 10. *)
Definition scenario_config : ConfigLoader.Config :=
  {| ConfigLoader.perusahaan := [company "A"; company "B"];
     ConfigLoader.row_mapping :=
       [("10", {| ConfigLoader.payment_type := "CASH";
                  ConfigLoader.cost_description := "Gaji" |})] |}.

(** A workbook that holds the sheet of unit [A] only. *)
Definition scenario_workbook : Workbook := [("A", worksheet_indonesian)].

End Spec.

(** * Properties *)

(** ** Binary64 rounding *)

Section rounding.

Lemma fexp_eq (e : Z) : fexp B64.prec B64.emax e = Z.max (e - 53) (-1074).
Proof. reflexivity. Qed.

Lemma fexp_mono (a b : Z) : a <= b -> fexp B64.prec B64.emax a <= fexp B64.prec B64.emax b.
Proof. rewrite !fexp_eq. lia. Qed.

(** The number of binary digits. *)
Lemma digits2_pos_bounds (p : positive) :
  2 ^ (Zpos (digits2_pos p) - 1) <= Zpos p < 2 ^ Zpos (digits2_pos p).
Proof.
  induction p as [p IH|p IH|]; simpl digits2_pos.
  - rewrite Pos2Z.inj_succ.
    replace (Z.succ (Zpos (digits2_pos p)) - 1) with (Z.succ (Zpos (digits2_pos p) - 1)) by lia.
    rewrite !Z.pow_succ_r by lia. lia.
  - rewrite Pos2Z.inj_succ.
    replace (Z.succ (Zpos (digits2_pos p)) - 1) with (Z.succ (Zpos (digits2_pos p) - 1)) by lia.
    rewrite !Z.pow_succ_r by lia. lia.
  - simpl. lia.
Qed.

Lemma Zdigits2_bounds (m : Z) :
  0 < m -> 2 ^ (Zdigits2 m - 1) <= m < 2 ^ Zdigits2 m.
Proof. destruct m as [|p|p]; try lia. intros _. apply digits2_pos_bounds. Qed.

Lemma Zdigits2_pos (m : Z) : 0 < m -> 0 < Zdigits2 m.
Proof. destruct m; simpl; lia. Qed.

Lemma Zdigits2_nonneg (m : Z) : 0 <= Zdigits2 m.
Proof. destruct m; simpl; lia. Qed.

Lemma Zdigits2_unique (m d : Z) :
  2 ^ (d - 1) <= m < 2 ^ d -> 0 < m -> Zdigits2 m = d.
Proof.
  intros [Hl Hu] Hm. pose proof (Zdigits2_bounds m Hm) as [Hl' Hu'].
  pose proof (Zdigits2_pos m Hm).
  assert (0 < d).
  { destruct (Z_lt_le_dec 0 d); [done|].
    assert (2 ^ d <= 1); [|lia].
    destruct (decide (d = 0)) as [->|]; [done|]. rewrite Z.pow_neg_r; lia. }
  assert (d - 1 < Zdigits2 m).
  { apply (Z.pow_lt_mono_r_iff 2); lia. }
  assert (Zdigits2 m - 1 < d).
  { apply (Z.pow_lt_mono_r_iff 2); lia. }
  lia.
Qed.

Lemma Zdigits2_le (a b : Z) : 0 < a -> a <= b -> Zdigits2 a <= Zdigits2 b.
Proof.
  intros Ha Hab. pose proof (Zdigits2_bounds a Ha) as [Hl _].
  pose proof (Zdigits2_bounds b ltac:(lia)) as [_ Hu].
  pose proof (Zdigits2_pos a Ha).
  assert (Zdigits2 a - 1 < Zdigits2 b).
  { apply (Z.pow_lt_mono_r_iff 2); try lia. pose proof (Zdigits2_nonneg b). lia. }
  lia.
Qed.

(** Shifting to the right, with the bits that fall out. *)
Lemma iter_pos_nat {A} (f : A -> A) (p : positive) (x : A) :
  SpecFloat.iter_pos f p x = Nat.iter (Pos.to_nat p) f x.
Proof.
  revert x. induction p as [p IH|p IH|]; intros x; cbn [SpecFloat.iter_pos].
  - rewrite !IH, Pos2Nat.inj_xI. rewrite <- Nat.iter_add.
    replace (S (2 * Pos.to_nat p)) with (S (Pos.to_nat p + Pos.to_nat p)) by lia.
    by rewrite Nat.iter_succ_r.
  - rewrite !IH, Pos2Nat.inj_xO. rewrite <- Nat.iter_add.
    by replace (2 * Pos.to_nat p)%nat with (Pos.to_nat p + Pos.to_nat p)%nat by lia.
  - done.
Qed.

Lemma shr_1_m (mrs : shr_record) :
  0 <= shr_m mrs -> shr_m (shr_1 mrs) = shr_m mrs / 2.
Proof.
  destruct mrs as [m r s]. simpl. intros Hm.
  destruct m as [|[p|p|]|p]; cbn [shr_m shr_1]; [done| | |done|lia].
  - apply Z.div_unique with (r := 1); lia.
  - apply Z.div_unique with (r := 0); lia.
Qed.

Lemma shr_1_exact (mrs : shr_record) :
  0 <= shr_m mrs -> shr_m mrs mod 2 = 0 ->
  shr_r mrs = false -> shr_s mrs = false ->
  shr_r (shr_1 mrs) = false /\ shr_s (shr_1 mrs) = false.
Proof.
  destruct mrs as [m r s]. simpl. intros Hm Hmod -> ->.
  destruct m as [|[p|p|]|p]; cbn [shr_m shr_r shr_s shr_1 orb]; try done; try lia.
  rewrite Pos2Z.inj_xI in Hmod.
  rewrite Z.add_comm, Z.mul_comm, Z.mod_add in Hmod by lia. done.
Qed.

Lemma shr_n_spec (n : nat) (mrs : shr_record) :
  0 <= shr_m mrs ->
  shr_m (Nat.iter n shr_1 mrs) = shr_m mrs / 2 ^ Z.of_nat n /\
  (shr_m mrs mod 2 ^ Z.of_nat n = 0 -> shr_r mrs = false -> shr_s mrs = false ->
   shr_r (Nat.iter n shr_1 mrs) = false /\ shr_s (Nat.iter n shr_1 mrs) = false).
Proof.
  intros Hm. induction n as [|n [IHm IHe]].
  - simpl. rewrite Z.div_1_r. done.
  - rewrite !Nat.iter_succ.
    assert (Hpos : 0 <= shr_m (Nat.iter n shr_1 mrs)).
    { rewrite IHm. apply Z.div_pos; lia. }
    rewrite Nat2Z.inj_succ, Z.pow_succ_r by lia. split.
    + rewrite shr_1_m, IHm by done. rewrite Z.div_div by lia. by rewrite Z.mul_comm.
    + intros Hmod Hr Hs.
      apply Z.mod_divide in Hmod as [c Hc]; [|lia].
      assert (Hmod' : shr_m mrs mod 2 ^ Z.of_nat n = 0).
      { apply Z.mod_divide; [lia|]. exists (c * 2). lia. }
      destruct (IHe Hmod' Hr Hs) as [Hr' Hs'].
      apply shr_1_exact; try done.
      rewrite IHm. rewrite Hc.
      replace (c * (2 * 2 ^ Z.of_nat n)) with (c * 2 * 2 ^ Z.of_nat n) by lia.
      rewrite Z.div_mul by lia. rewrite Z.mul_comm, Z.mul_comm, Z.mod_mul; lia.
Qed.

Lemma shr_record_of_loc_m m l : shr_m (shr_record_of_loc m l) = m.
Proof. by destruct l as [|[]]. Qed.

Lemma loc_of_shr_record_of_loc m l : loc_of_shr_record (shr_record_of_loc m l) = l.
Proof. by destruct l as [|[]]. Qed.

Lemma shr_fexp_spec (M E : Z) (l : location) :
  0 <= M ->
  let k := Z.max (fexp B64.prec B64.emax (Zdigits2 M + E) - E) 0 in
  exists mrs,
    shr_fexp B64.prec B64.emax M E l = (mrs, E + k) /\
    shr_m mrs = M / 2 ^ k /\
    (M mod 2 ^ k = 0 -> l = loc_Exact -> loc_of_shr_record mrs = loc_Exact).
Proof.
  intros HM k. unfold shr_fexp, shr. subst k.
  destruct (fexp B64.prec B64.emax (Zdigits2 M + E) - E) as [|p|p] eqn:Hk.
  - eexists. split; [by rewrite Z.add_0_r|].
    rewrite shr_record_of_loc_m, Z.div_1_r. split; [done|].
    intros _ ->. done.
  - rewrite Z.max_l by lia. eexists. split; [done|].
    rewrite iter_pos_nat.
    destruct (shr_n_spec (Pos.to_nat p) (shr_record_of_loc M l)) as [Hm He].
    { by rewrite shr_record_of_loc_m. }
    rewrite positive_nat_Z, shr_record_of_loc_m in Hm, He.
    split; [done|]. intros Hmod ->. destruct (He Hmod eq_refl eq_refl) as [Hr Hs].
    destruct (Nat.iter _ _ _) as [m r s]. simpl in *. by subst.
  - rewrite Z.max_r by lia. eexists. split; [by rewrite Z.add_0_r|].
    rewrite shr_record_of_loc_m, Z.div_1_r. split; [done|].
    intros _ ->. done.
Qed.

Lemma round_nearest_even_bounds (m : Z) (l : location) :
  m <= round_nearest_even m l <= m + 1 /\
  (l = loc_Exact -> round_nearest_even m l = m).
Proof.
  destruct l as [|[]]; simpl; try (split; [lia|done]).
  destruct (Z.even m); split; try lia; done.
Qed.

Lemma Zdigits2_div (M k : Z) :
  0 <= k -> 0 < M / 2 ^ k -> Zdigits2 (M / 2 ^ k) = Zdigits2 M - k.
Proof.
  intros Hk Hq.
  assert (Hpow : 0 < 2 ^ k) by (apply Z.pow_pos_nonneg; lia).
  assert (HM : 2 ^ k <= M).
  { destruct (Z_lt_le_dec M (2 ^ k)) as [Hlt|]; [|done].
    destruct (Z_lt_le_dec M 0).
    - assert (M / 2 ^ k < 0) by (apply Z.div_lt_upper_bound; lia). lia.
    - rewrite Z.div_small in Hq by lia. lia. }
  pose proof (Zdigits2_bounds M ltac:(lia)) as [Hl Hu].
  assert (Hdk : k < Zdigits2 M).
  { apply (Z.pow_lt_mono_r_iff 2); try lia. pose proof (Zdigits2_nonneg M). lia. }
  apply Zdigits2_unique; [|done]. split.
  - apply Z.div_le_lower_bound; [done|].
    rewrite <- Z.pow_add_r by lia.
    by replace (k + (Zdigits2 M - k - 1)) with (Zdigits2 M - 1) by lia.
  - apply Z.div_lt_upper_bound; [done|].
    rewrite <- Z.pow_add_r by lia.
    by replace (k + (Zdigits2 M - k)) with (Zdigits2 M) by lia.
Qed.

(** Two B64.canonical positive numbers compare as their exponents and
    significands do. *)
Lemma canonical_le (m mb : positive) (e eb E : Z) :
  B64.canonical m e -> B64.canonical mb eb -> E <= e -> E <= eb ->
  Zpos m * 2 ^ (e - E) <= Zpos mb * 2 ^ (eb - E) ->
  e <= eb /\ (e = eb -> Zpos m <= Zpos mb).
Proof.
  unfold B64.canonical. intros Hc Hcb He Heb Hle.
  assert (Hexp : e <= eb).
  { destruct (Z_le_gt_dec e eb) as [|Hgt]; [done|].
    pose proof (Zdigits2_bounds (Zpos m) ltac:(lia)) as [Hl _].
    pose proof (Zdigits2_bounds (Zpos mb) ltac:(lia)) as [_ Hu].
    pose proof (Zdigits2_pos (Zpos m) ltac:(lia)).
    pose proof (Zdigits2_pos (Zpos mb) ltac:(lia)).
    assert (H1 : 2 ^ (Zdigits2 (Zpos m) - 1 + (e - E)) <= Zpos m * 2 ^ (e - E)).
    { rewrite Z.pow_add_r by lia. apply Z.mul_le_mono_nonneg_r; [|done].
      apply Z.pow_nonneg. lia. }
    assert (H2 : Zpos mb * 2 ^ (eb - E) < 2 ^ (Zdigits2 (Zpos mb) + (eb - E))).
    { rewrite Z.pow_add_r by lia. apply Z.mul_lt_mono_pos_r; [|done].
      apply Z.pow_pos_nonneg; lia. }
    assert (Zdigits2 (Zpos m) - 1 + (e - E) < Zdigits2 (Zpos mb) + (eb - E)).
    { apply (Z.pow_lt_mono_r_iff 2); lia. }
    assert (Hm : fexp B64.prec B64.emax (Zdigits2 (Zpos m) + e)
                 <= fexp B64.prec B64.emax (Zdigits2 (Zpos mb) + eb))
      by (apply fexp_mono; lia).
    lia. }
  split; [done|]. intros ->.
  apply Z.mul_le_mono_pos_r in Hle; [done|]. apply Z.pow_pos_nonneg; lia.
Qed.

(** Rounding a value that is at most a B64.canonical bound yields at most that
    bound. *)
Lemma binary_round_aux_le (M E : Z) (l : location) (mb : positive) (eb : Z) :
  0 <= M ->
  E <= fexp B64.prec B64.emax (Zdigits2 M + E) ->
  B64.canonical mb eb -> eb <= B64.emax - B64.prec -> E <= eb ->
  M + B64.inexact l <= Zpos mb * 2 ^ (eb - E) ->
  binary_round_aux B64.prec B64.emax false M E l = S754_zero false \/
  exists m e,
    binary_round_aux B64.prec B64.emax false M E l = S754_finite false m e /\
    B64.canonical m e /\ e <= eb /\ (e = eb -> Zpos m <= Zpos mb).
Proof.
  intros HM Hshift Hcb Hebmax HEeb Hle. unfold binary_round_aux.
  destruct (shr_fexp_spec M E l HM) as (mrs1 & Hs1 & Hm1 & Hex1).
  rewrite Hs1. clear Hs1.
  set (e1 := fexp B64.prec B64.emax (Zdigits2 M + E)) in *.
  rewrite Z.max_l in Hm1, Hex1 |- * by lia.
  set (k := e1 - E) in *.
  replace (E + k) with e1 by (unfold k; lia).
  assert (Hk : 0 <= k) by (unfold k; lia).
  assert (Hpk : 0 < 2 ^ k) by (apply Z.pow_pos_nonneg; lia).
  set (m1 := round_nearest_even (shr_m mrs1) (loc_of_shr_record mrs1)).
  destruct (round_nearest_even_bounds (shr_m mrs1) (loc_of_shr_record mrs1))
    as [[Hm1l Hm1u] Hm1e]. fold m1 in Hm1l, Hm1u, Hm1e.
  assert (Hq : 0 <= M / 2 ^ k) by (apply Z.div_pos; lia).
  assert (Hm1pos : 0 <= m1) by lia.
  destruct (shr_fexp_spec m1 e1 loc_Exact Hm1pos) as (mrs2 & Hs2 & Hm2 & _).
  rewrite Hs2. clear Hs2.
  set (k2 := Z.max (fexp B64.prec B64.emax (Zdigits2 m1 + e1) - e1) 0) in *.
  assert (Hk2 : 0 <= k2) by (unfold k2; lia).
  assert (Hpk2 : 0 < 2 ^ k2) by (apply Z.pow_pos_nonneg; lia).
  (* the bound is a multiple of the first rounding step *)
  assert (He1eb : e1 <= eb).
  { unfold B64.canonical in Hcb. rewrite <- Hcb. unfold e1. apply fexp_mono.
    pose proof (Zdigits2_pos (Zpos mb) ltac:(lia)).
    destruct (decide (M = 0)) as [->|HM0]; [simpl; lia|].
    pose proof (Zdigits2_bounds M ltac:(lia)) as [Hl _].
    pose proof (Zdigits2_bounds (Zpos mb) ltac:(lia)) as [_ Hu].
    pose proof (Zdigits2_pos M ltac:(lia)).
    assert (H2 : Zpos mb * 2 ^ (eb - E) < 2 ^ (Zdigits2 (Zpos mb) + (eb - E))).
    { rewrite Z.pow_add_r by lia. apply Z.mul_lt_mono_pos_r; [|done].
      apply Z.pow_pos_nonneg; lia. }
    assert (Zdigits2 M - 1 < Zdigits2 (Zpos mb) + (eb - E)).
    { apply (Z.pow_lt_mono_r_iff 2); try lia. destruct l; simpl in Hle; lia. }
    lia. }
  set (b := Zpos mb * 2 ^ (eb - e1)).
  assert (HB : Zpos mb * 2 ^ (eb - E) = b * 2 ^ k).
  { unfold b, k. rewrite <- Z.mul_assoc, <- Z.pow_add_r by lia.
    by replace (eb - e1 + (e1 - E)) with (eb - E) by lia. }
  assert (Hm1b : m1 <= b).
  { rewrite HB in Hle.
    assert (HMb : M / 2 ^ k <= b).
    { apply Z.div_le_upper_bound; [done|]. destruct l; simpl in Hle; lia. }
    destruct l as [|c]; simpl in Hle.
    - destruct (decide (M mod 2 ^ k = 0)) as [Hmod|Hmod].
      + rewrite Hm1e by by apply Hex1. lia.
      + assert (M / 2 ^ k < b); [|lia].
        apply Z.div_lt_upper_bound; [done|].
        assert (M <> 2 ^ k * b); [|lia].
        intros HMeq. apply Hmod. apply Z.mod_divide; [lia|]. exists b. lia.
    - assert (M / 2 ^ k < b); [|lia].
      apply Z.div_lt_upper_bound; [done|]. lia. }
  assert (Hm2le : shr_m mrs2 * 2 ^ k2 <= m1).
  { rewrite Hm2. rewrite Z.mul_comm. apply Z.mul_div_le. done. }
  assert (Hm2pos : 0 <= shr_m mrs2) by (rewrite Hm2; apply Z.div_pos; lia).
  destruct (shr_m mrs2) as [|m2|m2] eqn:Hm2eq; [by left| |lia].
  right.
  assert (Hcan : B64.canonical m2 (e1 + k2)).
  { unfold B64.canonical. rewrite Hm2.
    rewrite Zdigits2_div; [|done|rewrite <- Hm2; lia].
    replace (Zdigits2 m1 - k2 + (e1 + k2)) with (Zdigits2 m1 + e1) by lia.
    assert (Hge : e1 <= fexp B64.prec B64.emax (Zdigits2 m1 + e1)); [|unfold k2; lia].
    destruct (decide (M / 2 ^ k = 0)) as [Hz|Hnz].
    - assert (M < 2 ^ k).
      { destruct (Z_lt_le_dec M (2 ^ k)); [done|].
        assert (1 <= M / 2 ^ k); [|lia].
        apply Z.div_le_lower_bound; lia. }
      assert (Zdigits2 M <= k).
      { destruct (decide (M = 0)) as [->|]; [simpl; lia|].
        pose proof (Zdigits2_bounds M ltac:(lia)) as [Hl _].
        pose proof (Zdigits2_pos M ltac:(lia)).
        assert (Zdigits2 M - 1 < k); [|lia].
        apply (Z.pow_lt_mono_r_iff 2); lia. }
      unfold e1, k, e1 in *. rewrite !fexp_eq in *. lia.
    - assert (Hd : Zdigits2 (M / 2 ^ k) = Zdigits2 M - k)
        by (apply Zdigits2_div; lia).
      assert (Zdigits2 (M / 2 ^ k) <= Zdigits2 m1)
        by (apply Zdigits2_le; lia).
      assert (e1 = fexp B64.prec B64.emax (Zdigits2 M + E)) as Heq by done.
      rewrite Heq at 1. apply fexp_mono. unfold k in *. lia. }
  destruct (canonical_le m2 mb (e1 + k2) eb E Hcan Hcb) as [Hexp Hmant];
    [lia|lia| |].
  { replace (e1 + k2 - E) with (k2 + k) by (unfold k; lia).
    rewrite Z.pow_add_r, Z.mul_assoc by lia. rewrite HB.
    apply Z.mul_le_mono_nonneg_r; lia. }
  exists m2, (e1 + k2). split.
  - replace (e1 + k2 <=? B64.emax - B64.prec) with true; [done|].
    symmetry. apply Z.leb_le. lia.
  - done.
Qed.

Lemma inexact_new_location (m r : Z) :
  B64.inexact (new_location m r) = if r =? 0 then 0 else 1.
Proof.
  unfold new_location, new_location_even, new_location_odd.
  destruct (Z.even m), (r =? 0); done.
Qed.

(** The quotient of [n] by a larger [m] rounds to at most one. *)
Lemma div_round_le_one (n m : positive) :
  Zpos n <= Zpos m ->
  B64.div_round false n m = S754_zero false \/
  exists mx ex,
    B64.div_round false n m = S754_finite false mx ex /\
    B64.canonical mx ex /\ ex <= -52 /\ (ex = -52 -> Zpos mx <= 2 ^ 52).
Proof.
  intros Hnm. unfold B64.div_round, SFdiv_core_binary.
  rewrite !Z.add_0_r. change (0 - 0) with 0.
  set (d1 := Zdigits2 (Zpos n)). set (d2 := Zdigits2 (Zpos m)).
  assert (Hd : d1 <= d2) by (apply Zdigits2_le; lia).
  pose proof (Zdigits2_bounds (Zpos n) ltac:(lia)) as [Hnl Hnu]. fold d1 in Hnl, Hnu.
  pose proof (Zdigits2_bounds (Zpos m) ltac:(lia)) as [Hml Hmu]. fold d2 in Hml, Hmu.
  pose proof (Zdigits2_pos (Zpos n) ltac:(lia)) as Hd1. fold d1 in Hd1.
  set (e' := fexp B64.prec B64.emax (d1 - d2)).
  assert (He' : e' <= -53) by (unfold e'; rewrite fexp_eq; lia).
  assert (Hemin : -1074 <= e') by (unfold e'; rewrite fexp_eq; lia).
  rewrite (Z.min_l e' 0) by lia. rewrite Z.sub_0_l.
  destruct (- e') as [|s|s] eqn:Hs; try lia.
  rewrite Z.shiftl_mul_pow2 by lia. rewrite <- Hs. clear s Hs.
  set (N := Zpos n * 2 ^ (- e')).
  assert (Hpow : 0 < 2 ^ (- e')) by (apply Z.pow_pos_nonneg; lia).
  assert (HN : 0 <= N) by (unfold N; lia).
  destruct (Z.div_eucl N (Zpos m)) as [q r] eqn:Hdiv.
  assert (Hq : q = N / Zpos m) by (unfold Z.div; by rewrite Hdiv).
  assert (Hr : r = N mod Zpos m) by (unfold Z.modulo; by rewrite Hdiv).
  cbv beta iota.
  pose proof (Z.div_mod N (Zpos m) ltac:(lia)) as Hdm.
  pose proof (Z.mod_pos_bound N (Zpos m) ltac:(lia)) as Hrb.
  rewrite <- Hq, <- Hr in Hdm. rewrite <- Hr in Hrb.
  assert (Hq0 : 0 <= q) by (rewrite Hq; apply Z.div_pos; lia).
  assert (Hone : B64.canonical 4503599627370496 (-52)) by reflexivity.
  destruct (binary_round_aux_le q e' (new_location (Zpos m) r)
              4503599627370496 (-52) Hq0) as [Hz|(mx & ex & Hx & Hc & He & Hm)];
    try done; try lia.
  - (* the quotient has enough digits *)
    destruct (decide (e' = -1074)) as [->|Hne]; [rewrite fexp_eq; lia|].
    assert (Heq : e' = d1 - d2 - 53) by (unfold e' in *; rewrite fexp_eq in *; lia).
    assert (H52 : 2 ^ 52 <= q).
    { rewrite Hq. apply Z.div_le_lower_bound; [lia|].
      assert (Zpos m * 2 ^ 52 <= 2 ^ d2 * 2 ^ 52)
        by (apply Z.mul_le_mono_nonneg_r; lia).
      assert (2 ^ (d1 - 1) * 2 ^ (- e') <= N)
        by (unfold N; apply Z.mul_le_mono_nonneg_r; lia).
      rewrite <- Z.pow_add_r in * by lia.
      replace (d1 - 1 + - e') with (d2 + 52) in * by lia. lia. }
    assert (53 <= Zdigits2 q).
    { change 53 with (Zdigits2 (2 ^ 52)). apply Zdigits2_le; [done|lia]. }
    rewrite fexp_eq. lia.
  - (* the quotient is at most one *)
    rewrite inexact_new_location.
    replace (Zpos 4503599627370496 * 2 ^ (-52 - e')) with (2 ^ (- e')).
    2:{ change (Zpos 4503599627370496) with (2 ^ 52).
        rewrite <- Z.pow_add_r by lia. f_equal. lia. }
    assert (HNle : N <= Zpos m * 2 ^ (- e'))
      by (unfold N; apply Z.mul_le_mono_nonneg_r; lia).
    destruct (Z.eqb_spec r 0) as [->|Hr0].
    + assert (q <= 2 ^ (- e')); [|lia].
      apply (Z.mul_le_mono_pos_l _ _ (Zpos m)); lia.
    + assert (q < 2 ^ (- e')); [|lia].
      apply (Z.mul_lt_mono_pos_l (Zpos m)); lia.
  - by left.
  - right. exists mx, ex. done.
Qed.

Lemma SFleb_finite (m mb : positive) (e eb : Z) :
  e <= eb -> (e = eb -> Zpos m <= Zpos mb) ->
  SFleb (S754_finite false m e) (S754_finite false mb eb) = true.
Proof.
  intros He Hm. unfold SFleb, SFcompare.
  change (Pos.compare_cont Eq) with Pos.compare.
  destruct (Z.compare_spec e eb) as [->|?|?]; [|done|lia].
  destruct (Pos.compare_spec m mb); [done|done|lia].
Qed.

(** A factor of at most one does not raise a normal number. *)
Lemma mul_le_of_le_one (x : spec_float) (mb : positive) (eb : Z) :
  B64.canonical mb eb -> eb <= B64.emax - B64.prec -> 2 ^ 52 <= Zpos mb ->
  (x = S754_zero false \/
   exists mx ex, x = S754_finite false mx ex /\
     B64.canonical mx ex /\ ex <= -52 /\ (ex = -52 -> Zpos mx <= 2 ^ 52)) ->
  SFleb (SFmul B64.prec B64.emax x (S754_finite false mb eb)) (S754_finite false mb eb) = true.
Proof.
  intros Hcb Heb Hnormal [->|(mx & ex & -> & Hc & Hex & Hmx)]; [done|].
  cbn [SFmul xorb]. rewrite Pos2Z.inj_mul.
  assert (Hmx' : Zpos mx <= 2 ^ (- ex)).
  { destruct (decide (ex = -52)) as [->|]; [by apply Hmx|].
    unfold B64.canonical in Hc. rewrite fexp_eq in Hc.
    pose proof (Zdigits2_bounds (Zpos mx) ltac:(lia)) as [_ Hu].
    pose proof (Zdigits2_pos (Zpos mx) ltac:(lia)).
    assert (2 ^ Zdigits2 (Zpos mx) <= 2 ^ (- ex))
      by (apply Z.pow_le_mono_r; lia).
    lia. }
  assert (Hpow : 0 < 2 ^ (- ex)) by (apply Z.pow_pos_nonneg; lia).
  destruct (binary_round_aux_le (Zpos mx * Zpos mb) (ex + eb) loc_Exact mb eb)
    as [Hz|(m & e & Hx & _ & He & Hm)]; try done; try lia.
  - assert (53 <= Zdigits2 (Zpos mx * Zpos mb)).
    { change 53 with (Zdigits2 (2 ^ 52)). apply Zdigits2_le; [done|nia]. }
    rewrite fexp_eq. lia.
  - cbn [B64.inexact]. rewrite Z.add_0_r.
    replace (eb - (ex + eb)) with (- ex) by lia.
    rewrite (Z.mul_comm (Zpos mx)). apply Z.mul_le_mono_nonneg_l; lia.
  - by rewrite Hz.
  - rewrite Hx. by apply SFleb_finite.
Qed.

End rounding.

(** ** Coverage validator *)

Section coverage.
Import Validator.

Lemma build_maps_fold_code (cfg : Perusahaan) (m n : gmap string string) code key :
  (fold_left
     (λ '(data_code_to_config_key, config_key_to_name) '(config_key, company_data),
        let kode := kode_perusahaan company_data in
        let nama := nama company_data in
        (if decide (kode = "") then data_code_to_config_key
         else <[kode := config_key]> data_code_to_config_key,
         <[config_key := nama]> config_key_to_name))
     cfg (m, n)).1 !! code = Some key →
  m !! code = Some key ∨
  ∃ company_data, (key, company_data) ∈ cfg ∧ kode_perusahaan company_data = code.
Proof.
  revert m n. induction cfg as [|[k c] cfg IH]; intros m n; simpl.
  - by left.
  - intros H. apply IH in H as [H|(c' & Hin & Hk)].
    + destruct (decide (kode_perusahaan c = "")) as [|Hne]; [by left|].
      destruct (decide (kode_perusahaan c = code)) as [<-|Hd].
      * rewrite lookup_insert_eq in H. injection H as <-.
        right. exists c. split; [left|done].
      * rewrite lookup_insert_ne in H by done. by left.
    + right. exists c'. split; [by right|done].
Qed.

Lemma build_maps_code (cfg : Perusahaan) code key :
  (build_maps cfg).1 !! code = Some key →
  ∃ company_data, (key, company_data) ∈ cfg ∧ kode_perusahaan company_data = code.
Proof.
  intros H. apply build_maps_fold_code in H as [H|H]; [|done].
  by rewrite lookup_empty in H.
Qed.

(** What the code counts: the non-empty config keys that the table built
    from the configuration assigns to a code of the batch. *)
Lemma elem_of_processed_config_keys cfg dataframe key :
  key ∈ processed_config_keys cfg dataframe ↔
  ∃ data_code, data_code ∈ processed_data_codes dataframe ∧
               (build_maps cfg).1 !! data_code = Some key ∧ key ≠ "".
Proof.
  unfold processed_config_keys. rewrite elem_of_set_omap. unfold config_key_of.
  split.
  - intros (code & Hin & H). exists code. split; [done|].
    destruct ((build_maps cfg).1 !! code) as [k|]; [|done].
    destruct (decide (k = "")); [done|]. by injection H as ->.
  - intros (code & Hin & Hl & Hne). exists code. split; [done|].
    rewrite Hl. by destruct (decide (key = "")).
Qed.

Lemma processed_config_keys_in_config cfg dataframe key :
  key ∈ processed_config_keys cfg dataframe →
  ∃ company_data, (key, company_data) ∈ cfg.
Proof.
  rewrite elem_of_processed_config_keys. intros (code & _ & Hl & _).
  apply build_maps_code in Hl as (c & Hin & _). by exists c.
Qed.

Lemma sorted_spec (l : list string) :
  StronglySorted String.le (sorted l) ∧ sorted l ≡ₚ l.
Proof.
  split.
  - apply (StronglySorted_merge_sort String.le).
  - apply (merge_sort_Permutation String.le).
Qed.

(** Comparison of two binary64 values, read in the other direction. *)
Lemma SFcompare_antisym (x y : B64.float) c :
  SFcompare x y = Some c → SFcompare y x = Some (CompOpp c).
Proof.
  destruct x as [[]|[]| |[] mx ex], y as [[]|[]| |[] my ey]; simpl;
    intros H; simplify_eq; try done.
  all: change (Pos.compare_cont Eq) with Pos.compare.
  all: rewrite (Z.compare_antisym ex ey), (Pos.compare_antisym mx my).
  all: destruct (ex ?= ey); simpl; try done.
  all: by destruct (mx ?= my)%positive.
Qed.

Lemma ltb_false_leb (x y : B64.float) :
  B64.is_nan x = false → B64.is_nan y = false →
  B64.ltb x y = false ↔ B64.leb y x = true.
Proof.
  unfold B64.ltb, B64.leb, SFltb, SFleb. intros Hx Hy.
  destruct (SFcompare x y) as [c|] eqn:Hc.
  - apply SFcompare_antisym in Hc. rewrite Hc. by destruct c.
  - by destruct x as [[]|[]| |[] ? ?], y as [[]|[]| |[] ? ?].
Qed.

Lemma leb_finite_not_ltb (m1 m2 : positive) (e : Z) (x : B64.float) :
  (m1 < m2)%positive →
  B64.leb (S754_finite false m2 e) x = true →
  B64.ltb x (S754_finite false m1 e) = false.
Proof.
  unfold B64.leb, B64.ltb, SFleb, SFltb. intros Hm.
  destruct x as [[]|[]| |[] mx ex]; try done.
  unfold SFcompare. change (Pos.compare_cont Eq) with Pos.compare.
  rewrite (Z.compare_antisym ex e).
  destruct (ex ?= e); unfold CompOpp; try done.
  destruct (m2 ?= mx)%positive eqn:H1; try done;
    destruct (mx ?= m1)%positive eqn:H2; try done.
  all: try apply Pos.compare_eq in H1; try apply Pos.compare_eq in H2;
    rewrite ?Pos.compare_lt_iff, ?Pos.compare_gt_iff in *; lia.
Qed.

Lemma of_Z_90 : B64.of_Z 90 = S754_finite false 6333186975989760 (-46).
Proof. by vm_compute. Qed.

Lemma of_Z_100 : B64.of_Z 100 = S754_finite false 7036874417766400 (-46).
Proof. by vm_compute. Qed.

(** A count that does not exceed the total gives at most 100 percent. *)
Lemma coverage_le_100 (n m : Z) :
  0 ≤ n ≤ m → 0 < m →
  B64.leb (B64.mul (B64.truediv n m) (B64.of_Z 100)) (B64.of_Z 100) = true.
Proof.
  intros Hn Hm. rewrite of_Z_100.
  destruct n as [|n|n], m as [|m|m]; try lia; [done|].
  apply mul_le_of_le_one.
  - reflexivity.
  - unfold B64.emax, B64.prec. lia.
  - lia.
  - apply div_round_le_one. lia.
Qed.

(** At least 100 is not below 90. *)
Lemma leb_100_not_ltb_90 (x : B64.float) :
  B64.leb (B64.of_Z 100) x = true → B64.ltb x (B64.of_Z 90) = false.
Proof. rewrite of_Z_90, of_Z_100. by apply leb_finite_not_ltb. Qed.

Lemma leb_both_eqb (x y : B64.float) :
  B64.leb x y = true → B64.leb y x = true ↔ B64.eqb x y = true.
Proof.
  unfold B64.leb, B64.eqb, SFleb, SFeqb. intros Hxy.
  destruct (SFcompare x y) as [c|] eqn:Hc; [|done].
  apply SFcompare_antisym in Hc. rewrite Hc. by destruct c.
Qed.

Lemma determine_status_failed (x : B64.float) :
  determine_status x = failed ↔ B64.ltb x (B64.of_Z 90) = true.
Proof.
  unfold determine_status.
  destruct (B64.ltb x (B64.of_Z 90)); [done|].
  by destruct (B64.ltb x (B64.of_Z 100)).
Qed.

Lemma determine_status_warning (x : B64.float) :
  determine_status x = warning ↔
  B64.ltb x (B64.of_Z 90) = false ∧ B64.ltb x (B64.of_Z 100) = true.
Proof.
  unfold determine_status.
  destruct (B64.ltb x (B64.of_Z 90)), (B64.ltb x (B64.of_Z 100));
    intuition discriminate.
Qed.

Lemma determine_status_success (x : B64.float) :
  determine_status x = success ↔ B64.ltb x (B64.of_Z 100) = false ∧
                                  B64.ltb x (B64.of_Z 90) = false.
Proof.
  unfold determine_status.
  destruct (B64.ltb x (B64.of_Z 90)), (B64.ltb x (B64.of_Z 100));
    intuition discriminate.
Qed.

(** C9. With an empty expected list, [validate_upload] reports 0 expected
    units, a coverage of 0.0 and the status ['failed'], never ['success'],
    whatever the configuration and the batch hold. *)
Theorem C9_empty_expected_is_failed (cfg : Perusahaan) (dataframe : DataFrame) :
  let r := validate_upload cfg dataframe [] in
  total_companies r = 0 ∧
  company_coverage_percent r = B64.zero ∧
  status r = failed ∧
  status r ≠ success.
Proof. by cbv zeta; unfold validate_upload; simpl. Qed.

(** C3 as stated fails: a batch that covers two configured units, one of
    them outside the expected list, has a coverage of 200.0, which is not
    100, and is accepted. *)
Lemma C3_counterexample :
  let r := validate_upload (Spec.config_of ["A"; "B"]) (Spec.batch ["A"; "B"]) ["A"] in
  company_coverage_percent r = B64.of_Z 200 ∧
  B64.eqb (company_coverage_percent r) (B64.of_Z 100) = false ∧
  status r = success.
Proof. by vm_compute. Qed.

(** C3 (amended). For every coverage percentage that is a number, the
    status is ['failed'] exactly when it is below 90, ['warning'] exactly when
    it is at least 90 and below 100, and ['success'] exactly when it is at
    least 100, which for a percentage of at most 100 is exactly when it is
    100; 9 of 10 expected units give 90.0 and ['warning'], 10 of 10 give
    100.0 and ['success'], 8 of 10 give 80.0 and ['failed']. *)
Theorem C3_status_policy (x : B64.float) :
  B64.is_nan x = false →
  (determine_status x = failed ↔ B64.ltb x (B64.of_Z 90) = true) ∧
  (determine_status x = warning ↔
     B64.leb (B64.of_Z 90) x = true ∧ B64.ltb x (B64.of_Z 100) = true) ∧
  (determine_status x = success ↔ B64.leb (B64.of_Z 100) x = true) ∧
  (B64.leb x (B64.of_Z 100) = true →
   determine_status x = success ↔ B64.eqb x (B64.of_Z 100) = true) ∧
  (let r := validate_upload (Spec.config_of Spec.ten_units)
              (Spec.batch ["A"; "B"; "C"; "D"; "E"; "F"; "G"; "H"; "I"])
              Spec.ten_units in
   company_coverage_percent r = B64.of_Z 90 ∧ status r = warning) ∧
  (let r := validate_upload (Spec.config_of Spec.ten_units)
              (Spec.batch Spec.ten_units) Spec.ten_units in
   company_coverage_percent r = B64.of_Z 100 ∧ status r = success) ∧
  (let r := validate_upload (Spec.config_of Spec.ten_units)
              (Spec.batch ["A"; "B"; "C"; "D"; "E"; "F"; "G"; "H"])
              Spec.ten_units in
   company_coverage_percent r = B64.of_Z 80 ∧ status r = failed).
Proof.
  intros Hx.
  assert (H90 : B64.is_nan (B64.of_Z 90) = false) by by vm_compute.
  assert (H100 : B64.is_nan (B64.of_Z 100) = false) by by vm_compute.
  split; [apply determine_status_failed|].
  split.
  { rewrite determine_status_warning, (ltb_false_leb x (B64.of_Z 90)) by done.
    done. }
  assert (Hsuccess : determine_status x = success ↔ B64.leb (B64.of_Z 100) x = true).
  { rewrite determine_status_success, (ltb_false_leb x (B64.of_Z 100)) by done.
    split; [by intros [? _]|].
    intros H. split; [done|]. by apply leb_100_not_ltb_90. }
  split; [exact Hsuccess|].
  split; [intros Hle; by rewrite Hsuccess, <- (leb_both_eqb _ _ Hle)|].
  by vm_compute.
Qed.

Lemma C3_status_policy_witness :
  B64.is_nan (B64.of_Z 95) = false ∧ determine_status (B64.of_Z 95) = warning.
Proof.
  split; [reflexivity|].
  destruct (C3_status_policy (B64.of_Z 95) eq_refl) as (_ & Hwarning & _).
  apply Hwarning. split; reflexivity.
Defined.




End coverage.

(** ** Column mapper *)

Section column_mapper.
Import ExcelReader ColumnDetector.

Implicit Types (type_headers : gmap Z TypeName) (t : TypeName).

Lemma seqZ_to_nat (m len : Z) : seqZ m len = seqZ m (Z.of_nat (Z.to_nat len)).
Proof. unfold seqZ. by rewrite Nat2Z.id. Qed.

(** The intersection loop after [n] columns. *)
Lemma get_columns_prefix type_headers (start_col : Z) (n : nat) t (c : Z) :
  fold_left
    (λ (cols : gmap TypeName Z) col,
       match type_headers !! col with
       | Some type_name => <[type_name := col]> cols
       | None => cols
       end)
    (seqZ start_col (Z.of_nat n)) ∅ !! t = Some c ↔
  Spec.last_in_range type_headers start_col (start_col + Z.of_nat n - 1) t c.
Proof.
  unfold Spec.last_in_range. revert c. induction n as [|n IH]; intros c.
  - rewrite seqZ_nil by lia. simpl. rewrite lookup_empty.
    split; [done|intros [? _]; lia].
  - rewrite seqZ_S, fold_left_app. simpl.
    destruct (type_headers !! (start_col + Z.of_nat n)) as [t'|] eqn:Hx.
    + destruct (decide (t' = t)) as [->|Hne].
      * rewrite lookup_insert_eq. split.
        -- intros [= <-]. split; [lia|]. split; [done|]. intros; lia.
        -- intros (Hr & Hc & Hmax). f_equal.
           pose proof (Hmax (start_col + Z.of_nat n) ltac:(lia) Hx). lia.
      * rewrite lookup_insert_ne by done. rewrite IH. split.
        -- intros (Hr & Hc & Hmax). split; [lia|]. split; [done|].
           intros c' Hr' Hc'.
           destruct (decide (c' = start_col + Z.of_nat n)) as [->|]; [congruence|].
           apply Hmax; [lia|done].
        -- intros (Hr & Hc & Hmax).
           destruct (decide (c = start_col + Z.of_nat n)) as [->|]; [congruence|].
           split; [lia|]. split; [done|]. intros c' Hr' Hc'. apply Hmax; [lia|done].
    + rewrite IH. split.
      * intros (Hr & Hc & Hmax). split; [lia|]. split; [done|].
        intros c' Hr' Hc'.
        destruct (decide (c' = start_col + Z.of_nat n)) as [->|]; [congruence|].
        apply Hmax; [lia|done].
      * intros (Hr & Hc & Hmax).
        destruct (decide (c = start_col + Z.of_nat n)) as [->|]; [congruence|].
        split; [lia|]. split; [done|]. intros c' Hr' Hc'. apply Hmax; [lia|done].
Qed.

Lemma get_columns_prefix_None type_headers (start_col : Z) (n : nat) t :
  fold_left
    (λ (cols : gmap TypeName Z) col,
       match type_headers !! col with
       | Some type_name => <[type_name := col]> cols
       | None => cols
       end)
    (seqZ start_col (Z.of_nat n)) ∅ !! t = None ↔
  ∀ c, start_col ≤ c < start_col + Z.of_nat n → type_headers !! c ≠ Some t.
Proof.
  induction n as [|n IH].
  - rewrite seqZ_nil by lia. simpl. rewrite lookup_empty. split; [intros; lia|done].
  - rewrite seqZ_S, fold_left_app. simpl.
    destruct (type_headers !! (start_col + Z.of_nat n)) as [t'|] eqn:Hx.
    + destruct (decide (t' = t)) as [->|Hne].
      * rewrite lookup_insert_eq. split; [done|].
        intros H. destruct (H (start_col + Z.of_nat n)); [lia|done].
      * rewrite lookup_insert_ne by done. rewrite IH. split.
        -- intros H c Hr.
           destruct (decide (c = start_col + Z.of_nat n)) as [->|]; [congruence|].
           apply H; lia.
        -- intros H c Hr. apply H; lia.
    + rewrite IH. split.
      * intros H c Hr.
        destruct (decide (c = start_col + Z.of_nat n)) as [->|]; [congruence|].
        apply H; lia.
      * intros H c Hr. apply H; lia.
Qed.

(** C10. The intersection of a column range with the value-type map records,
    for each value type, the highest column of the range that carries it: an
    earlier column of the same type is overwritten.  No column is recorded
    for a type that the range does not carry. *)
Theorem C10_last_column_wins type_headers (start_col end_col : Z) t :
  (∀ c, _get_columns_in_range type_headers start_col end_col !! t = Some c ↔
        Spec.last_in_range type_headers start_col end_col t c) ∧
  (_get_columns_in_range type_headers start_col end_col !! t = None ↔
   ∀ c, start_col ≤ c ≤ end_col → type_headers !! c ≠ Some t).
Proof.
  unfold _get_columns_in_range, Py.range. rewrite seqZ_to_nat. split.
  - intros c. rewrite get_columns_prefix. unfold Spec.last_in_range.
    destruct (decide (start_col ≤ end_col)).
    + by replace (start_col + Z.of_nat (Z.to_nat (end_col + 1 - start_col)) - 1)
        with end_col by lia.
    + replace (Z.to_nat (end_col + 1 - start_col)) with 0%nat by lia.
      split; intros (? & _); lia.
  - rewrite get_columns_prefix_None. split; intros H c Hr; apply H; lia.
Qed.

(** The first column of a range with a decidable property. *)
Lemma head_filter_seqZ (P : Z → Prop) `{∀ c, Decision (P c)} (a : Z) (n : nat) (c : Z) :
  head (filter P (seqZ a (Z.of_nat n))) = Some c ↔
  a ≤ c < a + Z.of_nat n ∧ P c ∧ ∀ c', a ≤ c' < c → ¬ P c'.
Proof.
  revert a. induction n as [|n IH]; intros a.
  - rewrite seqZ_nil by lia. simpl. split; [done|lia].
  - rewrite seqZ_cons by lia. rewrite filter_cons.
    replace (Z.pred (Z.of_nat (S n))) with (Z.of_nat n) by lia.
    destruct (decide (P a)) as [Ha|Ha]; simpl.
    + split.
      * intros [= <-]. split; [lia|]. split; [done|]. intros; lia.
      * intros (Hr & Hc & Hmin). f_equal.
        destruct (decide (a = c)); [done|]. destruct (Hmin a); [lia|done].
    + rewrite IH. split.
      * intros (Hr & Hc & Hmin). split; [lia|]. split; [done|].
        intros c' Hr'. destruct (decide (c' = a)) as [->|]; [done|].
        apply Hmin. lia.
      * intros (Hr & Hc & Hmin).
        destruct (decide (c = a)) as [->|]; [done|].
        split; [lia|]. split; [done|]. intros c' Hr'. apply Hmin. lia.
Qed.

Lemma head_filter_seqZ_None (P : Z → Prop) `{∀ c, Decision (P c)} (a : Z) (n : nat) :
  head (filter P (seqZ a (Z.of_nat n))) = None ↔
  ∀ c, a ≤ c < a + Z.of_nat n → ¬ P c.
Proof.
  rewrite head_None. split.
  - intros Hnil c Hr Hc.
    assert (Hin : c ∈ filter P (seqZ a (Z.of_nat n))).
    { apply list_elem_of_filter. split; [done|]. apply elem_of_seqZ. lia. }
    rewrite Hnil in Hin. by apply not_elem_of_nil in Hin.
  - intros Hno. destruct (filter P (seqZ a (Z.of_nat n))) as [|c l] eqn:Hf; [done|].
    assert (Hin : c ∈ filter P (seqZ a (Z.of_nat n))) by (rewrite Hf; left).
    apply list_elem_of_filter in Hin as [Hc Hin]. apply elem_of_seqZ in Hin.
    destruct (Hno c); [lia|done].
Qed.

(** The fallback loop keeps a column already found and otherwise takes the
    first column of its type; leaving the loop early changes nothing. *)
Lemma scan_next_spec type_headers (cols : list Z) (next_real next_rkap : option Z) :
  scan_next type_headers cols next_real next_rkap =
  (match next_real with
   | Some _ => next_real
   | None => head (filter (λ c, type_headers !! c = Some REAL) cols)
   end,
   match next_rkap with
   | Some _ => next_rkap
   | None => head (filter (λ c, type_headers !! c = Some RKAP) cols)
   end).
Proof.
  revert next_real next_rkap. induction cols as [|col rest IH]; intros nr nk.
  - simpl. by destruct nr, nk.
  - simpl. rewrite !filter_cons.
    destruct (type_headers !! col) as [[]|] eqn:Hcol, nr as [r|], nk as [k|];
      repeat case_bool_decide; repeat case_decide;
      try (exfalso; intuition congruence);
      cbn [Py.truthy]; rewrite ?andb_false_r; cbn [andb]; rewrite ?IH;
      repeat match goal with |- context [if ?b then _ else _] => destruct b end;
      done.
Qed.

Lemma max_key_bound type_headers (last : Z) :
  max_key type_headers = Ok last →
  ∀ c t, type_headers !! c = Some t → c ≤ last.
Proof.
  unfold max_key. intros Hmax c t Hc.
  apply elem_of_map_to_list in Hc.
  apply (list_elem_of_fmap_2 fst) in Hc. simpl in Hc.
  destruct ((map_to_list type_headers).*1) as [|k ks]; [done|].
  injection Hmax as <-. clear -Hc.
  induction ks as [|k' ks IH]; simpl.
  - apply list_elem_of_singleton in Hc. lia.
  - apply elem_of_cons in Hc as [->|Hc].
    + assert (k ≤ foldr Z.max k ks) by (apply IH; left). lia.
    + apply elem_of_cons in Hc as [->|Hc]; [lia|].
      assert (c ≤ foldr Z.max k ks) by (apply IH; by right). lia.
Qed.

Lemma max_key_nonempty type_headers :
  type_headers ≠ ∅ → ∃ last, max_key type_headers = Ok last.
Proof.
  intros Hne. unfold max_key.
  destruct (map_to_list type_headers) as [|[k t] l] eqn:Hl.
  - by apply map_to_list_empty_iff in Hl.
  - simpl. eauto.
Qed.

Lemma first_after_in_scan type_headers (after last : Z) t (c : Z) :
  (∀ c' t', type_headers !! c' = Some t' → c' ≤ last) →
  head (filter (λ c, type_headers !! c = Some t) (Py.range (after + 1) (last + 1)))
    = Some c ↔
  Spec.first_after type_headers after t c.
Proof.
  intros Hlast. unfold Py.range, Spec.first_after.
  rewrite seqZ_to_nat, head_filter_seqZ. split.
  - intros (Hr & Hc & Hmin). split; [lia|]. split; [done|].
    intros c' Hr'. apply Hmin. lia.
  - intros (Hr & Hc & Hmin). pose proof (Hlast _ _ Hc).
    split; [lia|]. split; [done|]. intros c' Hr'. apply Hmin. lia.
Qed.

Lemma none_after_in_scan type_headers (after last : Z) t :
  (∀ c' t', type_headers !! c' = Some t' → c' ≤ last) →
  head (filter (λ c, type_headers !! c = Some t) (Py.range (after + 1) (last + 1)))
    = None ↔
  ∀ c, after < c → type_headers !! c ≠ Some t.
Proof.
  intros Hlast. unfold Py.range.
  rewrite seqZ_to_nat, head_filter_seqZ_None. split.
  - intros Hno c Hr Hc. pose proof (Hlast _ _ Hc). apply (Hno c); [lia|done].
  - intros Hno c Hr. apply Hno. lia.
Qed.

(** ** Period resolver *)

Lemma head_filter_Some {A} (P : A → Prop) `{∀ x, Decision (P x)} (l : list A) (h : A) :
  head (filter P l) = Some h ↔
  ∃ l1 l2, l = (l1 ++ h :: l2)%list ∧ P h ∧ ∀ x, x ∈ l1 → ¬ P x.
Proof.
  induction l as [|x l IH]; simpl.
  - split; [done|]. intros (l1 & l2 & Hl & _). by destruct l1.
  - rewrite filter_cons. destruct (decide (P x)) as [Hx|Hx]; simpl.
    + split.
      * intros [= <-]. exists [], l. split; [done|]. split; [done|].
        intros y Hy. by apply not_elem_of_nil in Hy.
      * intros (l1 & l2 & Hl & Hh & Hno). destruct l1 as [|y l1].
        -- by injection Hl as -> _.
        -- injection Hl as <- _. destruct (Hno x); [left|done].
    + rewrite IH. split.
      * intros (l1 & l2 & -> & Hh & Hno). exists (x :: l1), l2.
        split; [done|]. split; [done|].
        intros y [->|Hy]%elem_of_cons; [done|by apply Hno].
      * intros (l1 & l2 & Hl & Hh & Hno). destruct l1 as [|y l1].
        -- injection Hl as -> _. done.
        -- injection Hl as <- ->. exists l1, l2. split; [done|]. split; [done|].
           intros z Hz. apply Hno. by right.
Qed.

(** The selection loop keeps a descriptor already chosen and otherwise takes
    the first descriptor of its kind that has the target year and month. *)
Lemma find_matching_spec (all_periods : list Period) (ty tm : Z)
    (matching_bulan matching_sd : option Period) :
  find_matching all_periods ty tm matching_bulan matching_sd =
  (match matching_bulan with
   | Some _ => matching_bulan
   | None => head (filter (Spec.month_match ty tm) all_periods)
   end,
   match matching_sd with
   | Some _ => matching_sd
   | None => head (filter (Spec.cumulative_match ty tm) all_periods)
   end).
Proof.
  revert matching_bulan matching_sd.
  induction all_periods as [|p l IH]; intros mb ms.
  - simpl. by destruct mb, ms.
  - simpl. rewrite !filter_cons.
    destruct (decide (Spec.month_match ty tm p)) as [Hb|Hb],
             (decide (Spec.cumulative_match ty tm p)) as [Hs|Hs];
      unfold Spec.month_match, Spec.cumulative_match in Hb, Hs;
      destruct (Z.eqb_spec (year p) ty) as [Hy|Hy],
               (Z.eqb_spec (month p) tm) as [Hm|Hm]; simpl;
      destruct mb as [b|], ms as [c|];
      repeat case_bool_decide; rewrite ?IH;
      destruct (type p) eqn:Ht;
      try (exfalso; intuition congruence); done.
Qed.

(** C6. When no Cumulative-kind descriptor has the target year and month,
    none is selected, and the column mapper returns a mapping whenever the
    value-type map classifies some column: the scan runs from the column
    after the Month descriptor's end column to the highest classified
    column; the column recorded as cumulative Actual is the first
    Actual-classified column after the end column, the column recorded as
    cumulative Budget is the first Budget-classified one, columns without
    a classification are passed over, and a cumulative column is left
    unresolved exactly when no later column has its type. *)
Theorem C6_fallback_scan (all_periods : list Period) (ty tm : Z) type_headers
    (bulan_header : Period) (sd_header : option Period) :
  type_headers ≠ ∅ →
  (∀ p, p ∈ all_periods → ¬ Spec.cumulative_match ty tm p) →
  find_matching all_periods ty tm None None = (Some bulan_header, sd_header) →
  sd_header = None ∧
  ∃ last columns,
    max_key type_headers = Ok last ∧
    (∀ c t, type_headers !! c = Some t → c ≤ last) ∧
    _map_columns type_headers bulan_header sd_header = Ok columns ∧
    (REAL_SD columns, RKAP_SD columns) =
      scan_next type_headers (Py.range (end_col bulan_header + 1) (last + 1))
        None None ∧
    (∀ c, REAL_SD columns = Some c ↔
          Spec.first_after type_headers (end_col bulan_header) REAL c) ∧
    (∀ c, RKAP_SD columns = Some c ↔
          Spec.first_after type_headers (end_col bulan_header) RKAP c) ∧
    (REAL_SD columns = None ↔
       ∀ c, end_col bulan_header < c → type_headers !! c ≠ Some REAL) ∧
    (RKAP_SD columns = None ↔
       ∀ c, end_col bulan_header < c → type_headers !! c ≠ Some RKAP).
Proof.
  intros Hne Hnosd Hfind.
  assert (Hsd : sd_header = None).
  { rewrite find_matching_spec in Hfind. injection Hfind as _ <-.
    apply head_None.
    destruct (filter _ all_periods) as [|p l] eqn:Hf; [done|].
    assert (Hin : p ∈ filter (Spec.cumulative_match ty tm) all_periods)
      by (rewrite Hf; left).
    apply list_elem_of_filter in Hin as [Hp Hin]. by destruct (Hnosd p). }
  split; [exact Hsd|]. subst sd_header.
  destruct (max_key_nonempty _ Hne) as [last Hmax].
  pose proof (max_key_bound _ _ Hmax) as Hlast.
  unfold _map_columns. rewrite Hmax. simpl.
  rewrite scan_next_spec. eexists last, _. simpl.
  split; [done|]. split; [done|]. split; [reflexivity|].
  split; [by rewrite scan_next_spec|]. simpl.
  split; [intros c; by apply first_after_in_scan|].
  split; [intros c; by apply first_after_in_scan|].
  split; by apply none_after_in_scan.
Qed.

Lemma C6_fallback_scan_witness :
  Spec.scenario_types ≠ ∅ ∧
  (∀ p, p ∈ [Spec.scenario_month] → ¬ Spec.cumulative_match 2024 12 p) ∧
  find_matching [Spec.scenario_month] 2024 12 None None
    = (Some Spec.scenario_month, None) ∧
  ∃ columns,
    _map_columns Spec.scenario_types Spec.scenario_month None = Ok columns ∧
    Spec.first_after Spec.scenario_types 6 REAL 9 ∧
    REAL_SD columns = Some 9.
Proof.
  assert (Hne : Spec.scenario_types ≠ ∅).
  { intros H. apply (f_equal (lookup 5)) in H. vm_compute in H. discriminate H. }
  assert (Hnosd : ∀ p, p ∈ [Spec.scenario_month] → ¬ Spec.cumulative_match 2024 12 p).
  { intros p ->%list_elem_of_singleton (Ht & _). discriminate Ht. }
  assert (Hfind : find_matching [Spec.scenario_month] 2024 12 None None
                  = (Some Spec.scenario_month, None)) by reflexivity.
  split; [exact Hne|]. split; [exact Hnosd|]. split; [exact Hfind|].
  destruct (C6_fallback_scan _ _ _ _ _ _ Hne Hnosd Hfind)
    as (_ & last & columns & _ & _ & Hmap & _ & Hreal & _).
  exists columns. split; [exact Hmap|].
  assert (Hfirst : REAL_SD columns = Some 9).
  { revert Hmap. vm_compute. by intros [= <-]. }
  split; [|exact Hfirst]. by apply Hreal.
Defined.

(** [sort_by_key] yields an ascending arrangement of its argument. *)
Lemma insert_by_key_perm {A} (key : A → Z) (x : A) (l : list A) :
  Py.insert_by_key key x l ≡ₚ x :: l.
Proof.
  induction l as [|y l IH]; simpl; [done|].
  destruct (key x <=? key y); [done|]. rewrite IH. apply Permutation_swap.
Qed.

Lemma sort_by_key_perm {A} (key : A → Z) (l : list A) :
  Py.sort_by_key key l ≡ₚ l.
Proof.
  induction l as [|x l IH]; simpl; [done|].
  unfold Py.sort_by_key in *. simpl. by rewrite insert_by_key_perm, IH.
Qed.

Lemma insert_by_key_sorted {A} (key : A → Z) (x : A) (l : list A) :
  StronglySorted (λ a b, key a ≤ key b) l →
  StronglySorted (λ a b, key a ≤ key b) (Py.insert_by_key key x l).
Proof.
  induction 1 as [|y l Hl IH Hy]; simpl.
  - repeat constructor.
  - destruct (Z.leb_spec (key x) (key y)) as [Hxy|Hxy].
    + constructor; [by constructor|].
      constructor; [done|]. eapply Forall_impl; [exact Hy|]. simpl. intros; lia.
    + constructor; [done|].
      rewrite insert_by_key_perm. constructor; [lia|done].
Qed.

Lemma sort_by_key_sorted {A} (key : A → Z) (l : list A) :
  StronglySorted (λ a b, key a ≤ key b) (Py.sort_by_key key l).
Proof.
  induction l as [|x l IH]; [constructor|].
  by apply insert_by_key_sorted.
Qed.


(** C5 as stated fails: on a worksheet whose only period header is a
    Cumulative-kind one, a request for another period fails with an error
    whose list of available periods is empty. *)
Lemma C5_counterexample :
  detect_columns Spec.repr_unused Spec.worksheet_cumulative_only "2024-11"
  = Raise (Exception ValueError (PeriodNotFound 2024 11 [])).
Proof. by vm_compute. Qed.

(** C5 (amended). On period descriptors in start-column order: if no
    Month-kind descriptor has the target year and month, resolution fails
    with the period-not-found error, which carries the (year, month) pairs
    of all Month-kind descriptors and nothing else, the target not among
    them, and lists at least one period exactly when the worksheet has a
    Month-kind descriptor; no column mapping is returned.  If a Month-kind
    descriptor has the target year and month, the first such descriptor, the
    one with the least start column, is selected and the column mapping is
    computed from it. *)
Theorem C5_period_resolution (all_periods : list Period) type_headers (ty tm : Z) :
  StronglySorted (λ p q, start_col p ≤ start_col q) all_periods →
  ((∀ p, p ∈ all_periods → ¬ Spec.month_match ty tm p) →
   ∃ available,
     resolve all_periods type_headers ty tm
       = Raise (Exception ValueError (PeriodNotFound ty tm available)) ∧
     (∀ y m, (y, m) ∈ available ↔
             ∃ p, p ∈ all_periods ∧ type p = bulan ∧ year p = y ∧ month p = m) ∧
     (available ≠ [] ↔ ∃ p, p ∈ all_periods ∧ type p = bulan) ∧
     (ty, tm) ∉ available) ∧
  (∀ p, p ∈ all_periods → Spec.month_match ty tm p →
   ∃ h sd_header l1 l2,
     find_matching all_periods ty tm None None = (Some h, sd_header) ∧
     all_periods = (l1 ++ h :: l2)%list ∧
     Spec.month_match ty tm h ∧
     (∀ q, q ∈ l1 → ¬ Spec.month_match ty tm q) ∧
     (∀ q, q ∈ all_periods → Spec.month_match ty tm q → start_col h ≤ start_col q) ∧
     resolve all_periods type_headers ty tm
       = (columns ← _map_columns type_headers h sd_header;
          _ ← _validate_columns columns;
          Ok columns)).
Proof.
  intros Hsorted. split.
  - intros Hno.
    assert (Hhead : head (filter (Spec.month_match ty tm) all_periods) = None).
    { apply head_None. destruct (filter _ all_periods) as [|p l] eqn:Hf; [done|].
      assert (Hin : p ∈ filter (Spec.month_match ty tm) all_periods)
        by (rewrite Hf; left).
      apply list_elem_of_filter in Hin as [Hp Hin]. by destruct (Hno p). }
    eexists. unfold resolve. rewrite find_matching_spec, Hhead.
    split; [reflexivity|].
    assert (Hav : ∀ y m,
      (y, m) ∈ omap (λ p, if decide (type p = bulan)
                          then Some (year p, month p) else None) all_periods ↔
      ∃ p, p ∈ all_periods ∧ type p = bulan ∧ year p = y ∧ month p = m).
    { intros y m. rewrite list_elem_of_omap. split.
      - intros (p & Hin & Hp). exists p. split; [done|].
        destruct (decide (type p = bulan)); [|done]. by injection Hp as <- <-.
      - intros (p & Hin & Ht & <- & <-). exists p. split; [done|].
        by destruct (decide (type p = bulan)). }
    split; [exact Hav|]. split.
    + split.
      * intros Hne.
        destruct (omap _ all_periods) as [|[y m] l] eqn:Ho; [done|].
        destruct (proj1 (Hav y m)) as (p & Hin & Ht & _); [left|]. eauto.
      * intros (p & Hin & Ht) Hnil.
        assert (Hp : (year p, month p) ∈ omap (λ p, if decide (type p = bulan)
                       then Some (year p, month p) else None) all_periods).
        { apply Hav. eauto. }
        rewrite Hnil in Hp. by apply not_elem_of_nil in Hp.
    + intros Hin. apply Hav in Hin as (p & Hin & Ht & Hy & Hm).
      by destruct (Hno p).
  - intros p Hin Hp.
    destruct (head (filter (Spec.month_match ty tm) all_periods)) as [h|] eqn:Hhead.
    + pose proof Hhead as Hh.
      apply head_filter_Some in Hh as (l1 & l2 & Hl & Hmatch & Hfirst).
      exists h, (head (filter (Spec.cumulative_match ty tm) all_periods)), l1, l2.
      split; [by rewrite find_matching_spec, Hhead|].
      split; [done|]. split; [done|]. split; [done|]. split.
      * intros q Hq Hqm. subst all_periods.
        apply elem_of_app in Hq as [Hq|Hq]; [by destruct (Hfirst q)|].
        apply elem_of_cons in Hq as [->|Hq]; [lia|].
        apply StronglySorted_app_1_r in Hsorted.
        apply StronglySorted_inv in Hsorted as [_ Hall].
        rewrite Forall_forall in Hall. by apply Hall.
      * unfold resolve. by rewrite find_matching_spec, Hhead.
    + apply head_None in Hhead.
      assert (Hpin : p ∈ filter (Spec.month_match ty tm) all_periods)
        by by apply list_elem_of_filter.
      rewrite Hhead in Hpin. by apply not_elem_of_nil in Hpin.
Qed.

Lemma C5_period_resolution_witness :
  StronglySorted (λ p q, start_col p ≤ start_col q) [Spec.scenario_month] ∧
  ∃ available,
    resolve [Spec.scenario_month] Spec.scenario_types 2024 11
      = Raise (Exception ValueError (PeriodNotFound 2024 11 available)) ∧
    available ≠ [].
Proof.
  assert (Hs : StronglySorted (λ p q, start_col p ≤ start_col q) [Spec.scenario_month])
    by repeat constructor.
  split; [exact Hs|].
  destruct (C5_period_resolution [Spec.scenario_month] Spec.scenario_types 2024 11 Hs)
    as [Hfail _].
  destruct Hfail as (available & Hr & _ & Hne & _).
  { intros p ->%list_elem_of_singleton (_ & _ & Hm). discriminate Hm. }
  exists available. split; [exact Hr|].
  apply Hne. exists Spec.scenario_month. split; [left|reflexivity].
Defined.

(** ** Validation of the mapping *)

Lemma missing_columns_spec (columns : Columns) (k : string) :
  k ∈ missing_columns columns ↔ Spec.unresolved columns k.
Proof.
  unfold Spec.unresolved.
  destruct columns as [[a|] [b|] [c|] [d|]]; cbn;
    rewrite ?elem_of_cons, ?elem_of_nil; intuition congruence.
Qed.

Lemma missing_columns_nil (columns : Columns) :
  missing_columns columns = [] ↔
  ∃ a b c d, columns = {| REAL_BULAN_INI := Some a; RKAP_BULAN_INI := Some b;
                          REAL_SD := Some c; RKAP_SD := Some d |}.
Proof.
  destruct columns as [[a|] [b|] [c|] [d|]]; cbn; split;
    try done; try (intros (? & ? & ? & ? & ?); done).
  intros _. by exists a, b, c, d.
Qed.

(** C7. Once a Month descriptor is selected and the primary and fallback
    passes have produced a mapping, resolution succeeds with that mapping,
    all four columns present, when no logical column is unresolved;
    otherwise it fails with the error that names exactly the unresolved
    ones among REAL_BULAN_INI, RKAP_BULAN_INI, REAL_SD and RKAP_SD. *)
Theorem C7_unresolved_columns_named (all_periods : list Period) type_headers
    (ty tm : Z) (bulan_header : Period) (sd_header : option Period)
    (columns : Columns) :
  find_matching all_periods ty tm None None = (Some bulan_header, sd_header) →
  _map_columns type_headers bulan_header sd_header = Ok columns →
  (∀ k, k ∈ missing_columns columns ↔ Spec.unresolved columns k) ∧
  NoDup (missing_columns columns) ∧
  ((∀ k, ¬ Spec.unresolved columns k) →
   resolve all_periods type_headers ty tm = Ok columns ∧
   ∃ a b c d, columns = {| REAL_BULAN_INI := Some a; RKAP_BULAN_INI := Some b;
                           REAL_SD := Some c; RKAP_SD := Some d |}) ∧
  ((∃ k, Spec.unresolved columns k) →
   resolve all_periods type_headers ty tm
     = Raise (Exception ValueError (ColumnsNotDetected (missing_columns columns)))).
Proof.
  intros Hfind Hmap.
  split; [apply missing_columns_spec|].
  split.
  { destruct columns as [[a|] [b|] [c|] [d|]]; cbn;
      repeat (apply NoDup_cons; split;
              [rewrite ?elem_of_cons, ?elem_of_nil; intuition congruence|]);
      apply NoDup_nil_2. }
  unfold resolve. rewrite Hfind, Hmap. simpl. unfold _validate_columns. split.
  - intros Hnone.
    assert (Hnil : missing_columns columns = []).
    { destruct (missing_columns columns) as [|k l] eqn:Hm; [done|].
      destruct (Hnone k). apply missing_columns_spec. rewrite Hm. left. }
    rewrite Hnil. simpl. split; [done|]. by apply missing_columns_nil.
  - intros [k Hk]. apply missing_columns_spec in Hk.
    destruct (missing_columns columns) as [|k' l]; [|done].
    by apply not_elem_of_nil in Hk.
Qed.

Lemma C7_unresolved_columns_named_witness :
  let columns := {| REAL_BULAN_INI := Some 5; RKAP_BULAN_INI := Some 6;
                    REAL_SD := None; RKAP_SD := None |} in
  let type_headers : gmap Z TypeName := list_to_map [(5, REAL); (6, RKAP)] in
  find_matching [Spec.scenario_month] 2024 12 None None
    = (Some Spec.scenario_month, None) ∧
  _map_columns type_headers Spec.scenario_month None = Ok columns ∧
  resolve [Spec.scenario_month] type_headers 2024 12
    = Raise (Exception ValueError (ColumnsNotDetected ["REAL_SD"; "RKAP_SD"])).
Proof.
  intros columns type_headers.
  assert (Hfind : find_matching [Spec.scenario_month] 2024 12 None None
                  = (Some Spec.scenario_month, None)) by reflexivity.
  assert (Hmap : _map_columns type_headers Spec.scenario_month None = Ok columns)
    by (vm_compute; reflexivity).
  split; [exact Hfind|]. split; [exact Hmap|].
  destruct (C7_unresolved_columns_named _ _ _ _ _ _ _ Hfind Hmap)
    as (_ & _ & _ & Hfail).
  apply Hfail. exists "REAL_SD". unfold Spec.unresolved. simpl. tauto.
Defined.

(** ** The end-to-end scenario *)

(** C2 as stated fails: the header text "December 2024" holds none of the
    month abbreviations of [MONTH_MAP] and the labels "ACTUAL" and "BUDGET"
    hold neither "REAL" nor "RKAP", so no period header is found and column
    detection fails. *)
Lemma C2_counterexample :
  _extract_month "December 2024" = None ∧
  detect_columns Spec.repr_unused Spec.worksheet_english "2024-12"
  = Raise (Exception ValueError (HeaderParseFailed (NoPeriodHeaders 7))) ∧
  detect_columns Spec.repr_unused (Spec.worksheet "Desember 2024" "ACTUAL" "BUDGET")
                 "2024-12"
  = Raise (Exception ValueError (HeaderParseFailed (NoTypeHeaders 8))).
Proof. by vm_compute. Qed.

(** C2 (amended). For the worksheet of the scenario written in the
    vocabulary of the code, the merged header "Desember 2024" over columns
    5-6, "REAL" at columns 5 and 9, "RKAP" at columns 6 and 10, columns 7-8
    unclassified and no cumulative header, the target period 2024-12 yields
    REAL_BULAN_INI = 5, RKAP_BULAN_INI = 6, REAL_SD = 9 and RKAP_SD = 10. *)
Theorem C2_end_to_end (float_repr : B64.float → string) :
  parse_headers float_repr Spec.worksheet_indonesian
    = Ok ([Spec.scenario_month], Spec.scenario_types) ∧
  detect_columns float_repr Spec.worksheet_indonesian "2024-12"
    = Ok {| REAL_BULAN_INI := Some 5; RKAP_BULAN_INI := Some 6;
            REAL_SD := Some 9; RKAP_SD := Some 10 |}.
Proof. by vm_compute. Qed.

End column_mapper.

(** ** Cell coercion *)

Section cell_coercion.
Import ExcelReader.

(** C4. The claim is what the coercion is meant to do, and the code misses
    it on two kinds of cell.  A text cell that spells a special value of
    [float] ("nan", "inf", "1e999") is not a decimal, yet [float(value)]
    accepts it: [get_cell_value] returns NaN or an infinity, no number, and
    records no warning.  An integer cell beyond the binary64 range makes
    [float(value)] raise [OverflowError], a class that the [except] clause
    does not name: the exception leaves the call.  The sibling failures of
    [float(value)], the [ValueError] of "abc" and the [TypeError] of a cell
    holding another kind of object, are caught and give 0 with a warning,
    and the examples of the claim come out as it says. *)
Theorem C4_failing_inputs :
  (get_cell_value (Spec.one_cell (VStr "nan")) 10 5 = Ok (S754_nan, []) ∧
   get_cell_value (Spec.one_cell (VStr "inf")) 10 5 = Ok (S754_infinity false, []) ∧
   get_cell_value (Spec.one_cell (VStr "1e999")) 10 5
     = Ok (S754_infinity false, []) ∧
   get_cell_value (Spec.one_cell (VInt (2 ^ 1024))) 10 5
     = Raise (Exception OverflowError (Builtin "int too large to convert to float"))) ∧
  (get_cell_value (Spec.one_cell (VStr "abc")) 10 5
     = Ok (B64.zero,
           [CouldNotConvert 10 5
              (Exception ValueError (Builtin "could not convert string to float"))]) ∧
   get_cell_value (Spec.one_cell (VOther "2024-12-01 00:00:00")) 10 5
     = Ok (B64.zero,
           [CouldNotConvert 10 5
              (Exception TypeError
                 (Builtin "float() argument must be a string or a real number"))])) ∧
  (get_cell_value (Spec.one_cell VNone) 10 5 = Ok (B64.zero, []) ∧
   get_cell_value (Spec.one_cell (VStr "")) 10 5 = Ok (B64.zero, []) ∧
   get_cell_value (Spec.one_cell (VStr "-")) 10 5 = Ok (B64.zero, []) ∧
   get_cell_value (Spec.one_cell (VStr "1,234.50")) 10 5
     = Ok (S754_finite false 5429388417957888 (-42), []) ∧
   2 * 5429388417957888 = 2469 * 2 ^ 42).
Proof. by vm_compute. Qed.

End cell_coercion.

(** ** Header parser *)

Section header_parser.
Import ExcelReader.

Lemma append_cons (c : ascii) (s t : string) : String c s +:+ t = String c (s +:+ t).
Proof. reflexivity. Qed.

Lemma append_nil (t : string) : "" +:+ t = t.
Proof. reflexivity. Qed.

Lemma prefix_spec (sub s : string) :
  String.prefix sub s = true ↔ ∃ post, s = sub +:+ post.
Proof.
  revert s. induction sub as [|a sub IH]; intros s.
  - destruct s; simpl; split; eauto.
  - destruct s as [|b s]; simpl.
    + split; [done|]. by intros [post Hp].
    + destruct (ascii_dec a b) as [->|Hne].
      * rewrite IH. split.
        -- intros [post ->]. by exists post.
        -- intros [post Hp]. rewrite append_cons in Hp. injection Hp as ->. eauto.
      * split; [done|]. intros [post Hp]. rewrite append_cons in Hp. congruence.
Qed.

Lemma occurs_at_nonneg (sub s : string) (p : Z) : Spec.occurs_at sub s p → 0 ≤ p.
Proof. intros (pre & post & _ & <-). lia. Qed.

Lemma occurs_at_0 (sub s : string) :
  Spec.occurs_at sub s 0 ↔ String.prefix sub s = true.
Proof.
  rewrite prefix_spec. unfold Spec.occurs_at. split.
  - intros (pre & post & -> & Hlen). destruct pre; [|done]. eauto.
  - intros [post ->]. by exists "", post.
Qed.

Lemma occurs_at_cons (sub : string) (c : ascii) (s : string) (p : Z) :
  Spec.occurs_at sub (String c s) p ↔
  (p = 0 ∧ String.prefix sub (String c s) = true) ∨
  (0 < p ∧ Spec.occurs_at sub s (p - 1)).
Proof.
  split.
  - intros Hocc. destruct (decide (p = 0)) as [->|Hp].
    + left. split; [done|]. by apply occurs_at_0.
    + right. destruct Hocc as (pre & post & Hs & <-).
      destruct pre as [|c' pre]; [done|].
      rewrite append_cons in Hs. injection Hs as <- ->.
      split; [simpl; lia|]. exists pre, post. split; [done|]. simpl. lia.
  - intros [[-> Hpre]|[Hp (pre & post & -> & Hlen)]].
    + by apply occurs_at_0.
    + exists (String c pre), post. split; [done|]. simpl. lia.
Qed.

Lemma occurs_at_empty (sub : string) (p : Z) :
  Spec.occurs_at sub "" p ↔ p = 0 ∧ String.prefix sub "" = true.
Proof.
  split.
  - intros (pre & post & Hs & <-). destruct pre; [|done].
    split; [done|]. apply prefix_spec. eauto.
  - intros [-> H]. by apply occurs_at_0.
Qed.

(** [sub in s] holds when [sub] occurs somewhere in [s]. *)
Lemma contains_spec (sub s : string) :
  Py.contains sub s = true ↔ ∃ p, Spec.occurs_at sub s p.
Proof.
  induction s as [|c s IH]; cbn [Py.contains].
  - rewrite orb_false_r. split.
    + intros H. exists 0. by apply occurs_at_0.
    + intros [p Hp]. by apply occurs_at_empty in Hp as [_ Hp].
  - rewrite orb_true_iff, IH. split.
    + intros [H|[p Hp]].
      * exists 0. by apply occurs_at_0.
      * exists (p + 1). apply occurs_at_cons. right.
        pose proof (occurs_at_nonneg _ _ _ Hp).
        split; [lia|]. by replace (p + 1 - 1) with p by lia.
    + intros [p Hp]. apply occurs_at_cons in Hp as [[_ H]|[_ H]]; eauto.
Qed.

(** [s.find(sub)] is the lowest offset at which [sub] occurs. *)
Lemma find_from_spec (sub s : string) (i : Z) :
  Py.contains sub s = true →
  Spec.occurs_at sub s (Py.find_from sub s i - i) ∧
  ∀ q, Spec.occurs_at sub s q → Py.find_from sub s i - i ≤ q.
Proof.
  revert i. induction s as [|c s IH]; intros i; cbn [Py.find_from Py.contains].
  - rewrite orb_false_r. intros H. rewrite H.
    replace (i - i) with 0 by lia. split; [by apply occurs_at_0|].
    intros q Hq. by apply occurs_at_nonneg in Hq.
  - destruct (String.prefix sub (String c s)) eqn:Hpre; cbn [orb].
    + intros _. replace (i - i) with 0 by lia. split; [by apply occurs_at_0|].
      intros q Hq. by apply occurs_at_nonneg in Hq.
    + intros Hc. destruct (IH (i + 1) Hc) as [Hocc Hmin].
      pose proof (occurs_at_nonneg _ _ _ Hocc).
      split.
      * apply occurs_at_cons. right. split; [lia|].
        by replace (Py.find_from sub s (i + 1) - i - 1)
          with (Py.find_from sub s (i + 1) - (i + 1)) by lia.
      * intros q Hq. apply occurs_at_cons in Hq as [[_ Hq]|[Hq0 Hq]]; [congruence|].
        apply Hmin in Hq. lia.
Qed.

Lemma find_spec (sub s : string) :
  Py.contains sub s = true →
  Spec.occurs_at sub s (Py.find sub s) ∧
  ∀ q, Spec.occurs_at sub s q → Py.find sub s ≤ q.
Proof.
  intros H. destruct (find_from_spec sub s 0 H) as [Hocc Hmin].
  unfold Py.find. rewrite Z.sub_0_r in Hocc. split; [done|].
  intros q Hq. apply Hmin in Hq. lia.
Qed.

(** Two strings that start at the same offset of a text are comparable. *)
Lemma prefix_comparable (k1 k2 s : string) :
  String.prefix k1 s = true → String.prefix k2 s = true →
  String.prefix k1 k2 = true ∨ String.prefix k2 k1 = true.
Proof.
  revert k1 k2. induction s as [|c s IH]; intros k1 k2.
  - destruct k1, k2; simpl; auto; done.
  - destruct k1 as [|a k1], k2 as [|b k2]; simpl; auto.
    destruct (ascii_dec a c) as [->|]; [|done].
    destruct (ascii_dec b c) as [->|]; [|done].
    destruct (ascii_dec c c); [|done]. apply IH.
Qed.

Lemma occurs_at_comparable (k1 k2 s : string) (p : Z) :
  Spec.occurs_at k1 s p → Spec.occurs_at k2 s p →
  String.prefix k1 k2 = true ∨ String.prefix k2 k1 = true.
Proof.
  revert p. induction s as [|c s IH]; intros p H1 H2.
  - apply occurs_at_empty in H1 as [_ H1]. apply occurs_at_empty in H2 as [_ H2].
    by eapply prefix_comparable.
  - apply occurs_at_cons in H1 as [[-> H1]|[Hp H1]];
      apply occurs_at_cons in H2 as [[? H2]|[? H2]]; try lia.
    + by eapply prefix_comparable.
    + by eapply IH.
Qed.

Lemma sort_by_key_head {A} (key : A → Z) (l : list A) (x : A) (rest : list A) :
  Py.sort_by_key key l = x :: rest →
  x ∈ l ∧ ∀ y, y ∈ l → key x ≤ key y.
Proof.
  intros Hs. pose proof (sort_by_key_perm key l) as Hp.
  pose proof (sort_by_key_sorted key l) as Hsorted.
  rewrite Hs in Hp, Hsorted. split.
  - rewrite <- Hp. left.
  - intros y Hy. rewrite <- Hp in Hy.
    apply StronglySorted_inv in Hsorted as [_ Hall].
    apply elem_of_cons in Hy as [->|Hy]; [lia|].
    rewrite Forall_forall in Hall. by apply Hall.
Qed.

(** No abbreviation of the vocabulary starts another one, and each names
    one month. *)
Lemma month_map_prefix_free (k1 k2 : string) (m1 m2 : Z) :
  (k1, m1) ∈ MONTH_MAP → (k2, m2) ∈ MONTH_MAP →
  String.prefix k1 k2 = true → m1 = m2.
Proof.
  unfold MONTH_MAP. intros H1 H2 Hpre.
  repeat match goal with
         | H : _ ∈ _ :: _ |- _ => apply elem_of_cons in H as [H|H]
         | H : _ ∈ [] |- _ => by apply not_elem_of_nil in H
         end;
    simplify_eq; try done; by vm_compute in Hpre.
Qed.

Lemma found_months_spec (text_lower : string) (n pos : Z) :
  (n, pos) ∈ omap (λ '(month_key, month_num),
                     if Py.contains month_key text_lower
                     then Some (month_num, Py.find month_key text_lower)
                     else None) MONTH_MAP ↔
  ∃ k, (k, n) ∈ MONTH_MAP ∧ Py.contains k text_lower = true ∧
       pos = Py.find k text_lower.
Proof.
  rewrite list_elem_of_omap. split.
  - intros ([k m] & Hin & Hf). destruct (Py.contains k text_lower) eqn:Hc; [|done].
    injection Hf as <- <-. eauto.
  - intros (k & Hin & Hc & ->). exists (k, n). split; [done|]. by rewrite Hc.
Qed.

(** The month is that of the abbreviation at the lowest offset. *)
Lemma extract_month_spec (lower : string → string) (text : string) (m : Z) :
  Unicode._extract_month lower text = Some m ↔
  ∃ key p, (key, m) ∈ MONTH_MAP ∧
           Spec.occurs_at key (lower text) p ∧
           ∀ key' m' p', (key', m') ∈ MONTH_MAP →
                         Spec.occurs_at key' (lower text) p' → p ≤ p'.
Proof.
  unfold Unicode._extract_month.
  destruct (Py.sort_by_key snd _) as [|[n pos] rest] eqn:Hsort.
  - split; [done|]. intros (key & p & Hin & Hocc & _).
    assert (Hf : (m, Py.find key (lower text)) ∈
                 Py.sort_by_key snd
                   (omap (λ '(month_key, month_num),
                            if Py.contains month_key (lower text)
                            then Some (month_num, Py.find month_key (lower text))
                            else None) MONTH_MAP)).
    { rewrite sort_by_key_perm. apply found_months_spec. exists key.
      split; [done|]. split; [|done]. apply contains_spec. eauto. }
    rewrite Hsort in Hf. by apply not_elem_of_nil in Hf.
  - apply sort_by_key_head in Hsort as [Hin Hmin].
    apply found_months_spec in Hin as (k & Hk & Hc & ->).
    destruct (find_spec _ _ Hc) as [Hocc Hleast].
    assert (Hall : ∀ key' m' p', (key', m') ∈ MONTH_MAP →
              Spec.occurs_at key' (lower text) p' →
              Py.find k (lower text) ≤ p').
    { intros key' m' p' Hin' Hocc'.
      assert (Hc' : Py.contains key' (lower text) = true)
        by (apply contains_spec; eauto).
      destruct (find_spec _ _ Hc') as [_ Hleast'].
      etrans; [|by apply Hleast'].
      apply (Hmin (m', Py.find key' (lower text))).
      apply found_months_spec. eauto. }
    split.
    + intros [= <-]. eauto.
    + intros (key & p & Hin & Hoccp & Hminp). f_equal.
      assert (p = Py.find k (lower text)) as ->.
      { pose proof (Hminp _ _ _ Hk Hocc). pose proof (Hall _ _ _ Hin Hoccp). lia. }
      destruct (occurs_at_comparable _ _ _ _ Hocc Hoccp) as [Hpre|Hpre].
      * by eapply month_map_prefix_free.
      * symmetry. by eapply month_map_prefix_free.
Qed.

(** No month is extracted when no abbreviation occurs. *)
Lemma extract_month_None (lower : string → string) (text : string) :
  Unicode._extract_month lower text = None ↔
  ∀ key m p, (key, m) ∈ MONTH_MAP → ¬ Spec.occurs_at key (lower text) p.
Proof.
  split.
  - intros Hnone key m p Hin Hocc.
    unfold Unicode._extract_month in Hnone.
    destruct (Py.sort_by_key snd _) as [|[n pos] rest] eqn:Hsort; [|done].
    assert (Hf : (m, Py.find key (lower text)) ∈
                 Py.sort_by_key snd
                   (omap (λ '(month_key, month_num),
                            if Py.contains month_key (lower text)
                            then Some (month_num, Py.find month_key (lower text))
                            else None) MONTH_MAP)).
    { rewrite sort_by_key_perm. apply found_months_spec. exists key.
      split; [done|]. split; [|done]. apply contains_spec. eauto. }
    rewrite Hsort in Hf. by apply not_elem_of_nil in Hf.
  - intros Hno. destruct (Unicode._extract_month lower text) as [m|] eqn:Hm; [|done].
    apply extract_month_spec in Hm as (key & p & Hin & Hocc & _).
    by destruct (Hno key m p).
Qed.

Section year_pattern.

Variable decimal : string → option (Z * string).

Lemma match_year_spec (s : string) (y : Z) :
  Unicode.match_year decimal s = Some y ↔ Spec.year_at decimal s 0 y.
Proof.
  unfold Spec.year_at. split.
  - destruct s as [|c1 [|c2 rest]]; simpl; try done.
    destruct (Ascii.eqb_spec c1 "2") as [->|]; [|done].
    destruct (Ascii.eqb_spec c2 "0") as [->|]; [|done]. simpl.
    destruct (decimal rest) as [[d1 rest1]|] eqn:H1; [|done].
    destruct (decimal rest1) as [[d2 rest2]|] eqn:H2; [|done].
    intros [= <-]. by exists "", rest, d1, rest1, d2, rest2.
  - intros (pre & rest & d1 & rest1 & d2 & rest2 & -> & Hlen & H1 & H2 & ->).
    destruct pre; [|done]. rewrite append_nil, !append_cons, append_nil.
    simpl. by rewrite H1, H2.
Qed.

Lemma year_at_nonneg (s : string) (p y : Z) : Spec.year_at decimal s p y → 0 ≤ p.
Proof. intros (pre & rest & d1 & rest1 & d2 & rest2 & _ & <- & _). lia. Qed.

Lemma year_at_cons (c : ascii) (s : string) (p y : Z) :
  Spec.year_at decimal (String c s) p y ↔
  (p = 0 ∧ Unicode.match_year decimal (String c s) = Some y) ∨
  (0 < p ∧ Spec.year_at decimal s (p - 1) y).
Proof.
  rewrite match_year_spec. unfold Spec.year_at. split.
  - intros (pre & rest & d1 & rest1 & d2 & rest2 & Hs & <- & Hd).
    destruct pre as [|c' pre].
    + left. split; [done|]. by exists "", rest, d1, rest1, d2, rest2.
    + right. rewrite append_cons in Hs. injection Hs as <- ->.
      split; [simpl; lia|]. exists pre, rest, d1, rest1, d2, rest2.
      split; [done|]. split; [simpl; lia|done].
  - intros [[-> H]|[Hp (pre & rest & d1 & rest1 & d2 & rest2 & -> & Hlen & Hd)]];
      [done|].
    exists (String c pre), rest, d1, rest1, d2, rest2.
    split; [done|]. split; [simpl; lia|done].
Qed.

(** The year is read at the leftmost match of the pattern. *)
Lemma extract_year_spec (text : string) (y : Z) :
  Unicode._extract_year decimal text = Some y ↔
  ∃ p, Spec.year_at decimal text p y ∧
       ∀ p' y', Spec.year_at decimal text p' y' → p ≤ p'.
Proof.
  induction text as [|c s IH].
  - simpl. split; [done|].
    intros (p & (pre & rest & d1 & rest1 & d2 & rest2 & Hs & _) & _).
    by destruct pre.
  - cbn [Unicode._extract_year].
    destruct (Unicode.match_year decimal (String c s)) as [y0|] eqn:Hm.
    + split.
      * intros [= <-]. exists 0. split; [by apply match_year_spec|].
        intros p' y' Hy'. by apply year_at_nonneg in Hy'.
      * intros (p & Hy & Hmin). apply match_year_spec in Hm.
        pose proof (Hmin _ _ Hm). pose proof (year_at_nonneg _ _ _ Hy).
        assert (p = 0) as -> by lia.
        apply match_year_spec in Hy, Hm. congruence.
    + rewrite IH. split.
      * intros (p & Hy & Hmin). pose proof (year_at_nonneg _ _ _ Hy).
        exists (p + 1). split.
        -- apply year_at_cons. right. split; [lia|].
           by replace (p + 1 - 1) with p by lia.
        -- intros p' y' Hy'. apply year_at_cons in Hy' as [[_ Hy']|[Hp' Hy']];
             [congruence|]. apply Hmin in Hy'. lia.
      * intros (p & Hy & Hmin). apply year_at_cons in Hy as [[_ Hy]|[Hp Hy]];
          [congruence|].
        exists (p - 1). split; [done|]. intros p' y' Hy'.
        pose proof (year_at_nonneg _ _ _ Hy').
        assert (p ≤ p' + 1); [|lia]. apply (Hmin _ y').
        apply year_at_cons. right. split; [lia|].
        by replace (p' + 1 - 1) with p' by lia.
Qed.

Lemma extract_year_None (text : string) :
  Unicode._extract_year decimal text = None ↔
  ∀ p y, ¬ Spec.year_at decimal text p y.
Proof.
  induction text as [|c s IH].
  - simpl. split; [|done].
    intros _ p y (pre & rest & d1 & rest1 & d2 & rest2 & Hs & _).
    by destruct pre.
  - cbn [Unicode._extract_year].
    destruct (Unicode.match_year decimal (String c s)) as [y0|] eqn:Hm.
    + split; [done|]. intros Hno. apply match_year_spec in Hm.
      by destruct (Hno 0 y0).
    + rewrite IH. split.
      * intros Hno p y Hy. apply year_at_cons in Hy as [[_ Hy]|[Hp Hy]];
          [congruence|]. by destruct (Hno (p - 1) y).
      * intros Hno p y Hy. pose proof (year_at_nonneg _ _ _ Hy).
        destruct (Hno (p + 1) y). apply year_at_cons. right. split; [lia|].
        by replace (p + 1 - 1) with p by lia.
Qed.

End year_pattern.

(** C8. Whatever words surround them, the month extracted from a period
    header text is that of the vocabulary abbreviation that occurs at the
    lowest offset of the text in lower case, in particular when several
    abbreviations occur, and the year extracted is the number read at the
    leftmost place where "20" is followed by two characters of the class
    [\d]; no month or no year is extracted exactly when there is no such
    occurrence.  This holds whatever [str.lower] and the class [\d] do
    outside the ASCII range: on the Kelvin sign, which [str.lower] turns
    into the letter k, and on full-width digits, which [\d] accepts. *)
Theorem C8_first_month_and_year (lower : string → string)
    (decimal : string → option (Z * string)) (text : string) :
  (∀ m, Unicode._extract_month lower text = Some m ↔
        ∃ key p, (key, m) ∈ MONTH_MAP ∧
                 Spec.occurs_at key (lower text) p ∧
                 ∀ key' m' p', (key', m') ∈ MONTH_MAP →
                               Spec.occurs_at key' (lower text) p' → p ≤ p') ∧
  (Unicode._extract_month lower text = None ↔
   ∀ key m p, (key, m) ∈ MONTH_MAP → ¬ Spec.occurs_at key (lower text) p) ∧
  (∀ y, Unicode._extract_year decimal text = Some y ↔
        ∃ p, Spec.year_at decimal text p y ∧
             ∀ p' y', Spec.year_at decimal text p' y' → p ≤ p') ∧
  (Unicode._extract_year decimal text = None ↔
   ∀ p y, ¬ Spec.year_at decimal text p y) ∧
  _extract_month "Nov - Des 2024" = Some 11 ∧
  _extract_month "s.d. DESEMBER 2024 (Jan-Des)" = Some 12 ∧
  _extract_year "Anggaran 2024 dan 2025" = Some 2024 ∧
  (lower Spec.kelvin_header = "okt - des 2024" →
   Unicode._extract_month lower Spec.kelvin_header = Some 10) ∧
  (decimal Spec.fullwidth_24 = Some (2, Spec.fullwidth_4 +:+ " / 2025") →
   decimal (Spec.fullwidth_4 +:+ " / 2025") = Some (4, " / 2025") →
   Unicode._extract_year decimal ("Des 20" +:+ Spec.fullwidth_24) = Some 2024).
Proof.
  split; [apply extract_month_spec|].
  split; [apply extract_month_None|].
  split; [apply extract_year_spec|].
  split; [apply extract_year_None|].
  split; [by vm_compute|]. split; [by vm_compute|]. split; [by vm_compute|].
  split.
  - intros Hlower. unfold Unicode._extract_month. rewrite Hlower. by vm_compute.
  - intros H1 H2.
    change ("Des 20" +:+ Spec.fullwidth_24)
      with (String "D" (String "e" (String "s" (String " "
             (String "2" (String "0" Spec.fullwidth_24)))))).
    do 4 (cbn [Unicode._extract_year];
          match goal with
          | |- context [Unicode.match_year decimal (String ?c ?s)] =>
              change (Unicode.match_year decimal (String c s)) with (@None Z)
          end).
    cbn [Unicode._extract_year].
    change (Unicode.match_year decimal (String "2" (String "0" Spec.fullwidth_24)))
      with (match decimal Spec.fullwidth_24 with
            | Some (d1, rest1) =>
                match decimal rest1 with
                | Some (d2, _) => Some (2000 + 10 * d1 + d2)
                | None => None
                end
            | None => None
            end).
    by rewrite H1, H2.
Qed.

End header_parser.

(** ** Column letters *)

Section column_letters.
Import ExcelReader.

Lemma append_assoc (s t u : string) : (s +:+ t) +:+ u = s +:+ (t +:+ u).
Proof.
  induction s as [|c s IH]; [by rewrite !append_nil|].
  by rewrite !append_cons, IH.
Qed.

Lemma loop_stop (rounds : nat) (col : Z) (result : string) :
  col ≤ 0 → col_index_to_letter_loop rounds col result = result.
Proof.
  intros Hcol. destruct rounds as [|rounds]; [done|]. cbn.
  destruct (Z.ltb_spec 0 col); [lia|done].
Qed.

Lemma quotient_rounds (col : Z) (n : nat) :
  0 < col → (Z.to_nat col ≤ S n)%nat → (Z.to_nat ((col - 1) / 26) ≤ n)%nat.
Proof.
  intros Hcol Hn.
  assert ((col - 1) / 26 ≤ col - 1) by (apply Z.div_le_upper_bound; lia).
  lia.
Qed.

Lemma loop_rounds (n : nat) :
  ∀ (col : Z) (r1 r2 : nat) (result : string),
    (Z.to_nat col ≤ n)%nat → (n ≤ r1)%nat → (n ≤ r2)%nat →
    col_index_to_letter_loop r1 col result
    = col_index_to_letter_loop r2 col "" +:+ result.
Proof.
  induction n as [|n IH]; intros col r1 r2 result Hcol Hr1 Hr2.
  - rewrite !loop_stop by lia. by rewrite append_nil.
  - destruct (Z.le_gt_cases col 0) as [Hle|Hgt].
    { rewrite !loop_stop by lia. by rewrite append_nil. }
    destruct r1 as [|r1]; [lia|]. destruct r2 as [|r2]; [lia|].
    cbn [col_index_to_letter_loop].
    destruct (Z.ltb_spec 0 col) as [_|?]; [|lia]. cbv zeta.
    pose proof (quotient_rounds col n Hgt Hcol) as Hq.
    rewrite (IH _ r1 r2 (String _ result)) by lia.
    rewrite (IH _ r2 r2 (String _ "")) by lia.
    by rewrite append_assoc, append_cons, append_nil.
Qed.

Lemma letter_step (col : Z) :
  0 < col →
  _col_index_to_letter col
  = _col_index_to_letter ((col - 1) / 26)
    +:+ String (ascii_of_N (Z.to_N ((col - 1) mod 26 + 65))) "".
Proof.
  intros Hcol. unfold _col_index_to_letter at 1.
  destruct (Z.to_nat col) as [|n] eqn:Hn; [lia|].
  cbn [col_index_to_letter_loop].
  destruct (Z.ltb_spec 0 col) as [_|?]; [|lia]. cbv zeta.
  pose proof (quotient_rounds col n Hcol ltac:(lia)) as Hq.
  unfold _col_index_to_letter.
  apply (loop_rounds (Z.to_nat ((col - 1) / 26))); lia.
Qed.

Lemma list_ascii_of_string_app (s t : string) :
  list_ascii_of_string (s +:+ t)
  = (list_ascii_of_string s ++ list_ascii_of_string t)%list.
Proof.
  induction s as [|c s IH]; [by rewrite append_nil|].
  rewrite append_cons. cbn. by rewrite IH.
Qed.

Lemma letter_code (r : Z) :
  0 ≤ r < 26 → Py.code (ascii_of_N (Z.to_N (r + 65))) = Z.to_N (r + 65).
Proof.
  intros Hr. unfold Py.code. apply N_ascii_embedding. lia.
Qed.

Lemma letters_spec (n : nat) :
  ∀ col : Z, (Z.to_nat col ≤ n)%nat →
    Spec.column_of_letters (_col_index_to_letter col) = Z.max col 0 ∧
    (∀ c, c ∈ list_ascii_of_string (_col_index_to_letter col) →
          (65 ≤ Py.code c ≤ 90)%N) ∧
    (0 < col → _col_index_to_letter col ≠ "").
Proof.
  induction n as [|n IH]; intros col Hcol.
  - unfold _col_index_to_letter. rewrite loop_stop by lia.
    split; [cbn; lia|]. split; [|lia]. intros c Hc. cbn in Hc. by apply elem_of_nil in Hc.
  - destruct (Z.le_gt_cases col 0) as [Hle|Hgt].
    { unfold _col_index_to_letter. rewrite loop_stop by lia.
      split; [cbn; lia|]. split; [|lia]. intros c Hc. cbn in Hc.
      by apply elem_of_nil in Hc. }
    rewrite letter_step by done.
    pose proof (quotient_rounds col n Hgt Hcol) as Hq.
    destruct (IH _ Hq) as (Hvalue & Hletters & _).
    pose proof (Z.mod_pos_bound (col - 1) 26 ltac:(lia)) as Hr.
    assert (0 ≤ (col - 1) / 26) by (apply Z.div_pos; lia).
    split; [|split].
    + unfold Spec.column_of_letters in *.
      rewrite list_ascii_of_string_app, fold_left_app, Hvalue. cbn.
      rewrite letter_code by done.
      pose proof (Z.div_mod (col - 1) 26 ltac:(lia)). lia.
    + intros c. rewrite list_ascii_of_string_app, elem_of_app. intros [Hc|Hc].
      * by apply Hletters.
      * cbn in Hc. apply list_elem_of_singleton in Hc as ->.
        rewrite letter_code by done. lia.
    + intros _. destruct (_col_index_to_letter ((col - 1) / 26)); [by rewrite append_nil|].
      by rewrite append_cons.
Qed.

(** X1. [_col_index_to_letter] gives the empty string for a column below 1
    and, for a column from 1 on, a non-empty word of the letters [A]..[Z]
    that reads back to the column in the bijective base 26, so two
    columns never share a name; the loop ends because the column reaches
    0, within [col] rounds. *)
Theorem col_index_to_letter_round_trip (col : Z) :
  (col ≤ 0 → _col_index_to_letter col = "") ∧
  (0 < col → _col_index_to_letter col ≠ "") ∧
  (∀ c, c ∈ list_ascii_of_string (_col_index_to_letter col) →
        (65 ≤ Py.code c ≤ 90)%N) ∧
  (0 ≤ col → Spec.column_of_letters (_col_index_to_letter col) = col) ∧
  (∀ col', 0 < col → 0 < col' →
           _col_index_to_letter col = _col_index_to_letter col' → col = col') ∧
  (∀ rounds, (Z.to_nat col ≤ rounds)%nat →
             col_index_to_letter_loop rounds col "" = _col_index_to_letter col).
Proof.
  destruct (letters_spec (Z.to_nat col) col ltac:(lia)) as (Hvalue & Hletters & Hne).
  split; [|split; [done|split; [done|split; [|split]]]].
  - intros Hcol. unfold _col_index_to_letter. by rewrite loop_stop.
  - intros Hcol. rewrite Hvalue. lia.
  - intros col' Hcol Hcol' Heq.
    destruct (letters_spec (Z.to_nat col') col' ltac:(lia)) as (Hvalue' & _).
    rewrite Heq in Hvalue. lia.
  - intros rounds Hrounds. unfold _col_index_to_letter.
    rewrite (loop_rounds (Z.to_nat col) col rounds (Z.to_nat col) "") by lia.
    clear. induction (col_index_to_letter_loop _ _ _) as [|c s IH]; [done|].
    by rewrite append_cons, IH.
Qed.

End column_letters.

(** ** Header rows *)

Section header_rows_more.
Import ExcelReader.

Variable float_repr : B64.float → string.

Lemma cell_in_sheet (sheet : Sheet) (row col : Z) :
  1 ≤ row → 1 ≤ col →
  cell sheet row col = Ok (default VNone (cells sheet !! (row, col))).
Proof.
  intros Hrow Hcol. unfold cell.
  destruct (Z.ltb_spec row 1); [lia|]. destruct (Z.ltb_spec col 1); [lia|]. done.
Qed.

Lemma scan_types_fold (sheet : Sheet) (row : Z) (cols : list Z)
    (type_mapping : gmap Z TypeName) :
  1 ≤ row → (∀ col, col ∈ cols → 1 ≤ col) →
  scan_types float_repr sheet row cols type_mapping
  = Ok (fold_left
          (λ (type_mapping : gmap Z TypeName) col,
             match
               (let header_text :=
                  Py.upper (Py.strip (str_or_empty float_repr
                                        (default VNone (cells sheet !! (row, col))))) in
                if Py.contains "REAL" header_text then Some REAL
                else if Py.contains "RKAP" header_text then Some RKAP
                else None)
             with
             | Some t => <[col := t]> type_mapping
             | None => type_mapping
             end)
          cols type_mapping).
Proof.
  intros Hrow. revert type_mapping.
  induction cols as [|col cols IH]; intros type_mapping Hcols; [done|].
  cbn [scan_types fold_left].
  rewrite cell_in_sheet; [|done|apply Hcols; left]. cbn [mbind result_bind].
  assert (Hrest : ∀ c, c ∈ cols → 1 ≤ c) by (intros c Hc; apply Hcols; by right).
  cbv zeta.
  destruct (decide (_ = "")) as [Hempty|Hne].
  - rewrite Hempty. cbn [Py.contains String.prefix orb]. by apply IH.
  - destruct (Py.contains "REAL" _); [by apply IH|].
    destruct (Py.contains "RKAP" _); by apply IH.
Qed.

Lemma fold_types_lookup (header_type : Z → option TypeName) (cols : list Z)
    (type_mapping : gmap Z TypeName) (c : Z) :
  fold_left
    (λ (type_mapping : gmap Z TypeName) col,
       match header_type col with
       | Some t => <[col := t]> type_mapping
       | None => type_mapping
       end)
    cols type_mapping !! c
  = if decide (c ∈ cols)
    then match header_type c with Some t => Some t | None => type_mapping !! c end
    else type_mapping !! c.
Proof.
  revert type_mapping.
  induction cols as [|col cols IH]; intros type_mapping; cbn [fold_left].
  - destruct (decide (c ∈ [])) as [Hin|_]; [by apply elem_of_nil in Hin|done].
  - rewrite IH.
    destruct (decide (c ∈ cols)) as [Hin|Hnin].
    + rewrite decide_True by by right.
      destruct (header_type c) eqn:Hc; [done|].
      destruct (header_type col) eqn:Hcol; [|done].
      rewrite lookup_insert_ne; [done|]. intros ->. congruence.
    + destruct (decide (c = col)) as [->|Hne].
      * rewrite decide_True by by left.
        destruct (header_type col); [by rewrite lookup_insert_eq|done].
      * rewrite decide_False by (rewrite elem_of_cons; tauto).
        destruct (header_type col); [by rewrite lookup_insert_ne|done].
Qed.

Lemma elem_of_range (a b c : Z) : c ∈ Py.range a b ↔ a ≤ c < b.
Proof. unfold Py.range. rewrite elem_of_seqZ. lia. Qed.

(** X2. On a row of the sheet, [parse_type_header] classifies exactly the
    columns 1 to [max_column]: a column is [REAL] when its upper-cased,
    stripped text contains "REAL", and [RKAP] when it contains "RKAP" and
    not "REAL", so "REAL" wins where a header names both.  It returns a
    non-empty map, and fails with the no-type-headers error exactly when no
    column of the row is classified; on a row below 1 with at least one
    column it fails with openpyxl's [ValueError]. *)
Theorem parse_type_header_classifies (sheet : Sheet) (row : Z) :
  let header_text col :=
    Py.upper (Py.strip (str_or_empty float_repr
                          (default VNone (cells sheet !! (row, col))))) in
  let in_sheet col := 1 ≤ col ≤ max_column sheet in
  (1 ≤ row →
   ∀ type_mapping,
     parse_type_header float_repr sheet row = Ok type_mapping →
     type_mapping ≠ ∅ ∧
     ∀ col,
       (type_mapping !! col = Some REAL ↔
        in_sheet col ∧ Py.contains "REAL" (header_text col) = true) ∧
       (type_mapping !! col = Some RKAP ↔
        in_sheet col ∧ Py.contains "REAL" (header_text col) = false ∧
        Py.contains "RKAP" (header_text col) = true)) ∧
  (1 ≤ row →
   parse_type_header float_repr sheet row
     = Raise (Exception ValueError (NoTypeHeaders row)) ↔
   ∀ col, in_sheet col → Py.contains "REAL" (header_text col) = false ∧
                         Py.contains "RKAP" (header_text col) = false) ∧
  (row < 1 → 1 ≤ max_column sheet →
   ∃ text, parse_type_header float_repr sheet row
           = Raise (Exception ValueError (Builtin text))).
Proof.
  intros header_text in_sheet.
  assert (Hscan : 1 ≤ row →
    scan_types float_repr sheet row (Py.range 1 (max_column sheet + 1)) ∅
    = Ok (fold_left
            (λ (type_mapping : gmap Z TypeName) col,
               match (if Py.contains "REAL" (header_text col) then Some REAL
                      else if Py.contains "RKAP" (header_text col) then Some RKAP
                      else None) with
               | Some t => <[col := t]> type_mapping
               | None => type_mapping
               end)
            (Py.range 1 (max_column sheet + 1)) ∅)).
  { intros Hrow. rewrite scan_types_fold; [done|done|].
    intros col Hcol. apply elem_of_range in Hcol. lia. }
  assert (Hlookup : 1 ≤ row → ∀ type_mapping col,
    scan_types float_repr sheet row (Py.range 1 (max_column sheet + 1)) ∅
      = Ok type_mapping →
    (type_mapping !! col = Some REAL ↔
     in_sheet col ∧ Py.contains "REAL" (header_text col) = true) ∧
    (type_mapping !! col = Some RKAP ↔
     in_sheet col ∧ Py.contains "REAL" (header_text col) = false ∧
     Py.contains "RKAP" (header_text col) = true)).
  { intros Hrow type_mapping col. rewrite Hscan by done. intros [= <-].
    rewrite fold_types_lookup, lookup_empty. unfold in_sheet.
    destruct (decide (col ∈ _)) as [Hin|Hnin].
    - apply elem_of_range in Hin.
      destruct (Py.contains "REAL" _), (Py.contains "RKAP" _);
        intuition (first [congruence | lia]).
    - rewrite elem_of_range in Hnin. intuition (first [congruence | lia]). }
  split; [|split].
  - intros Hrow type_mapping. unfold parse_type_header.
    pose proof (Hscan Hrow) as Hm. rewrite Hm. cbn [mbind result_bind].
    destruct (decide (_ = ∅)) as [Hempty|Hne]; [done|].
    intros [= <-]. split; [done|]. intros col. by apply Hlookup.
  - intros Hrow. unfold parse_type_header.
    pose proof (Hscan Hrow) as Hm. rewrite Hm. cbn [mbind result_bind].
    destruct (decide (_ = ∅)) as [Hempty|Hne].
    + split; [|done]. intros _ col Hcol.
      destruct (Hlookup Hrow _ col Hm) as [[_ Hreal] [_ Hrkap]].
      rewrite Hempty, lookup_empty in Hreal, Hrkap.
      destruct (Py.contains "REAL" _); [by discriminate Hreal|].
      destruct (Py.contains "RKAP" _); [by discriminate Hrkap|]. done.
    + split; [done|]. intros Hnone. destruct Hne. apply map_empty. intros col.
      destruct (Hlookup Hrow _ col Hm) as [[Hreal _] [Hrkap _]].
      match goal with |- ?m !! col = None => destruct (m !! col) as [[]|] eqn:Hcol end;
        [| |done].
      * destruct (Hreal eq_refl) as [Hin Hc]. destruct (Hnone col Hin). congruence.
      * destruct (Hrkap eq_refl) as (Hin & _ & Hc). destruct (Hnone col Hin). congruence.
  - intros Hrow Hmax. unfold parse_type_header, Py.range.
    destruct (Z.to_nat (max_column sheet + 1 - 1)) as [|n] eqn:Hn; [lia|].
    rewrite seqZ_to_nat, Hn. rewrite Nat2Z.inj_succ, seqZ_cons by lia.
    cbn [scan_types]. unfold cell. destruct (Z.ltb_spec row 1); [|lia].
    cbn. by eexists.
Qed.



Lemma digit_value_range (d : ascii) :
  Py.is_digit d = true → 0 ≤ Py.digit_value d ≤ 9.
Proof.
  unfold Py.is_digit, Py.digit_value. intros [H1 H2]%andb_prop.
  apply N.leb_le in H1, H2. lia.
Qed.







Lemma collect_periods_none (sheet : Sheet) (row : Z) (ranges : list MergedRange) :
  (∀ merged_range, merged_range ∈ ranges → min_row merged_range ≠ row) →
  collect_periods float_repr sheet row ranges = Ok [].
Proof.
  induction ranges as [|r ranges IH]; intros Hrows; [done|].
  cbn [collect_periods]. unfold period_of_range at 1.
  destruct (Z.eqb_spec (min_row r) row) as [Hrow|_].
  { destruct (Hrows r); [left|done]. }
  cbn [mbind result_bind]. rewrite IH; [done|].
  intros r' Hr'. apply Hrows. by right.
Qed.

(** X4. A period header that is not the first row of a merged range is
    never read: on a sheet with no merged range starting at the header
    row, [parse_period_header] fails with the no-period-headers error
    whatever the cells hold. *)
Theorem parse_period_header_needs_merged_range (sheet : Sheet) (row : Z) :
  (∀ merged_range, merged_range ∈ merged_cells sheet →
                   min_row merged_range ≠ row) →
  parse_period_header float_repr sheet row
  = Raise (Exception ValueError (NoPeriodHeaders row)).
Proof.
  intros Hrows. unfold parse_period_header.
  by rewrite collect_periods_none.
Qed.

End header_rows_more.


Lemma parse_period_header_needs_merged_range_witness :
  (∀ merged_range,
     merged_range ∈ ExcelReader.merged_cells
                      (Spec.one_cell (ExcelReader.VStr "Desember 2024")) →
     ExcelReader.min_row merged_range ≠ 10) ∧
  ExcelReader.parse_period_header Spec.repr_unused
    (Spec.one_cell (ExcelReader.VStr "Desember 2024")) 10
  = Raise (Exception ValueError (NoPeriodHeaders 10)).
Proof.
  assert (Hrows : ∀ merged_range,
            merged_range ∈ ExcelReader.merged_cells
                             (Spec.one_cell (ExcelReader.VStr "Desember 2024")) →
            ExcelReader.min_row merged_range ≠ 10).
  { intros merged_range Hin. simpl in Hin. by apply elem_of_nil in Hin. }
  split; [exact Hrows|].
  exact (parse_period_header_needs_merged_range Spec.repr_unused _ 10 Hrows).
Defined.

(** ** The period string *)

Section period_string.
Import ExcelReader ColumnDetector CostRoute.

Lemma digits_value_4 (y1 y2 y3 y4 : ascii) :
  forallb Py.is_digit [y1; y2; y3; y4] = true →
  0 ≤ digits_value [y1; y2; y3; y4] ≤ 9999.
Proof.
  cbn [forallb]. rewrite !andb_true_iff. intros (H1 & H2 & H3 & H4 & _).
  apply digit_value_range in H1, H2, H3, H4.
  unfold digits_value. cbn [fold_left]. lia.
Qed.

(** X5. [_parse_period] raises nothing but the invalid-period-format
    [ValueError] that quotes the string it was given.  A period string that
    it accepts holds a dash and yields a year within 1..9999 and a month
    within 1..12, and when the string is ASCII text it has six or seven
    characters: four digits, the dash and a month of one or two digits. *)
Theorem parse_period_accepted (period : string) :
  (∀ e, _parse_period period = Raise e →
        e = Exception ValueError (InvalidPeriodFormat period)) ∧
  (∀ year month,
     _parse_period period = Ok (year, month) →
     1 ≤ year ≤ 9999 ∧ 1 ≤ month ≤ 12 ∧
     Py.contains "-" period = true ∧
     (Py.isascii period = true →
      (String.length period = 6 ∨ String.length period = 7)%nat)).
Proof.
  split; [unfold _parse_period; destruct (strptime_Y_m period); by intros e [= <-]|].
  intros year month. unfold _parse_period.
  destruct (strptime_Y_m period) as [ym|] eqn:Hparse; [|done]. intros [= ->].
  unfold strptime_Y_m in Hparse.
  rewrite <- (string_of_list_ascii_of_string period).
  destruct (list_ascii_of_string period) as [|y1 [|y2 [|y3 [|y4 [|dash m]]]]];
    try done.
  destruct (Ascii.eqb_spec dash "-") as [->|Hdash].
  2:{ destruct dash as [[] [] [] [] [] [] [] []]; first [done | by destruct Hdash]. }
  destruct (forallb Py.is_digit [y1; y2; y3; y4]) eqn:Hdigits; [|done].
  pose proof (digits_value_4 _ _ _ _ Hdigits) as Hyear.
  destruct (Z.eqb_spec (digits_value [y1; y2; y3; y4]) 0) as [|Hne]; [done|].
  assert (Hdash : Py.contains "-" (string_of_list_ascii (y1 :: y2 :: y3 :: y4 :: "-"%char :: m)) = true).
  { apply contains_spec. exists 4.
    exists (String y1 (String y2 (String y3 (String y4 "")))), (string_of_list_ascii m).
    split; [|done]. cbn [string_of_list_ascii].
    by rewrite !append_cons, !append_nil. }
  destruct m as [|d1 [|d2 [|]]]; try done.
  - destruct (Py.is_digit d1) eqn:Hd1; [|done].
    destruct (Ascii.eqb_spec d1 "0") as [->|Hd0]; [done|].
    injection Hparse as <- <-.
    pose proof (digit_value_range _ Hd1).
    assert (Py.digit_value d1 ≠ 0).
    { intros H0. apply Hd0. unfold Py.digit_value, Py.code in H0.
      rewrite <- (ascii_N_embedding d1). replace (N_of_ascii d1) with 48%N by lia. done. }
    split; [lia|]. split; [lia|]. split; [done|]. intros _. by left.
  - destruct (Ascii.eqb_spec d1 "1") as [->|Hd1].
    + destruct (Py.is_digit d2) eqn:Hd2.
      * pose proof (digit_value_range _ Hd2).
        destruct (Z.leb_spec (Py.digit_value d2) 2).
        -- injection Hparse as <- <-.
           split; [lia|]. split; [lia|]. split; [done|]. intros _. by right.
        -- done.
      * done.
    + cbn [andb] in Hparse.
      destruct (Ascii.eqb_spec d1 "0") as [->|Hd0]; [|done].
      destruct (Py.is_digit d2) eqn:Hd2; [|done].
      destruct (Ascii.eqb_spec d2 "0") as [->|Hd20]; [done|].
      injection Hparse as <- <-.
      pose proof (digit_value_range _ Hd2).
      assert (Py.digit_value d2 ≠ 0).
      { intros H0. apply Hd20. unfold Py.digit_value, Py.code in H0.
        rewrite <- (ascii_N_embedding d2). replace (N_of_ascii d2) with 48%N by lia. done. }
      split; [lia|]. split; [lia|]. split; [done|]. intros _. by right.
Qed.

Lemma strftime_round_trip_table :
  forallb
    (λ year,
       forallb
         (λ month,
            match _parse_period (strftime_Y_m year month) with
            | Ok (y, m) => (y =? year) && (m =? month)
            | Raise _ => false
            end)
         (seqZ 1 12))
    (seqZ 1000 9000) = true.
Proof. by vm_compute. Qed.

(** X6. The period string that the upload route builds with
    [strftime('%Y-%m')] from a date of a four-digit year is parsed back by
    [_parse_period] to the same year and month. *)
Theorem parse_period_of_strftime (year month : Z) :
  1000 ≤ year ≤ 9999 → 1 ≤ month ≤ 12 →
  _parse_period (strftime_Y_m year month) = Ok (year, month).
Proof.
  intros Hyear Hmonth.
  pose proof strftime_round_trip_table as Htable.
  rewrite forallb_forall in Htable.
  specialize (Htable year). rewrite forallb_forall in Htable.
  assert (Hy : In year (seqZ 1000 9000))
    by (apply list_elem_of_In, elem_of_seqZ; lia).
  assert (Hm : In month (seqZ 1 12))
    by (apply list_elem_of_In, elem_of_seqZ; lia).
  specialize (Htable Hy month Hm).
  destruct (_parse_period _) as [[y m]|]; [|done].
  apply andb_prop in Htable as [->%Z.eqb_eq ->%Z.eqb_eq]. done.
Qed.

Lemma parse_period_of_strftime_witness :
  1000 ≤ 2024 ≤ 9999 ∧ 1 ≤ 3 ≤ 12 ∧
  strftime_Y_m 2024 3 = "2024-03" ∧
  _parse_period "2024-03" = Ok (2024, 3).
Proof.
  split; [lia|]. split; [lia|]. split; [reflexivity|].
  exact (parse_period_of_strftime 2024 3 ltac:(lia) ltac:(lia)).
Defined.

End period_string.

(** ** Column detection, end to end *)

Section detection.
Import ExcelReader ColumnDetector.

Variable float_repr : B64.float → string.

Lemma parse_headers_Ok (sheet : Sheet) (all_periods : list Period)
    (type_headers : gmap Z TypeName) :
  parse_headers float_repr sheet = Ok (all_periods, type_headers) ↔
  parse_period_header float_repr sheet PERIOD_HEADER_ROW = Ok all_periods ∧
  parse_type_header float_repr sheet TYPE_HEADER_ROW = Ok type_headers.
Proof.
  unfold parse_headers.
  destruct (parse_period_header _ _ _) as [ps|e]; cbn [mbind result_bind].
  - destruct (parse_type_header _ _ _) as [th|e]; cbn [mbind result_bind].
    + split; [by intros [= -> ->]|by intros [[= ->] [= ->]]].
    + split; [done|by intros [_ ?]].
  - split; [done|by intros [? _]].
Qed.

Lemma parse_headers_Raise (sheet : Sheet) (e : exn) :
  parse_headers float_repr sheet = Raise e →
  ∃ cause, e = Exception ValueError (HeaderParseFailed cause).
Proof.
  unfold parse_headers. destruct (_ ≫= _) as [r|e']; [done|].
  intros [= <-]. by eexists.
Qed.

Lemma type_headers_in_sheet (sheet : Sheet) (type_headers : gmap Z TypeName) :
  parse_type_header float_repr sheet TYPE_HEADER_ROW = Ok type_headers →
  type_headers ≠ ∅ ∧
  ∀ col t, type_headers !! col = Some t → 1 ≤ col ≤ max_column sheet.
Proof.
  unfold parse_type_header.
  rewrite scan_types_fold;
    [|done|by intros col [? _]%elem_of_range].
  cbn [mbind result_bind].
  destruct (decide (_ = ∅)) as [|Hne]; [done|]. intros [= <-].
  split; [done|]. intros col t. rewrite fold_types_lookup, lookup_empty.
  destruct (decide (col ∈ _)) as [Hin%elem_of_range|_]; [|done].
  intros _. lia.
Qed.

Lemma get_columns_in_range_spec (type_headers : gmap Z TypeName)
    (start_col end_col : Z) (t : TypeName) (c : Z) :
  _get_columns_in_range type_headers start_col end_col !! t = Some c ↔
  Spec.last_in_range type_headers start_col end_col t c.
Proof.
  unfold _get_columns_in_range, Py.range. rewrite seqZ_to_nat.
  rewrite get_columns_prefix. unfold Spec.last_in_range.
  destruct (decide (start_col ≤ end_col)).
  - by replace (start_col + Z.of_nat (Z.to_nat (end_col + 1 - start_col)) - 1)
      with end_col by lia.
  - replace (Z.to_nat (end_col + 1 - start_col)) with 0%nat by lia.
    split; intros (? & _); lia.
Qed.

Lemma head_filter_elem {A} (P : A → Prop) `{∀ x, Decision (P x)} (l : list A) (h : A) :
  head (filter P l) = Some h → h ∈ l ∧ P h.
Proof.
  intros (l1 & l2 & -> & Hh & _)%head_filter_Some. split; [|done].
  apply elem_of_app. right. left.
Qed.

Lemma head_filter_None {A} (P : A → Prop) `{∀ x, Decision (P x)} (l : list A) :
  head (filter P l) = None → ∀ x, x ∈ l → ¬ P x.
Proof.
  intros Hhead x Hx HP.
  assert (Hin : x ∈ filter P l) by by apply list_elem_of_filter.
  destruct (filter P l); [by apply elem_of_nil in Hin|done].
Qed.

(** What a successful [resolve] returns. *)
Lemma resolve_Ok (all_periods : list Period) (type_headers : gmap Z TypeName)
    (ty tm : Z) (columns : Columns) :
  resolve all_periods type_headers ty tm = Ok columns →
  ∃ bulan_header real rkap real_sd rkap_sd,
    bulan_header ∈ all_periods ∧ Spec.month_match ty tm bulan_header ∧
    columns = {| REAL_BULAN_INI := Some real; RKAP_BULAN_INI := Some rkap;
                 REAL_SD := Some real_sd; RKAP_SD := Some rkap_sd |} ∧
    Spec.last_in_range type_headers (start_col bulan_header) (end_col bulan_header)
      REAL real ∧
    Spec.last_in_range type_headers (start_col bulan_header) (end_col bulan_header)
      RKAP rkap ∧
    ((∃ sd_header,
        sd_header ∈ all_periods ∧ Spec.cumulative_match ty tm sd_header ∧
        Spec.last_in_range type_headers (start_col sd_header) (end_col sd_header)
          REAL real_sd ∧
        Spec.last_in_range type_headers (start_col sd_header) (end_col sd_header)
          RKAP rkap_sd) ∨
     ((∀ p, p ∈ all_periods → ¬ Spec.cumulative_match ty tm p) ∧
      Spec.first_after type_headers (end_col bulan_header) REAL real_sd ∧
      Spec.first_after type_headers (end_col bulan_header) RKAP rkap_sd)).
Proof.
  unfold resolve. rewrite find_matching_spec.
  destruct (head (filter (Spec.month_match ty tm) all_periods))
    as [bulan_header|] eqn:Hbulan; [|done].
  apply head_filter_elem in Hbulan as [Hin Hmatch].
  destruct (_map_columns _ _ _) as [cols|e] eqn:Hmap; [|done].
  cbn [mbind result_bind]. unfold _validate_columns.
  destruct (missing_columns cols) as [|k ks] eqn:Hmissing; [|done].
  cbn [mbind result_bind]. intros [= <-].
  apply missing_columns_nil in Hmissing as (real & rkap & real_sd & rkap_sd & ->).
  exists bulan_header, real, rkap, real_sd, rkap_sd.
  split; [done|]. split; [done|]. split; [done|].
  unfold _map_columns in Hmap.
  destruct (head (filter (Spec.cumulative_match ty tm) all_periods))
    as [sd_header|] eqn:Hsd.
  - injection Hmap as Hreal Hrkap Hreal_sd Hrkap_sd.
    apply get_columns_in_range_spec in Hreal, Hrkap, Hreal_sd, Hrkap_sd.
    split; [done|]. split; [done|]. left. exists sd_header.
    apply head_filter_elem in Hsd as [? ?]. done.
  - destruct (max_key type_headers) as [last|e] eqn:Hmax; [|done].
    cbn [mbind result_bind] in Hmap. rewrite scan_next_spec in Hmap.
    injection Hmap as Hreal Hrkap Hreal_sd Hrkap_sd.
    apply get_columns_in_range_spec in Hreal, Hrkap.
    pose proof (max_key_bound _ _ Hmax) as Hlast.
    apply first_after_in_scan in Hreal_sd, Hrkap_sd; try done.
    split; [done|]. split; [done|]. right.
    split; [exact (head_filter_None _ _ Hsd)|done].
Qed.

(** X7. When [detect_columns] succeeds, the four columns it returns are
    all present and lie within the sheet; the two monthly columns are the
    last [REAL] and the last [RKAP] column inside a Month-kind descriptor
    of the requested year and month; the two cumulative columns are the
    last [REAL] and [RKAP] columns inside a Cumulative-kind descriptor of
    that period or, when the header row has none, the first [REAL] and
    [RKAP] columns after the monthly range.  Each returned column carries
    the value type it is returned for, so the two columns of a pair
    differ. *)
Theorem detect_columns_sound (sheet : Sheet) (target_period : string)
    (columns : Columns) :
  detect_columns float_repr sheet target_period = Ok columns →
  ∃ target_year target_month all_periods type_headers bulan_header
    real rkap real_sd rkap_sd,
    _parse_period target_period = Ok (target_year, target_month) ∧
    parse_period_header float_repr sheet PERIOD_HEADER_ROW = Ok all_periods ∧
    parse_type_header float_repr sheet TYPE_HEADER_ROW = Ok type_headers ∧
    bulan_header ∈ all_periods ∧
    Spec.month_match target_year target_month bulan_header ∧
    columns = {| REAL_BULAN_INI := Some real; RKAP_BULAN_INI := Some rkap;
                 REAL_SD := Some real_sd; RKAP_SD := Some rkap_sd |} ∧
    Spec.last_in_range type_headers (start_col bulan_header) (end_col bulan_header)
      REAL real ∧
    Spec.last_in_range type_headers (start_col bulan_header) (end_col bulan_header)
      RKAP rkap ∧
    ((∃ sd_header,
        sd_header ∈ all_periods ∧
        Spec.cumulative_match target_year target_month sd_header ∧
        Spec.last_in_range type_headers (start_col sd_header) (end_col sd_header)
          REAL real_sd ∧
        Spec.last_in_range type_headers (start_col sd_header) (end_col sd_header)
          RKAP rkap_sd) ∨
     ((∀ p, p ∈ all_periods → ¬ Spec.cumulative_match target_year target_month p) ∧
      Spec.first_after type_headers (end_col bulan_header) REAL real_sd ∧
      Spec.first_after type_headers (end_col bulan_header) RKAP rkap_sd)) ∧
    type_headers !! real = Some REAL ∧ type_headers !! rkap = Some RKAP ∧
    type_headers !! real_sd = Some REAL ∧ type_headers !! rkap_sd = Some RKAP ∧
    real ≠ rkap ∧ real_sd ≠ rkap_sd ∧
    (∀ col, col ∈ [real; rkap; real_sd; rkap_sd] → 1 ≤ col ≤ max_column sheet).
Proof.
  unfold detect_columns.
  destruct (_parse_period target_period) as [[target_year target_month]|e] eqn:Hperiod;
    [|done].
  cbn [mbind result_bind].
  destruct (parse_headers float_repr sheet) as [[all_periods type_headers]|e]
    eqn:Hheaders; [|done].
  cbn [mbind result_bind]. intros Hresolve.
  apply parse_headers_Ok in Hheaders as [Hperiods Htypes].
  destruct (type_headers_in_sheet _ _ Htypes) as [_ Hkeys].
  apply resolve_Ok in Hresolve
    as (bulan_header & real & rkap & real_sd & rkap_sd & Hin & Hmatch & -> &
        Hreal & Hrkap & Hsd).
  exists target_year, target_month, all_periods, type_headers, bulan_header,
    real, rkap, real_sd, rkap_sd.
  assert (Hreal' : type_headers !! real = Some REAL) by apply Hreal.
  assert (Hrkap' : type_headers !! rkap = Some RKAP) by apply Hrkap.
  assert (Hsd' : type_headers !! real_sd = Some REAL ∧
                 type_headers !! rkap_sd = Some RKAP).
  { destruct Hsd as [(s & _ & _ & H1 & H2)|(_ & H1 & H2)]; split;
      first [apply H1 | apply H2]. }
  destruct Hsd' as [Hreal_sd Hrkap_sd].
  repeat (split; [done|]).
  split; [congruence|]. split; [congruence|].
  intros col Hcol. repeat (apply elem_of_cons in Hcol as [->|Hcol]; [by eapply Hkeys|]).
  by apply elem_of_nil in Hcol.
Qed.

Lemma resolve_Raise (all_periods : list Period) (type_headers : gmap Z TypeName)
    (ty tm : Z) (e : exn) :
  type_headers ≠ ∅ →
  resolve all_periods type_headers ty tm = Raise e →
  exn_cls e = ValueError ∧
  ((∃ available, exn_msg e = PeriodNotFound ty tm available) ∨
   (∃ missing, missing ≠ [] ∧ exn_msg e = ColumnsNotDetected missing)).
Proof.
  intros Hne. unfold resolve. rewrite find_matching_spec.
  destruct (head (filter (Spec.month_match ty tm) all_periods)) as [bulan_header|].
  2:{ intros [= <-]. split; [done|]. left. by eexists. }
  assert (Hmap : ∃ cols,
            _map_columns type_headers bulan_header
              (head (filter (Spec.cumulative_match ty tm) all_periods)) = Ok cols).
  { unfold _map_columns. destruct (head _); [eexists; reflexivity|].
    destruct (max_key_nonempty _ Hne) as [last ->]. cbn [mbind result_bind].
    destruct (scan_next _ _ _ _). eexists; reflexivity. }
  destruct Hmap as [cols ->]. cbn [mbind result_bind]. unfold _validate_columns.
  destruct (missing_columns cols) as [|k ks]; [done|].
  cbn [mbind result_bind]. intros [= <-]. split; [done|]. right. by exists (k :: ks).
Qed.

(** X8. Every exception that leaves [detect_columns] is a [ValueError].
    It is the invalid-period-format error when the period string does not
    parse, raised before the sheet is read; otherwise it is a header-parse
    failure, a period-not-found error for the parsed year and month, or a
    columns-not-detected error that names at least one column.  The
    [max()] of an empty type map cannot occur. *)
Theorem detect_columns_raises_ValueError (sheet : Sheet) (target_period : string)
    (e : exn) :
  detect_columns float_repr sheet target_period = Raise e →
  exn_cls e = ValueError ∧
  ((strptime_Y_m target_period = None ∧
    exn_msg e = InvalidPeriodFormat target_period) ∨
   (∃ target_year target_month,
      _parse_period target_period = Ok (target_year, target_month) ∧
      ((∃ cause, exn_msg e = HeaderParseFailed cause) ∨
       (∃ available, exn_msg e = PeriodNotFound target_year target_month available) ∨
       (∃ missing, missing ≠ [] ∧ exn_msg e = ColumnsNotDetected missing)))).
Proof.
  unfold detect_columns, _parse_period.
  destruct (strptime_Y_m target_period) as [[target_year target_month]|] eqn:Hperiod;
    cbn [mbind result_bind]; [|intros [= <-]; split; [done|by left]].
  intros Hraise.
  destruct (parse_headers float_repr sheet) as [[all_periods type_headers]|e']
    eqn:Hheaders; cbn [mbind result_bind] in Hraise.
  - apply parse_headers_Ok in Hheaders as [_ Htypes].
    destruct (type_headers_in_sheet _ _ Htypes) as [Hne _].
    destruct (resolve_Raise _ _ _ _ _ Hne Hraise) as [Hcls Hmsg].
    split; [done|]. right. exists target_year, target_month. split; [done|].
    by right.
  - injection Hraise as ->.
    apply parse_headers_Raise in Hheaders as [cause ->].
    split; [done|]. right. exists target_year, target_month.
    split; [done|]. left. by exists cause.
Qed.

End detection.

Lemma detect_columns_sound_witness :
  ColumnDetector.detect_columns Spec.repr_unused Spec.worksheet_indonesian "2024-12"
    = Ok {| ColumnDetector.REAL_BULAN_INI := Some 5;
            ColumnDetector.RKAP_BULAN_INI := Some 6;
            ColumnDetector.REAL_SD := Some 9;
            ColumnDetector.RKAP_SD := Some 10 |} ∧
  ∃ type_headers,
    ExcelReader.parse_type_header Spec.repr_unused Spec.worksheet_indonesian
      ExcelReader.TYPE_HEADER_ROW = Ok type_headers ∧
    type_headers !! 5 = Some ExcelReader.REAL ∧
    type_headers !! 10 = Some ExcelReader.RKAP.
Proof.
  assert (Hdetect :
    ColumnDetector.detect_columns Spec.repr_unused Spec.worksheet_indonesian "2024-12"
    = Ok {| ColumnDetector.REAL_BULAN_INI := Some 5;
            ColumnDetector.RKAP_BULAN_INI := Some 6;
            ColumnDetector.REAL_SD := Some 9;
            ColumnDetector.RKAP_SD := Some 10 |}) by (by vm_compute).
  split; [exact Hdetect|].
  destruct (detect_columns_sound Spec.repr_unused _ _ _ Hdetect)
    as (ty & tm & ps & th & b & real & rkap & real_sd & rkap_sd &
        _ & _ & Hth & _ & _ & Hcols & _ & _ & _ & H1 & _ & _ & H4 & _).
  injection Hcols as <- <- <- <-. exists th.
  split; [exact Hth|]. split; [exact H1|exact H4].
Defined.

Lemma detect_columns_raises_ValueError_witness :
  ColumnDetector.detect_columns Spec.repr_unused Spec.worksheet_indonesian "2024-13"
    = Raise (Exception ValueError (InvalidPeriodFormat "2024-13")) ∧
  exn_cls (Exception ValueError (InvalidPeriodFormat "2024-13")) = ValueError.
Proof.
  assert (Hdetect :
    ColumnDetector.detect_columns Spec.repr_unused Spec.worksheet_indonesian "2024-13"
    = Raise (Exception ValueError (InvalidPeriodFormat "2024-13"))) by (by vm_compute).
  split; [exact Hdetect|].
  exact (proj1 (detect_columns_raises_ValueError Spec.repr_unused _ _ _ Hdetect)).
Defined.

(** ** Coverage: exact figures and edge cases *)

Section exact_rounding.

Lemma Zdigits2_mul_pow2 (m j : Z) :
  0 < m → 0 ≤ j → Zdigits2 (m * 2 ^ j) = Zdigits2 m + j.
Proof.
  intros Hm Hj.
  pose proof (Zdigits2_bounds m Hm) as [Hl Hu].
  pose proof (Zdigits2_pos m Hm) as Hd.
  assert (Hp : 0 < 2 ^ j) by (apply Z.pow_pos_nonneg; lia).
  apply Zdigits2_unique; [|nia].
  replace (Zdigits2 m + j - 1) with (Zdigits2 m - 1 + j) by lia.
  rewrite !Z.pow_add_r by lia. split.
  - apply Z.mul_le_mono_nonneg_r; lia.
  - apply Z.mul_lt_mono_pos_r; lia.
Qed.

(** A value that binary64 holds is rounded to itself. *)
Lemma binary_round_aux_exact (M E : Z) (mb : positive) (eb : Z) :
  E ≤ eb → B64.canonical mb eb → eb ≤ B64.emax - B64.prec →
  M = Zpos mb * 2 ^ (eb - E) →
  binary_round_aux B64.prec B64.emax false M E loc_Exact = S754_finite false mb eb.
Proof.
  intros HEeb Hcb Hebmax HM. unfold binary_round_aux.
  assert (Hp : 0 < 2 ^ (eb - E)) by (apply Z.pow_pos_nonneg; lia).
  assert (HM0 : 0 ≤ M) by lia.
  destruct (shr_fexp_spec M E loc_Exact HM0) as (mrs1 & Hs1 & Hm1 & Hex1).
  rewrite Hs1. clear Hs1.
  assert (Hdigits : Zdigits2 M + E = Zdigits2 (Zpos mb) + eb).
  { rewrite HM, Zdigits2_mul_pow2 by lia. lia. }
  unfold B64.canonical in Hcb.
  rewrite Hdigits, Hcb in Hm1, Hex1 |- *.
  rewrite Z.max_l in Hm1, Hex1 |- * by lia.
  replace (E + (eb - E)) with eb by lia.
  assert (Hq : M / 2 ^ (eb - E) = Zpos mb) by (rewrite HM; apply Z.div_mul; lia).
  assert (Hr : M mod 2 ^ (eb - E) = 0) by (rewrite HM; apply Z.mod_mul; lia).
  rewrite Hq in Hm1. rewrite (Hex1 Hr eq_refl), Hm1.
  destruct (round_nearest_even_bounds (Zpos mb) loc_Exact) as [_ Hexact].
  rewrite (Hexact eq_refl).
  destruct (shr_fexp_spec (Zpos mb) eb loc_Exact ltac:(lia)) as (mrs2 & Hs2 & Hm2 & _).
  rewrite Hs2. clear Hs2. rewrite Hcb in Hm2 |- *.
  rewrite Z.sub_diag, Z.max_r in Hm2 |- * by lia.
  rewrite Z.pow_0_r, Z.div_1_r in Hm2. rewrite Hm2, Z.add_0_r.
  destruct (Z.leb_spec eb (B64.emax - B64.prec)); [done|lia].
Qed.

(** The quotient of a positive integer by itself is 1.0. *)
Lemma div_round_self (n : positive) :
  B64.div_round false n n = S754_finite false 4503599627370496 (-52).
Proof.
  unfold B64.div_round, SFdiv_core_binary.
  rewrite !Z.add_0_r. change (0 - 0) with 0. rewrite Z.sub_diag.
  change (fexp B64.prec B64.emax 0) with (-53).
  change (Z.min (-53) 0) with (-53). change (0 - -53) with 53.
  rewrite Z.shiftl_mul_pow2 by lia.
  destruct (Z.div_eucl (Zpos n * 2 ^ 53) (Zpos n)) as [q r] eqn:Hdiv.
  assert (Hq : q = 2 ^ 53 ∧ r = 0).
  { split.
    - transitivity (Zpos n * 2 ^ 53 / Zpos n); [unfold Z.div; by rewrite Hdiv|].
      rewrite Z.mul_comm. apply Z.div_mul. lia.
    - transitivity ((Zpos n * 2 ^ 53) mod Zpos n); [unfold Z.modulo; by rewrite Hdiv|].
      rewrite Z.mul_comm. apply Z.mod_mul. lia. }
  destruct Hq as [-> ->]. cbv beta iota.
  replace (new_location (Zpos n) 0) with loc_Exact.
  2:{ unfold new_location, new_location_even, new_location_odd.
      by destruct (Z.even (Zpos n)). }
  by apply binary_round_aux_exact.
Qed.

End exact_rounding.

Section coverage_more.
Import Validator.

Lemma build_maps_snoc (cfg : Perusahaan) (config_key : string) (company_data : Company) :
  (build_maps (cfg ++ [(config_key, company_data)])%list).1
  = if decide (kode_perusahaan company_data = "") then (build_maps cfg).1
    else <[kode_perusahaan company_data := config_key]> (build_maps cfg).1.
Proof.
  unfold build_maps. rewrite fold_left_app. cbn [fold_left].
  by destruct (fold_left _ cfg (∅, ∅)) as [m n].
Qed.

Lemma build_maps_names_snoc (cfg : Perusahaan) (config_key : string)
    (company_data : Company) :
  (build_maps (cfg ++ [(config_key, company_data)])%list).2
  = <[config_key := nama company_data]> (build_maps cfg).2.
Proof.
  unfold build_maps. rewrite fold_left_app. cbn [fold_left].
  by destruct (fold_left _ cfg (∅, ∅)) as [m n].
Qed.

(** The code table maps a code to the key of the last company that has it. *)
Lemma build_maps_lookup (cfg : Perusahaan) (code key : string) :
  (build_maps cfg).1 !! code = Some key ↔
  ∃ before company_data after,
    cfg = (before ++ (key, company_data) :: after)%list ∧
    kode_perusahaan company_data = code ∧ code ≠ "" ∧
    ∀ entry, entry ∈ after → kode_perusahaan entry.2 ≠ code.
Proof.
  induction cfg as [|[k c] cfg IH] using rev_ind.
  { split; [cbn; by rewrite lookup_empty|].
    intros (before & c & after & Heq & _). by destruct before. }
  rewrite build_maps_snoc.
  assert (Hshift :
    kode_perusahaan c ≠ code ∨ code = "" →
    (∃ before company_data after,
       (cfg ++ [(k, c)])%list = (before ++ (key, company_data) :: after)%list ∧
       kode_perusahaan company_data = code ∧ code ≠ "" ∧
       ∀ entry, entry ∈ after → kode_perusahaan entry.2 ≠ code) ↔
    (∃ before company_data after,
       cfg = (before ++ (key, company_data) :: after)%list ∧
       kode_perusahaan company_data = code ∧ code ≠ "" ∧
       ∀ entry, entry ∈ after → kode_perusahaan entry.2 ≠ code)).
  { intros Hcase. split.
    - intros (before & c' & after & Heq & Hkode & Hne & Hlast).
      destruct after as [|x after _] using rev_ind.
      + apply app_inj_tail in Heq as [_ [= -> ->]]. tauto.
      + rewrite app_comm_cons, app_assoc in Heq.
        apply app_inj_tail in Heq as [-> <-].
        exists before, c', after. repeat split; try done.
        intros entry Hentry. apply Hlast. apply elem_of_app. by left.
    - intros (before & c' & after & -> & Hkode & Hne & Hlast).
      exists before, c', (after ++ [(k, c)])%list.
      split; [by rewrite <- app_assoc|]. repeat split; try done.
      intros entry [Hentry|Hentry]%elem_of_app; [by apply Hlast|].
      apply list_elem_of_singleton in Hentry as ->. cbn. tauto. }
  destruct (decide (kode_perusahaan c = "")) as [Hempty|Hnonempty].
  { rewrite IH. symmetry. apply Hshift.
    destruct (decide (code = "")); [by right|left; congruence]. }
  destruct (decide (kode_perusahaan c = code)) as [Hcode|Hcode].
  - rewrite Hcode, lookup_insert_eq. split.
    + intros [= ->]. exists cfg, c, []. repeat split; try done; [congruence|].
      by intros entry ?%elem_of_nil.
    + intros (before & c' & after & Heq & Hkode & Hne & Hlast).
      destruct after as [|x after _] using rev_ind.
      * by apply app_inj_tail in Heq as [_ [= -> ->]].
      * rewrite app_comm_cons, app_assoc in Heq.
        apply app_inj_tail in Heq as [_ <-].
        destruct (Hlast (k, c)); [|done]. apply elem_of_app. right. left.
  - rewrite lookup_insert_ne by done. rewrite IH. symmetry. apply Hshift. by left.
Qed.



End coverage_more.


Section coverage_edges.
Import Validator.

Lemma sorted_nil : sorted [] = [].
Proof.
  destruct (sorted_spec []) as [_ Hperm]. by apply Permutation_nil_r in Hperm.
Qed.

Lemma missing_companies_spec (cfg : Perusahaan) (dataframe : DataFrame)
    (expected : list string) (key : string) :
  key ∈ missing_companies (validate_upload cfg dataframe expected) ↔
  key ∈ expected ∧ key ∉ processed_config_keys cfg dataframe.
Proof.
  change (missing_companies (validate_upload cfg dataframe expected))
    with (sorted (elements ((list_to_set expected : gset string)
                            ∖ processed_config_keys cfg dataframe))).
  destruct (sorted_spec (elements ((list_to_set expected : gset string)
                                   ∖ processed_config_keys cfg dataframe)))
    as [_ Hperm].
  by rewrite Hperm, elem_of_elements, elem_of_difference, elem_of_list_to_set.
Qed.

Lemma coverage_percent_eq (cfg : Perusahaan) (dataframe : DataFrame)
    (expected : list string) :
  company_coverage_percent (validate_upload cfg dataframe expected)
  = if 0 <? Z.of_nat (length expected)
    then B64.mul (B64.truediv (Z.of_nat (size (processed_config_keys cfg dataframe)))
                              (Z.of_nat (length expected)))
                 (B64.of_Z 100)
    else B64.zero.
Proof. done. Qed.

Lemma status_eq (cfg : Perusahaan) (dataframe : DataFrame) (expected : list string) :
  status (validate_upload cfg dataframe expected)
  = determine_status (company_coverage_percent (validate_upload cfg dataframe expected)).
Proof. done. Qed.

(** X10. When the expected list is not empty, has no duplicate and holds
    every configuration key, as the list passed by the upload route does,
    and every expected unit is counted as processed, [validate_upload]
    reports as many processed as expected units, no missing unit, a
    coverage of exactly 100.0 and the status ['success'], whatever the
    number of units. *)
Theorem full_coverage_is_success (cfg : Perusahaan) (dataframe : DataFrame)
    (expected : list string) :
  expected ≠ [] → NoDup expected →
  (∀ key company_data, (key, company_data) ∈ cfg → key ∈ expected) →
  (∀ key, key ∈ expected → key ∈ processed_config_keys cfg dataframe) →
  let r := validate_upload cfg dataframe expected in
  processed_companies r = total_companies r ∧
  missing_companies r = [] ∧
  company_coverage_percent r = B64.of_Z 100 ∧
  status r = success.
Proof.
  intros Hne Hnodup Hcfg Hall r.
  assert (Hset : processed_config_keys cfg dataframe = list_to_set expected).
  { apply set_eq. intros key. rewrite elem_of_list_to_set. split; [|apply Hall].
    intros [c Hc]%processed_config_keys_in_config. by eapply Hcfg. }
  assert (Hsize : size (processed_config_keys cfg dataframe) = length expected).
  { rewrite Hset. by apply size_list_to_set. }
  assert (Hcov : company_coverage_percent r = B64.of_Z 100).
  { unfold r. rewrite coverage_percent_eq, Hsize.
    destruct (Z.ltb_spec 0 (Z.of_nat (length expected))) as [Hpos|Hzero].
    - destruct (Z.of_nat (length expected)) as [|n|n] eqn:Hn; try lia.
      cbn [B64.truediv]. rewrite div_round_self. by vm_compute.
    - destruct expected; [done|]. cbn in Hzero. lia. }
  split; [unfold r; cbn; by rewrite Hsize|].
  split.
  - change (missing_companies r)
      with (sorted (elements ((list_to_set expected : gset string)
                              ∖ processed_config_keys cfg dataframe))).
    rewrite Hset, difference_diag_L, elements_empty. apply sorted_nil.
  - split; [done|]. unfold r. rewrite status_eq. fold r. rewrite Hcov.
    by vm_compute.
Qed.

Lemma no_code_no_key (cfg : Perusahaan) (dataframe : DataFrame) :
  (∀ config_key company_data,
     (config_key, company_data) ∈ cfg →
     kode_perusahaan company_data ∉ processed_data_codes dataframe) →
  processed_config_keys cfg dataframe = ∅.
Proof.
  intros Hnone. apply set_eq. intros key. split; [|by intros ?%elem_of_empty].
  intros (code & Hcode & Hlookup & _)%elem_of_processed_config_keys.
  apply build_maps_code in Hlookup as (c & Hc & <-). by destruct (Hnone key c).
Qed.

Lemma no_key_is_failed (cfg : Perusahaan) (dataframe : DataFrame)
    (expected : list string) :
  processed_config_keys cfg dataframe = ∅ →
  let r := validate_upload cfg dataframe expected in
  processed_companies r = 0 ∧
  company_coverage_percent r = B64.zero ∧
  status r = failed.
Proof.
  intros Hset r.
  assert (Hcov : company_coverage_percent r = B64.zero).
  { unfold r. rewrite coverage_percent_eq, Hset, size_empty.
    destruct (Z.ltb_spec 0 (Z.of_nat (length expected))) as [Hpos|Hzero]; [|done].
    destruct (Z.of_nat (length expected)) as [|n|n] eqn:Hn; try lia. by vm_compute. }
  split; [unfold r; cbn; by rewrite Hset, size_empty|].
  split; [done|]. unfold r. rewrite status_eq. fold r. by rewrite Hcov.
Qed.

(** X11. When no row of the batch carries the [kode_perusahaan] of a
    configured unit - an empty frame, a frame without that column, or
    rows of unknown codes only - [validate_upload] counts 0 processed
    units, reports every expected unit missing, and gives a coverage of
    0.0 and the status ['failed']. *)
Theorem no_configured_code_is_failed (cfg : Perusahaan) (dataframe : DataFrame)
    (expected : list string) :
  (∀ config_key company_data,
     (config_key, company_data) ∈ cfg →
     kode_perusahaan company_data ∉ processed_data_codes dataframe) →
  let r := validate_upload cfg dataframe expected in
  processed_companies r = 0 ∧
  (∀ key, key ∈ missing_companies r ↔ key ∈ expected) ∧
  company_coverage_percent r = B64.zero ∧
  status r = failed.
Proof.
  intros Hnone r.
  pose proof (no_code_no_key _ _ Hnone) as Hset.
  destruct (no_key_is_failed cfg dataframe expected Hset) as (Hzero & Hcov & Hfailed).
  split; [done|]. split; [|done].
  intros key. unfold r. rewrite missing_companies_spec, Hset.
  split; [by intros [? _]|]. intros Hkey. split; [done|]. apply not_elem_of_empty.
Qed.


End coverage_edges.

Lemma full_coverage_is_success_witness :
  Spec.ten_units ≠ [] ∧ NoDup Spec.ten_units ∧
  Validator.company_coverage_percent
    (Validator.validate_upload (Spec.config_of Spec.ten_units)
       (Spec.batch Spec.ten_units) Spec.ten_units) = B64.of_Z 100.
Proof.
  assert (Hne : Spec.ten_units ≠ []) by done.
  assert (Hnodup : NoDup Spec.ten_units).
  { apply (bool_decide_unpack (NoDup Spec.ten_units)). vm_compute. exact I. }
  assert (Hcfg : ∀ key company_data,
            (key, company_data) ∈ Spec.config_of Spec.ten_units →
            key ∈ Spec.ten_units).
  { intros key company_data Hin. apply list_elem_of_fmap in Hin as (k & Hk & Hin).
    injection Hk as -> _. exact Hin. }
  assert (Hall : ∀ key, key ∈ Spec.ten_units →
            key ∈ Validator.processed_config_keys (Spec.config_of Spec.ten_units)
                    (Spec.batch Spec.ten_units)).
  { apply Forall_forall. apply (bool_decide_unpack _). vm_compute. exact I. }
  split; [exact Hne|]. split; [exact Hnodup|].
  exact (proj1 (proj2 (proj2 (full_coverage_is_success _ _ _ Hne Hnodup Hcfg Hall)))).
Defined.

Lemma no_configured_code_is_failed_witness :
  (∀ config_key company_data,
     (config_key, company_data) ∈ Spec.config_of ["A"; "B"] →
     Validator.kode_perusahaan company_data
       ∉ Validator.processed_data_codes (Spec.batch ["X"; "Y"])) ∧
  Validator.status
    (Validator.validate_upload (Spec.config_of ["A"; "B"]) (Spec.batch ["X"; "Y"])
       ["A"; "B"]) = Validator.failed.
Proof.
  assert (Hnone : ∀ config_key company_data,
            (config_key, company_data) ∈ Spec.config_of ["A"; "B"] →
            Validator.kode_perusahaan company_data
              ∉ Validator.processed_data_codes (Spec.batch ["X"; "Y"])).
  { intros config_key company_data Hin.
    apply list_elem_of_fmap in Hin as (k & Hk & Hin). injection Hk as _ ->.
    revert k Hin. apply Forall_forall. apply (bool_decide_unpack _).
    vm_compute. exact I. }
  split; [exact Hnone|].
  exact (proj2 (proj2 (proj2 (no_configured_code_is_failed _ _ ["A"; "B"] Hnone)))).
Defined.


(** ** Extraction of the rows *)

Section extraction.
Import ExcelReader ColumnDetector Validator ConfigLoader DataProcessor.

Variable float_repr : B64.float → string.

(** [get_cell_value] lets an exception through only for an integer cell
    beyond the binary64 range. *)
Lemma get_cell_value_Raise (sheet : Sheet) (row col : Z) :
  (∃ e, get_cell_value sheet row col = Raise e) ↔
  ∃ z, cell sheet row col = Ok (VInt z) ∧ B64.is_finite (B64.of_Z z) = false.
Proof.
  unfold get_cell_value, get_cell_value_try.
  destruct (cell sheet row col) as [value|e] eqn:Hcell; cbn [mbind result_bind].
  2:{ unfold cell in Hcell. destruct (_ || _); [|done]. injection Hcell as <-.
      cbn. split; [by intros [? ?]|by intros (? & ? & _)]. }
  destruct value as [|b|z|f|s|text]; cbn [float].
  - split; [by intros [? ?]|by intros (? & ? & _)].
  - split; [by intros [? ?]|by intros (? & ? & _)].
  - unfold float_of_int. destruct (B64.is_finite (B64.of_Z z)) eqn:Hfinite.
    + split; [by intros [? ?]|]. intros (z' & [= <-] & Hz). congruence.
    + cbn. split; [|by eexists]. intros _. by exists z.
  - split; [by intros [? ?]|by intros (? & ? & _)].
  - destruct (decide (_ ∨ _)); [split; [by intros [? ?]|by intros (? & ? & _)]|].
    cbn [float]. destruct (parse_float _); cbn;
      (split; [by intros [? ?]|by intros (? & ? & _)]).
  - cbn. split; [by intros [? ?]|by intros (? & ? & _)].
Qed.

(** X13. For the four detected columns of one cost row, the reads of
    [process_sheet] are all or nothing.  When none of the four cells holds
    an integer beyond the binary64 range, the row carries the four values
    that [get_cell_value] gives; when one of them does, the
    [OverflowError] that [get_cell_value] lets through is caught for the
    whole row, and all four values are 0.0, whatever the other three
    cells hold. *)
Theorem read_row_all_or_nothing (sheet : Sheet) (row_num : Z)
    (real rkap real_sd rkap_sd : Z) :
  let columns := {| REAL_BULAN_INI := Some real; RKAP_BULAN_INI := Some rkap;
                    REAL_SD := Some real_sd; RKAP_SD := Some rkap_sd |} in
  let overflows col :=
    ∃ z, cell sheet row_num col = Ok (VInt z) ∧ B64.is_finite (B64.of_Z z) = false in
  ((∀ col, col ∈ [real; rkap; real_sd; rkap_sd] → ¬ overflows col) →
   ∃ v1 w1 v2 w2 v3 w3 v4 w4,
     get_cell_value sheet row_num real = Ok (v1, w1) ∧
     get_cell_value sheet row_num rkap = Ok (v2, w2) ∧
     get_cell_value sheet row_num real_sd = Ok (v3, w3) ∧
     get_cell_value sheet row_num rkap_sd = Ok (v4, w4) ∧
     read_row sheet row_num columns = (v1, v2, v3, v4)) ∧
  ((∃ col, col ∈ [real; rkap; real_sd; rkap_sd] ∧ overflows col) →
   read_row sheet row_num columns = (B64.zero, B64.zero, B64.zero, B64.zero)).
Proof.
  intros columns overflows. unfold read_row, columns, value_at.
  cbn [REAL_BULAN_INI RKAP_BULAN_INI REAL_SD RKAP_SD].
  assert (Hcases : ∀ col,
    (∃ v w, get_cell_value sheet row_num col = Ok (v, w) ∧ ¬ overflows col) ∨
    (∃ e, get_cell_value sheet row_num col = Raise e ∧ overflows col)).
  { intros col. pose proof (get_cell_value_Raise sheet row_num col) as Hraise.
    destruct (get_cell_value sheet row_num col) as [[v w]|e].
    - left. exists v, w. split; [done|]. intros Hover.
      apply Hraise in Hover as [? ?]. done.
    - right. exists e. split; [done|]. apply Hraise. by eexists. }
  split.
  - intros Hnone.
    destruct (Hcases real) as [(v1 & w1 & -> & _)|(? & _ & Hover)];
      [|destruct (Hnone real); [set_solver|done]].
    destruct (Hcases rkap) as [(v2 & w2 & -> & _)|(? & _ & Hover)];
      [|destruct (Hnone rkap); [set_solver|done]].
    destruct (Hcases real_sd) as [(v3 & w3 & -> & _)|(? & _ & Hover)];
      [|destruct (Hnone real_sd); [set_solver|done]].
    destruct (Hcases rkap_sd) as [(v4 & w4 & -> & _)|(? & _ & Hover)];
      [|destruct (Hnone rkap_sd); [set_solver|done]].
    by exists v1, w1, v2, w2, v3, w3, v4, w4.
  - intros (col & Hcol & Hover).
    destruct (Hcases real) as [(v1 & w1 & -> & H1)|(? & -> & _)]; [|done].
    destruct (Hcases rkap) as [(v2 & w2 & -> & H2)|(? & -> & _)]; [|done].
    destruct (Hcases real_sd) as [(v3 & w3 & -> & H3)|(? & -> & _)]; [|done].
    destruct (Hcases rkap_sd) as [(v4 & w4 & -> & H4)|(? & -> & _)]; [|done].
    repeat (apply elem_of_cons in Hcol as [->|Hcol]; [done|]).
    by apply elem_of_nil in Hcol.
Qed.


(** What [extract_rows] makes of one entry of the row mapping. *)
Lemma extract_rows_spec (sheet : Sheet) (perusahaan_data : Company)
    (period_full : string) (columns : Columns)
    (row_mapping : list (string * CostInfo)) :
  (Forall (λ entry, is_Some (int_of_str entry.1)) row_mapping →
   ∃ data_rows,
     extract_rows sheet perusahaan_data period_full columns row_mapping
       = Ok data_rows) ∧
  (∀ e, extract_rows sheet perusahaan_data period_full columns row_mapping = Raise e →
        ∃ entry, entry ∈ row_mapping ∧ int_of_str entry.1 = None) ∧
  (∀ data_rows,
     extract_rows sheet perusahaan_data period_full columns row_mapping
       = Ok data_rows →
     Forall2
       (λ entry row,
          row_holding row = holding perusahaan_data ∧
          row_kode_perusahaan row = kode_perusahaan perusahaan_data ∧
          row_periode row = period_full ∧
          row_payment_type row = payment_type entry.2 ∧
          row_cost_description row = cost_description entry.2 ∧
          ∃ row_num,
            int_of_str entry.1 = Some row_num ∧
            (row_REAL row, row_RKAP row, row_REAL_SD row, row_RKAP_SD row)
            = read_row sheet row_num columns)
       row_mapping data_rows).
Proof.
  induction row_mapping as [|[row_num_str cost_info] rest (IHtotal & IHraise & IHrows)].
  { split; [by eexists|]. split; [done|]. intros data_rows [= <-]. constructor. }
  cbn [extract_rows]. split; [|split].
  - intros [[row_num Hint] Hrest]%Forall_cons. cbn [fst] in Hint. rewrite Hint.
    destruct (read_row _ _ _) as [[[a b] c] d].
    destruct (IHtotal Hrest) as [data_rows ->]. by eexists.
  - intros e. destruct (int_of_str row_num_str) as [row_num|] eqn:Hint.
    + destruct (read_row _ _ _) as [[[a b] c] d].
      destruct (extract_rows _ _ _ _ rest) as [data_rows|e'] eqn:Hrest; [done|].
      intros _. destruct (IHraise e' eq_refl) as (entry & Hentry & Hnone).
      exists entry. split; [by right|done].
    + intros _. exists (row_num_str, cost_info). split; [left|done].
  - intros data_rows. destruct (int_of_str row_num_str) as [row_num|] eqn:Hint; [|done].
    destruct (read_row _ _ _) as [[[a b] c] d] eqn:Hread.
    destruct (extract_rows _ _ _ _ rest) as [rows|e'] eqn:Hrest; [|done].
    cbn [mbind result_bind]. intros [= <-]. constructor; [|by apply IHrows].
    cbn. repeat split; try done. by exists row_num.
Qed.

(** X14. [process_sheet] succeeds whenever the sheet exists, the columns
    are detected and every key of the row mapping is a number for
    [int()]: no cell of the sheet can make it fail.  When it succeeds it
    returns one row for each entry of the row mapping, in the order of the
    mapping, with the company's holding and code, the output period, and
    the entry's payment type and cost description.  An exception that
    leaves it is the one of [get_sheet] or of [detect_columns], or comes
    from a key that is not a number. *)
Theorem process_sheet_rows (workbook : Workbook) (config : Config)
    (sheet_name : string) (perusahaan_data : Company)
    (period_search : string) (period_full : option string) :
  (∀ sheet columns,
     get_sheet workbook sheet_name = Ok sheet →
     detect_columns float_repr sheet period_search = Ok columns →
     Forall (λ entry, is_Some (int_of_str entry.1)) (get_row_mapping config) →
     ∃ data_rows,
       process_sheet float_repr workbook config sheet_name perusahaan_data
         period_search period_full = Ok data_rows) ∧
  (∀ data_rows,
     process_sheet float_repr workbook config sheet_name perusahaan_data
       period_search period_full = Ok data_rows →
     ∃ sheet columns,
       get_sheet workbook sheet_name = Ok sheet ∧
       detect_columns float_repr sheet period_search = Ok columns ∧
       length data_rows = length (get_row_mapping config) ∧
       Forall2
         (λ entry row,
            row_holding row = holding perusahaan_data ∧
            row_kode_perusahaan row = kode_perusahaan perusahaan_data ∧
            row_periode row = default period_search period_full ∧
            row_payment_type row = payment_type entry.2 ∧
            row_cost_description row = cost_description entry.2 ∧
            ∃ row_num,
              int_of_str entry.1 = Some row_num ∧
              (row_REAL row, row_RKAP row, row_REAL_SD row, row_RKAP_SD row)
              = read_row sheet row_num columns)
         (get_row_mapping config) data_rows) ∧
  (∀ e,
     process_sheet float_repr workbook config sheet_name perusahaan_data
       period_search period_full = Raise e →
     get_sheet workbook sheet_name = Raise e ∨
     (∃ sheet, get_sheet workbook sheet_name = Ok sheet ∧
               detect_columns float_repr sheet period_search = Raise e) ∨
     (∃ entry, entry ∈ get_row_mapping config ∧ int_of_str entry.1 = None)).
Proof.
  unfold process_sheet. split; [|split].
  - intros sheet columns -> Hcolumns Hnumeric. cbn [mbind result_bind].
    rewrite Hcolumns. cbn [mbind result_bind].
    by apply extract_rows_spec.
  - intros data_rows.
    destruct (get_sheet workbook sheet_name) as [sheet|e]; [|done].
    cbn [mbind result_bind].
    destruct (detect_columns float_repr sheet period_search) as [columns|e]
      eqn:Hcolumns; [|done].
    cbn [mbind result_bind]. intros Hrows.
    apply extract_rows_spec in Hrows.
    exists sheet, columns. split; [done|]. split; [done|].
    split; [symmetry; by eapply Forall2_length|done].
  - intros e.
    destruct (get_sheet workbook sheet_name) as [sheet|e']; [|intros [= ->]; by left].
    cbn [mbind result_bind].
    destruct (detect_columns float_repr sheet period_search) as [columns|e']
      eqn:Hcolumns; [|intros [= ->]; right; left; by exists sheet].
    cbn [mbind result_bind]. intros Hraise. right. right.
    by eapply extract_rows_spec.
Qed.


(** The rows that one company adds to the result. *)
Lemma process_companies_spec (workbook : Workbook) (config : Config)
    (period_search : string) (period_full : option string)
    (perusahaan_list : Perusahaan) :
  ∀ (all_data : list DataRow) (self : Counters),
    let outcome :=
      process_companies float_repr workbook config period_search period_full
        perusahaan_list all_data self in
    let rows_of (entry : string * Company) :=
      if sheet_exists workbook (Validator.sheet_name entry.2) then
        match process_sheet float_repr workbook config
                (Validator.sheet_name entry.2) entry.2 period_search period_full with
        | Ok sheet_data => sheet_data
        | Raise _ => []
        end
      else [] in
    let processed (entry : string * Company) :=
      sheet_exists workbook (Validator.sheet_name entry.2) &&
      match process_sheet float_repr workbook config
              (Validator.sheet_name entry.2) entry.2 period_search period_full with
      | Ok _ => true
      | Raise _ => false
      end in
    let failing (entry : string * Company) :=
      sheet_exists workbook (Validator.sheet_name entry.2) &&
      match process_sheet float_repr workbook config
              (Validator.sheet_name entry.2) entry.2 period_search period_full with
      | Ok _ => false
      | Raise _ => true
      end in
    outcome.1 = (all_data ++ mjoin (rows_of <$> perusahaan_list))%list ∧
    processed_count outcome.2
    = processed_count self + Z.of_nat (length (filter (λ entry, processed entry = true) perusahaan_list)) ∧
    error_count outcome.2
    = error_count self + Z.of_nat (length (filter (λ entry, failing entry = true) perusahaan_list)) ∧
    skipped_sheets outcome.2
    = (skipped_sheets self
       ++ filter (λ name, sheet_exists workbook name = false)
                 (Validator.sheet_name <$> perusahaan_list.*2))%list.
Proof.
  induction perusahaan_list as [|[nama_perusahaan perusahaan_data] rest IH];
    intros all_data self; cbv zeta.
  { cbn. rewrite !app_nil_r, !Z.add_0_r. done. }
  cbn [process_companies fmap list_fmap mjoin list_join snd].
  rewrite (filter_cons (λ entry : string * Company, _ = true)).
  rewrite (filter_cons (λ entry : string * Company, _ = true)).
  rewrite (filter_cons (λ name : string, _ = false)).
  cbv beta. cbn [snd].
  destruct (sheet_exists workbook (Validator.sheet_name perusahaan_data)) eqn:Hexists;
    cbn [negb andb].
  - destruct (process_sheet _ _ _ _ _ _ _) as [sheet_data|e] eqn:Hsheet.
    + destruct (IH (all_data ++ sheet_data)%list
                  {| processed_count := processed_count self + 1;
                     error_count := error_count self;
                     skipped_sheets := skipped_sheets self |})
        as (Hdata & Hprocessed & Herror & Hskipped). cbv beta zeta in *.
      rewrite Hdata, Hprocessed, Herror, Hskipped.
      cbn [processed_count error_count skipped_sheets].
      rewrite decide_True by done. rewrite !decide_False by done.
      rewrite <- app_assoc. cbn [length]. split; [done|]. split; [|done].
      rewrite Nat2Z.inj_succ. unfold Z.succ. rewrite <- Z.add_assoc. f_equal.
      apply Z.add_comm.
    + destruct (IH all_data
                  {| processed_count := processed_count self;
                     error_count := error_count self + 1;
                     skipped_sheets := skipped_sheets self |})
        as (Hdata & Hprocessed & Herror & Hskipped). cbv beta zeta in *.
      rewrite Hdata, Hprocessed, Herror, Hskipped.
      cbn [processed_count error_count skipped_sheets].
      rewrite decide_False by done. rewrite decide_True by done.
      rewrite decide_False by done.
      cbn [length app]. split; [done|]. split; [done|]. split; [|done].
      rewrite Nat2Z.inj_succ. unfold Z.succ. rewrite <- Z.add_assoc. f_equal.
      apply Z.add_comm.
  - destruct (IH all_data
                {| processed_count := processed_count self;
                   error_count := error_count self;
                   skipped_sheets :=
                     (skipped_sheets self ++ [Validator.sheet_name perusahaan_data])%list |})
      as (Hdata & Hprocessed & Herror & Hskipped). cbv beta zeta in *.
    rewrite Hdata, Hprocessed, Herror, Hskipped.
    cbn [processed_count error_count skipped_sheets].
    rewrite !decide_False by done. rewrite decide_True by done.
    rewrite <- app_assoc. cbn [app]. done.
Qed.


Lemma process_sheet_length (workbook : Workbook) (config : Config)
    (sheet_name : string) (perusahaan_data : Company)
    (period_search : string) (period_full : option string)
    (sheet_data : list DataRow) :
  process_sheet float_repr workbook config sheet_name perusahaan_data
    period_search period_full = Ok sheet_data →
  length sheet_data = length (get_row_mapping config) ∧
  ∀ row, row ∈ sheet_data →
         row_kode_perusahaan row = kode_perusahaan perusahaan_data ∧
         row_holding row = holding perusahaan_data ∧
         row_periode row = default period_search period_full.
Proof.
  unfold process_sheet.
  destruct (get_sheet workbook sheet_name) as [sheet|e]; [|done].
  cbn [mbind result_bind].
  destruct (detect_columns float_repr sheet period_search) as [columns|e]; [|done].
  cbn [mbind result_bind]. intros Hrows%extract_rows_spec.
  split; [symmetry; by eapply Forall2_length|].
  assert (Hall : Forall (λ row,
            row_kode_perusahaan row = kode_perusahaan perusahaan_data ∧
            row_holding row = holding perusahaan_data ∧
            row_periode row = default period_search period_full) sheet_data).
  { eapply Forall2_Forall_r; [exact Hrows|]. apply Forall_forall.
    intros entry _ row (? & ? & ? & _). done. }
  intros row Hrow. by apply (proj1 (Forall_forall _ _) Hall).
Qed.

Lemma outcome_partition (workbook : Workbook) (config : Config)
    (period_search : string) (period_full : option string)
    (perusahaan_list : Perusahaan) :
  let rows_of (entry : string * Company) :=
    if sheet_exists workbook (Validator.sheet_name entry.2) then
      match process_sheet float_repr workbook config
              (Validator.sheet_name entry.2) entry.2 period_search period_full with
      | Ok sheet_data => sheet_data
      | Raise _ => []
      end
    else [] in
  let processed (entry : string * Company) :=
    sheet_exists workbook (Validator.sheet_name entry.2) &&
    match process_sheet float_repr workbook config
            (Validator.sheet_name entry.2) entry.2 period_search period_full with
    | Ok _ => true
    | Raise _ => false
    end in
  let failing (entry : string * Company) :=
    sheet_exists workbook (Validator.sheet_name entry.2) &&
    match process_sheet float_repr workbook config
            (Validator.sheet_name entry.2) entry.2 period_search period_full with
    | Ok _ => false
    | Raise _ => true
    end in
  (length (filter (λ entry, processed entry = true) perusahaan_list)
   + length (filter (λ entry, failing entry = true) perusahaan_list)
   + length (filter (λ name, sheet_exists workbook name = false)
                    (Validator.sheet_name <$> perusahaan_list.*2))
   = length perusahaan_list)%nat ∧
  (length (mjoin (rows_of <$> perusahaan_list))
   = length (filter (λ entry, processed entry = true) perusahaan_list)
     * length (get_row_mapping config))%nat ∧
  ∀ row, row ∈ mjoin (rows_of <$> perusahaan_list) →
         ∃ key company_data,
           (key, company_data) ∈ perusahaan_list ∧
           Validator.sheet_name company_data ∈ sheetnames workbook ∧
           row_kode_perusahaan row = kode_perusahaan company_data ∧
           row_holding row = holding company_data ∧
           row_periode row = default period_search period_full.
Proof.
  cbv zeta.
  induction perusahaan_list as [|[key company_data] rest (IHcount & IHrows & IHkode)].
  { split; [done|]. split; [done|]. by intros row ?%elem_of_nil. }
  rewrite !fmap_cons.
  match goal with
  | |- context [mjoin (?x :: ?l)] => change (mjoin (x :: l)) with (x ++ mjoin l)%list
  end.
  rewrite (filter_cons (λ entry : string * Company, _ = true)).
  rewrite (filter_cons (λ entry : string * Company, _ = true)).
  rewrite (filter_cons (λ name : string, _ = false)).
  rewrite length_app. cbv beta in *. cbn [snd]. unfold Perusahaan in *.
  destruct (sheet_exists workbook (Validator.sheet_name company_data)) eqn:Hexists;
    cbn [andb].
  - destruct (process_sheet _ _ _ _ _ _ _) as [sheet_data|e] eqn:Hsheet.
    + apply process_sheet_length in Hsheet as [Hlength Hfields].
      rewrite decide_True by done. rewrite !decide_False by done.
      cbn [length]. split; [lia|]. split; [by rewrite Hlength, IHrows|].
      intros row [Hrow|Hrow]%elem_of_app.
      * exists key, company_data. split; [left|].
        split; [by apply bool_decide_eq_true in Hexists|]. by apply Hfields.
      * destruct (IHkode row Hrow) as (k & c & Hin & Hrest).
        exists k, c. split; [by right|done].
    + rewrite decide_False by done. rewrite decide_True by done.
      rewrite decide_False by done. cbn [length app]. split; [lia|]. split; [lia|].
      intros row Hrow. destruct (IHkode row Hrow) as (k & c & Hin & Hrest).
      exists k, c. split; [by right|done].
  - rewrite !decide_False by done. rewrite decide_True by done.
    cbn [length app]. split; [lia|]. split; [lia|].
    intros row Hrow. destruct (IHkode row Hrow) as (k & c & Hin & Hrest).
    exists k, c. split; [by right|done].
Qed.


Lemma process_all_sheets_rows (workbook : Workbook) (config : Config)
    (self : Counters) (period_search : string) (period_full : option string) :
  ∀ row,
    row ∈ (process_all_sheets float_repr workbook config self
             period_search period_full).1 →
    ∃ key company_data,
      (key, company_data) ∈ get_perusahaan config ∧
      Validator.sheet_name company_data ∈ sheetnames workbook ∧
      row_kode_perusahaan row = kode_perusahaan company_data ∧
      row_holding row = holding company_data ∧
      row_periode row = default period_search period_full.
Proof.
  unfold process_all_sheets.
  destruct (process_companies_spec workbook config period_search
              (Some (default period_search period_full)) (get_perusahaan config)
              [] self) as (Hdata & _).
  destruct (outcome_partition workbook config period_search
              (Some (default period_search period_full)) (get_perusahaan config))
    as (_ & _ & Hfields).
  cbv zeta beta in *. rewrite Hdata. exact Hfields.
Qed.


(** X15. [process_all_sheets] accounts for every configured company once:
    the sheets processed, the sheets failed and the sheets skipped by one
    run add up to the number of configured companies, and the sheets
    skipped are the configured sheet names that the workbook lacks.  The
    list returned has as many rows as sheets processed times entries of
    the row mapping, and every row carries the code and holding of a
    configured company whose sheet is in the workbook, and the output
    period. *)
Theorem process_all_sheets_accounts (workbook : Workbook) (config : Config)
    (self : Counters) (period_search : string) (period_full : option string) :
  let outcome :=
    process_all_sheets float_repr workbook config self period_search period_full in
  let all_data := outcome.1 in
  let processed := processed_count outcome.2 - processed_count self in
  let errors := error_count outcome.2 - error_count self in
  (∃ skipped,
     skipped_sheets outcome.2 = (skipped_sheets self ++ skipped)%list ∧
     processed + errors + Z.of_nat (length skipped) = get_companies_count config ∧
     ∀ name, name ∈ skipped ↔
             name ∈ get_all_sheet_names config ∧ name ∉ sheetnames workbook) ∧
  0 ≤ processed ∧ 0 ≤ errors ∧
  Z.of_nat (length all_data)
  = processed * Z.of_nat (length (get_row_mapping config)) ∧
  ∀ row, row ∈ all_data →
         ∃ key company_data,
           (key, company_data) ∈ get_perusahaan config ∧
           Validator.sheet_name company_data ∈ sheetnames workbook ∧
           row_kode_perusahaan row = kode_perusahaan company_data ∧
           row_holding row = holding company_data ∧
           row_periode row = default period_search period_full.
Proof.
  cbv zeta. unfold process_all_sheets.
  destruct (process_companies_spec workbook config period_search
              (Some (default period_search period_full)) (get_perusahaan config)
              [] self) as (Hdata & Hprocessed & Herrors & Hskipped).
  destruct (outcome_partition workbook config period_search
              (Some (default period_search period_full)) (get_perusahaan config))
    as (Hcount & Hrows & Hfields).
  cbv zeta beta in *. unfold Perusahaan in *.
  rewrite Hdata, Hprocessed, Herrors, Hskipped. cbn [app].
  split.
  { eexists. split; [reflexivity|]. split.
    - unfold get_companies_count. lia.
    - intros name. rewrite list_elem_of_filter. unfold get_all_sheet_names.
      unfold sheet_exists. rewrite bool_decide_eq_false. tauto. }
  split; [lia|]. split; [lia|]. split; [rewrite Hrows; lia|].
  exact Hfields.
Qed.


Lemma NoDup_fst_unique {A B} (l : list (A * B)) (k : A) (v v' : B) :
  NoDup l.*1 → (k, v) ∈ l → (k, v') ∈ l → v = v'.
Proof.
  induction l as [|[k0 v0] l IH]; [by intros _ ?%elem_of_nil|].
  rewrite fmap_cons. cbn [fst]. intros [Hk0 Hnodup]%NoDup_cons Hin Hin'.
  assert (Hkey : ∀ w, (k0, w) ∈ l → False).
  { intros w Hw. apply Hk0, list_elem_of_fmap. by exists (k0, w). }
  apply elem_of_cons in Hin as [Heq|Hin], Hin' as [Heq'|Hin'].
  - congruence.
  - injection Heq as -> _. by destruct (Hkey v').
  - injection Heq' as -> _. by destruct (Hkey v).
  - by apply IH.
Qed.

(** X16. The upload route validates the rows that [process_all_sheets]
    returns unless there is none: an empty list of rows makes it raise
    before the validation step, and only then.  For a configuration with
    distinct keys the validation expects as many units as are configured,
    never counts more processed than expected units, and never reports a
    coverage above 100; a configured unit is reported missing when neither
    its sheet nor the sheet of any unit with the same code is in the
    workbook. *)
Theorem upload_validation (workbook : Workbook) (config : Config)
    (self : Counters) (period_search : string) (period_full : option string) :
  NoDup (get_perusahaan config).*1 →
  let result :=
    (process_all_sheets float_repr workbook config self period_search period_full).1 in
  (CostRoute.validation_result config result = None ↔ result = []) ∧
  (∀ r, CostRoute.validation_result config result = Some r →
        total_companies r = get_companies_count config ∧
        processed_companies r ≤ total_companies r ∧
        B64.leb (company_coverage_percent r) (B64.of_Z 100) = true ∧
        (∀ key company_data,
           (key, company_data) ∈ get_perusahaan config →
           (∀ key' company_data',
              (key', company_data') ∈ get_perusahaan config →
              kode_perusahaan company_data' = kode_perusahaan company_data →
              Validator.sheet_name company_data' ∉ sheetnames workbook) →
           key ∈ missing_companies r)).
Proof.
  intros Hnodup result.
  split; [unfold CostRoute.validation_result; by destruct result|].
  intros r0 Hr0.
  pose proof (process_all_sheets_rows workbook config self period_search period_full)
    as Hrows. fold result in Hrows.
  set (cfg := get_perusahaan config) in *.
  set (df := CostRoute.DataFrame_of result).
  set (r := validate_upload cfg df cfg.*1).
  assert (r0 = r) as ->.
  { unfold CostRoute.validation_result in Hr0. fold cfg in Hr0.
    destruct result; [done|]. by injection Hr0 as <-. }
  clear Hr0.
  assert (Hcodes : ∀ code, code ∈ processed_data_codes df →
            ∃ row, row ∈ result ∧ row_kode_perusahaan row = code).
  { intros code. unfold processed_data_codes.
    destruct (_ && _); [|by intros ?%elem_of_empty].
    rewrite elem_of_list_to_set. unfold df. cbn [kode_column CostRoute.DataFrame_of].
    intros (row & -> & Hrow)%list_elem_of_fmap. by exists row. }
  assert (Hsub : processed_config_keys cfg df ⊆ list_to_set cfg.*1).
  { intros key [c Hc]%processed_config_keys_in_config.
    apply elem_of_list_to_set, list_elem_of_fmap. by exists (key, c). }
  assert (Hsize : size (list_to_set cfg.*1 : gset string) = length cfg.*1)
    by by apply size_list_to_set.
  assert (Hle : processed_companies r ≤ total_companies r).
  { unfold r. cbn. rewrite <- Hsize. apply inj_le. by apply subseteq_size. }
  split; [unfold r, get_companies_count; cbn; by rewrite length_fmap|].
  split; [exact Hle|]. split.
  - unfold r. rewrite coverage_percent_eq.
    destruct (Z.ltb_spec 0 (Z.of_nat (length cfg.*1))) as [Hpos|Hzero]; [|done].
    apply coverage_le_100; [|done]. split; [lia|]. exact Hle.
  - intros key c Hin Hnosheet. unfold r.
    apply missing_companies_spec. split.
    { apply list_elem_of_fmap. by exists (key, c). }
    intros (code & Hcode & Hlookup & _)%elem_of_processed_config_keys.
    apply build_maps_code in Hlookup as (c0 & Hc0 & <-).
    assert (c0 = c) as -> by by eapply NoDup_fst_unique.
    destruct (Hcodes _ Hcode) as (row & Hrow & Hkode).
    destruct (Hrows row Hrow) as (key' & c' & Hin' & Hsheet & Hkode' & _).
    destruct (Hnosheet key' c' Hin'); [congruence|done].
Qed.

End extraction.

Lemma upload_validation_witness :
  let result :=
    (DataProcessor.process_all_sheets Spec.repr_unused Spec.scenario_workbook
       Spec.scenario_config DataProcessor.init "2024-12" None).1 in
  NoDup (ConfigLoader.get_perusahaan Spec.scenario_config).*1 ∧
  ∃ r, CostRoute.validation_result Spec.scenario_config result = Some r ∧
       "B" ∈ Validator.missing_companies r.
Proof.
  intros result.
  assert (Hnodup : NoDup (ConfigLoader.get_perusahaan Spec.scenario_config).*1).
  { apply (bool_decide_unpack _). vm_compute. exact I. }
  split; [exact Hnodup|].
  destruct (upload_validation Spec.repr_unused Spec.scenario_workbook
              Spec.scenario_config DataProcessor.init "2024-12" None Hnodup)
    as [Hnone Hsome].
  fold result in Hnone, Hsome.
  destruct (CostRoute.validation_result Spec.scenario_config result) as [r|] eqn:Hr.
  - exists r. split; [reflexivity|].
    destruct (Hsome r eq_refl) as (_ & _ & _ & Hmissing).
    apply (Hmissing "B" (Spec.company "B").2).
    + right. left.
    + intros key company_data Hin Hkode.
      apply elem_of_cons in Hin as [Heq|Hin].
      { injection Heq as _ ->. discriminate Hkode. }
      apply list_elem_of_singleton in Hin. injection Hin as _ ->.
      apply (bool_decide_unpack _). vm_compute. exact I.
  - exfalso. pose proof (proj1 Hnone eq_refl) as Hempty.
    vm_compute in Hempty. discriminate Hempty.
Defined.

(** ** Checks on the extracted rows *)

Section data_checks.
Import DataProcessor.

Lemma validate_data_fold (data : list DataRow) (m n z : Z) :
  fold_left
    (λ '(missing_values, negative_values, zero_rows) row,
       (if has_missing row then missing_values + 1 else missing_values,
        if has_negative row then negative_values + 1 else negative_values,
        if all_zero row then zero_rows + 1 else zero_rows))
    data (m, n, z)
  = (m + Z.of_nat (length (filter (λ row, has_missing row = true) data)),
     n + Z.of_nat (length (filter (λ row, has_negative row = true) data)),
     z + Z.of_nat (length (filter (λ row, all_zero row = true) data))).
Proof.
  revert m n z. induction data as [|row data IH]; intros m n z.
  { cbn. by rewrite !Z.add_0_r. }
  cbn [fold_left]. rewrite IH.
  rewrite (filter_cons (λ row, has_missing row = true)).
  rewrite (filter_cons (λ row, has_negative row = true)).
  rewrite (filter_cons (λ row, all_zero row = true)).
  destruct (has_missing row), (has_negative row), (all_zero row);
    repeat case_decide; try done; cbn [length];
    (apply pair_equal_spec; split; [apply pair_equal_spec; split|]); lia.
Qed.

Lemma negative_not_zero (row : DataRow) :
  has_negative row = true → all_zero row = false.
Proof.
  unfold has_negative, all_zero, numeric_fields. cbn [existsb forallb].
  assert (Hlt : ∀ x y, B64.ltb x y = true → B64.eqb x y = false).
  { intros x y. unfold B64.ltb, B64.eqb, SFltb, SFeqb.
    by destruct (SFcompare x y) as [[]|]. }
  rewrite !orb_true_iff. intros [H|[H|[H|[H|H]]]]; try done;
    apply Hlt in H; rewrite H; by rewrite ?andb_false_r.
Qed.

Lemma filter_disjoint_length {A} (P Q : A → Prop)
    `{∀ x, Decision (P x)} `{∀ x, Decision (Q x)} (l : list A) :
  (∀ x, P x → ¬ Q x) →
  (length (filter P l) + length (filter Q l) ≤ length l)%nat.
Proof.
  intros Hdisjoint. induction l as [|x l IH]; [done|].
  rewrite !filter_cons. destruct (decide (P x)) as [HP|HP].
  - rewrite decide_False by by apply Hdisjoint. cbn [length]. lia.
  - destruct (decide (Q x)); cbn [length]; lia.
Qed.

(** X17. [validate_data] counts each row at most once per check: the rows
    with a missing text field are at most the total, and a row with a
    negative value is never a zero row, so the negative rows and the zero
    rows together are at most the total.  No missing value is counted
    exactly when every row has its five text fields non-empty, no
    negative value exactly when no row has a value below zero, and the
    data is valid exactly when both counts are zero. *)
Theorem validate_data_counts (data : list DataRow) :
  let issues := validate_data data in
  total_rows issues = Z.of_nat (length data) ∧
  0 ≤ missing_values issues ≤ total_rows issues ∧
  0 ≤ negative_values issues ∧ 0 ≤ zero_rows issues ∧
  negative_values issues + zero_rows issues ≤ total_rows issues ∧
  (missing_values issues = 0 ↔
   ∀ row, row ∈ data →
          row_holding row ≠ "" ∧ row_kode_perusahaan row ≠ "" ∧
          row_periode row ≠ "" ∧ row_payment_type row ≠ "" ∧
          row_cost_description row ≠ "") ∧
  (negative_values issues = 0 ↔
   ∀ row, row ∈ data →
          B64.ltb (row_REAL row) B64.zero = false ∧
          B64.ltb (row_RKAP row) B64.zero = false ∧
          B64.ltb (row_REAL_SD row) B64.zero = false ∧
          B64.ltb (row_RKAP_SD row) B64.zero = false) ∧
  (is_valid issues = true ↔
   missing_values issues = 0 ∧ negative_values issues = 0).
Proof.
  intros issues. unfold issues, validate_data.
  rewrite validate_data_fold. cbn [total_rows missing_values negative_values
                                   zero_rows is_valid]. rewrite !Z.add_0_l.
  pose proof (length_filter (λ row, has_missing row = true) data) as Hmissing.
  pose proof (filter_disjoint_length (λ row, has_negative row = true)
                (λ row, all_zero row = true) data) as Hdisjoint.
  assert (Hcount : ∀ (P : DataRow → Prop) `{∀ row, Decision (P row)},
            Z.of_nat (length (filter P data)) = 0 ↔ ∀ row, row ∈ data → ¬ P row).
  { intros P HP. split.
    - intros Hzero row Hrow HProw.
      assert (Hin : row ∈ filter P data) by by apply list_elem_of_filter.
      destruct (filter P data); [by apply elem_of_nil in Hin|]. cbn in Hzero. lia.
    - intros Hnone. destruct (filter P data) as [|row rest] eqn:Hfilter; [done|].
      assert (Hin : row ∈ filter P data) by (rewrite Hfilter; left).
      apply list_elem_of_filter in Hin as [HProw Hin]. by destruct (Hnone row). }
  split; [done|]. split; [lia|]. split; [lia|]. split; [lia|].
  split.
  { assert (Hboth : ∀ row, has_negative row = true → ¬ all_zero row = true).
    { intros row Hneg%negative_not_zero. congruence. }
    specialize (Hdisjoint Hboth). lia. }
  split; [|split].
  - rewrite Hcount. apply forall_proper. intros row.
    apply forall_proper. intros _.
    unfold has_missing, nonempty. cbn [forallb]. rewrite andb_true_r.
    repeat case_bool_decide; cbn; intuition congruence.
  - rewrite Hcount. apply forall_proper. intros row.
    apply forall_proper. intros _.
    unfold has_negative, numeric_fields. cbn [existsb]. rewrite orb_false_r.
    change (B64.of_Z 0) with B64.zero.
    destruct (B64.ltb (row_REAL row) B64.zero), (B64.ltb (row_RKAP row) B64.zero),
      (B64.ltb (row_REAL_SD row) B64.zero), (B64.ltb (row_RKAP_SD row) B64.zero);
      cbn; intuition congruence.
  - rewrite andb_true_iff, !Z.eqb_eq. done.
Qed.

End data_checks.

(** ** The configuration *)

Section configuration.
Import Validator ConfigLoader.

(** [List.find] returns the first element that passes the test. *)
Lemma find_first {A} (f : A → bool) (l : list A) (x : A) :
  List.find f l = Some x ↔
  ∃ before after, l = (before ++ x :: after)%list ∧ f x = true ∧
                  ∀ y, y ∈ before → f y = false.
Proof.
  induction l as [|a l IH]; cbn [List.find].
  { split; [done|]. intros (before & after & Heq & _). by destruct before. }
  destruct (f a) eqn:Ha.
  - split.
    + intros [= ->]. exists [], l. split; [done|]. split; [done|].
      by intros y ?%elem_of_nil.
    + intros ([|b before] & after & Heq & Hx & Hbefore).
      * by injection Heq as -> _.
      * injection Heq as -> _. rewrite Hbefore in Ha by left. done.
  - rewrite IH. split.
    + intros (before & after & -> & Hx & Hbefore).
      exists (a :: before), after. split; [done|]. split; [done|].
      intros y [->|Hy]%elem_of_cons; [done|by apply Hbefore].
    + intros ([|b before] & after & Heq & Hx & Hbefore).
      * injection Heq as -> _. congruence.
      * injection Heq as -> ->. exists before, after. split; [done|].
        split; [done|]. intros y Hy. apply Hbefore. by right.
Qed.

Lemma find_none {A} (f : A → bool) (l : list A) :
  List.find f l = None ↔ ∀ y, y ∈ l → f y = false.
Proof.
  induction l as [|a l IH]; cbn [List.find].
  { split; [by intros _ y ?%elem_of_nil|done]. }
  destruct (f a) eqn:Ha.
  - split; [done|]. intros Hall. rewrite Hall in Ha by left. done.
  - rewrite IH. split.
    + intros Hall y [->|Hy]%elem_of_cons; [done|by apply Hall].
    + intros Hall y Hy. apply Hall. by right.
Qed.

(** X18. The lookup of a company by sheet name and the lookup by code
    each return the first company of the configuration that matches, and
    [None] exactly when none does.  The coverage table of the validator keeps the last
    company of a code instead: when two companies share a non-empty code,
    [get_perusahaan_by_kode] returns the earlier one while the validator
    maps the code to the key of the later one. *)
Theorem config_lookups (config : Config) :
  (∀ sheet_name,
     get_perusahaan_by_sheet config sheet_name = None ↔
     sheet_name ∉ get_all_sheet_names config) ∧
  (∀ sheet_name company_data,
     get_perusahaan_by_sheet config sheet_name = Some company_data ↔
     ∃ before after,
       (get_perusahaan config).*2 = (before ++ company_data :: after)%list ∧
       Validator.sheet_name company_data = sheet_name ∧
       ∀ earlier, earlier ∈ before → Validator.sheet_name earlier ≠ sheet_name) ∧
  (∀ kode,
     get_perusahaan_by_kode config kode = None ↔
     ∀ key company_data, (key, company_data) ∈ get_perusahaan config →
                         kode_perusahaan company_data ≠ kode) ∧
  (∀ kode company_data,
     get_perusahaan_by_kode config kode = Some company_data ↔
     ∃ before after,
       (get_perusahaan config).*2 = (before ++ company_data :: after)%list ∧
       kode_perusahaan company_data = kode ∧
       ∀ earlier, earlier ∈ before → kode_perusahaan earlier ≠ kode) ∧
  (∀ before key company_data between later_key later_company after,
     get_perusahaan config
     = (before ++ (key, company_data)
          :: (between ++ (later_key, later_company) :: after))%list →
     kode_perusahaan company_data ≠ "" →
     kode_perusahaan later_company = kode_perusahaan company_data →
     (∀ entry, entry ∈ before →
               kode_perusahaan entry.2 ≠ kode_perusahaan company_data) →
     (∀ entry, entry ∈ after →
               kode_perusahaan entry.2 ≠ kode_perusahaan company_data) →
     get_perusahaan_by_kode config (kode_perusahaan company_data)
       = Some company_data ∧
     (build_maps (get_perusahaan config)).1 !! kode_perusahaan company_data
       = Some later_key).
Proof.
  split; [|split; [|split; [|split]]].
  - intros name. unfold get_perusahaan_by_sheet, get_all_sheet_names.
    rewrite find_none, list_elem_of_fmap. split.
    + intros Hall (c & -> & Hc). specialize (Hall c Hc).
      by apply bool_decide_eq_false in Hall.
    + intros Hnone c Hc. apply bool_decide_eq_false. intros Heq.
      apply Hnone. by exists c.
  - intros name c. unfold get_perusahaan_by_sheet. rewrite find_first.
    apply exist_proper. intros before. apply exist_proper. intros after.
    rewrite bool_decide_eq_true.
    assert (Hbefore :
              (∀ y, y ∈ before → bool_decide (Validator.sheet_name y = name) = false)
              ↔ ∀ earlier, earlier ∈ before → Validator.sheet_name earlier ≠ name).
    { apply forall_proper. intros y. by rewrite bool_decide_eq_false. }
    by rewrite Hbefore.
  - intros kode. unfold get_perusahaan_by_kode. rewrite find_none. split.
    + intros Hall key c Hin. apply (bool_decide_eq_false _), Hall.
      apply list_elem_of_fmap. by exists (key, c).
    + intros Hnone c ([key c'] & -> & Hin)%list_elem_of_fmap.
      apply bool_decide_eq_false. by eapply Hnone.
  - intros kode c. unfold get_perusahaan_by_kode. rewrite find_first.
    apply exist_proper. intros before. apply exist_proper. intros after.
    rewrite bool_decide_eq_true.
    assert (Hbefore : (∀ y, y ∈ before → bool_decide (kode_perusahaan y = kode) = false)
              ↔ ∀ earlier, earlier ∈ before → kode_perusahaan earlier ≠ kode).
    { apply forall_proper. intros y. by rewrite bool_decide_eq_false. }
    by rewrite Hbefore.
  - intros before key c between key2 c2 after Hcfg Hne Hkode Hbefore Hafter.
    split.
    + unfold get_perusahaan_by_kode. apply find_first.
      exists before.*2, (between.*2 ++ c2 :: after.*2)%list.
      split; [by rewrite Hcfg, fmap_app, fmap_cons, fmap_app, fmap_cons|].
      split; [by apply bool_decide_eq_true|].
      intros y ([k y'] & -> & Hin)%list_elem_of_fmap.
      apply bool_decide_eq_false. by apply (Hbefore (k, y')).
    + apply build_maps_lookup.
      exists (before ++ (key, c) :: between)%list, c2, after.
      split; [by rewrite Hcfg, <- app_assoc|]. split; [done|]. split; [done|].
      exact Hafter.
Qed.


Lemma holding_counts_fold (l : list Company) (m : gmap string Z) (h : string) :
  fold_left
    (λ (holding_counts : gmap string Z) p,
       let holding := holding p in
       <[holding := default 0 (holding_counts !! holding) + 1]> holding_counts)
    l m !! h
  = match length (filter (λ p, holding p = h) l) with
    | O => m !! h
    | S n => Some (default 0 (m !! h) + Z.of_nat (S n))
    end.
Proof.
  revert m. induction l as [|p l IH]; intros m; [done|].
  cbn [fold_left]. rewrite IH. cbv zeta. rewrite filter_cons.
  destruct (decide (holding p = h)) as [->|Hne].
  - rewrite lookup_insert_eq. cbn [default length].
    destruct (length (filter _ l)) as [|n]; f_equal; unfold id; lia.
  - rewrite lookup_insert_ne by done. done.
Qed.

Lemma payment_type_counts (l : list CostInfo) :
  (length (filter (λ r, payment_type r = "CASH") l)
   + length (filter (λ r, payment_type r = "NON CASH") l) ≤ length l)%nat ∧
  ((length (filter (λ r, payment_type r = "CASH") l)
    + length (filter (λ r, payment_type r = "NON CASH") l) = length l)%nat ↔
   ∀ r, r ∈ l → payment_type r = "CASH" ∨ payment_type r = "NON CASH").
Proof.
  induction l as [|r l [IHle IHeq]].
  { split; [done|]. split; [by intros _ r ?%elem_of_nil|done]. }
  rewrite !filter_cons.
  destruct (decide (payment_type r = "CASH")) as [Hcash|Hcash].
  - rewrite decide_False by (rewrite Hcash; done). cbn [length].
    split; [lia|]. split.
    + intros Heq r' [->|Hr']%elem_of_cons; [by left|]. apply IHeq; [lia|done].
    + intros Hall. assert (Hrest : ∀ r', r' ∈ l → _) by (intros r' Hr'; apply Hall; by right).
      apply IHeq in Hrest. lia.
  - destruct (decide (payment_type r = "NON CASH")) as [Hnon|Hnon]; cbn [length].
    + split; [lia|]. split.
      * intros Heq r' [->|Hr']%elem_of_cons; [by right|]. apply IHeq; [lia|done].
      * intros Hall.
        assert (Hrest : ∀ r', r' ∈ l → _) by (intros r' Hr'; apply Hall; by right).
        apply IHeq in Hrest. lia.
    + split; [lia|]. split; [lia|]. intros Hall.
      destruct (Hall r) as [?|?]; [left|done|done].
Qed.

(** X19. In the [dict] returned by [summary], the number of companies is
    the number of configured companies and of sheet names; the holdings
    are in ascending order, without duplicate, and are exactly the
    holdings of the configured companies; [holding_counts] has an entry
    for exactly these holdings, each the positive number of companies of
    that holding; and the CASH and NON CASH items together are at most
    the row mappings, and all of them exactly when every payment type is
    one of the two. *)
Theorem summary_counts (config : Config) :
  let s := summary config in
  total_perusahaan s = get_companies_count config ∧
  Z.of_nat (length (sheet_names s)) = total_perusahaan s ∧
  StronglySorted String.le (holdings s) ∧
  NoDup (holdings s) ∧
  (∀ h, h ∈ holdings s ↔
        ∃ key company_data,
          (key, company_data) ∈ get_perusahaan config ∧ holding company_data = h) ∧
  (∀ h n, holding_counts s !! h = Some n ↔
          0 < n ∧
          n = Z.of_nat (length (filter (λ p, holding p = h)
                                       (get_perusahaan config).*2))) ∧
  (∀ h, h ∈ holdings s ↔ is_Some (holding_counts s !! h)) ∧
  cash_items s + non_cash_items s ≤ total_row_mappings s ∧
  (cash_items s + non_cash_items s = total_row_mappings s ↔
   ∀ key cost_info,
     (key, cost_info) ∈ get_row_mapping config →
     payment_type cost_info = "CASH" ∨ payment_type cost_info = "NON CASH").
Proof.
  intros s.
  destruct (sorted_spec (elements (list_to_set
              (holding <$> (get_perusahaan config).*2) : gset string)))
    as [Hsorted Hperm].
  assert (Hholdings : ∀ h, h ∈ holdings s ↔
            ∃ key c, (key, c) ∈ get_perusahaan config ∧ holding c = h).
  { intros h. unfold s, summary, get_holdings. cbn [holdings].
    rewrite Hperm, elem_of_elements, elem_of_list_to_set, list_elem_of_fmap.
    split.
    - intros (c & -> & ([key c'] & -> & Hin)%list_elem_of_fmap). by exists key, c'.
    - intros (key & c & Hin & <-). exists c. split; [done|].
      apply list_elem_of_fmap. by exists (key, c). }
  assert (Hcounts : ∀ h n, holding_counts s !! h = Some n ↔
            0 < n ∧
            n = Z.of_nat (length (filter (λ p, holding p = h)
                                         (get_perusahaan config).*2))).
  { intros h n. unfold s, summary. cbn [holding_counts].
    rewrite holding_counts_fold, lookup_empty. cbn [default].
    destruct (length (filter _ _)) as [|k]; [split; [done|lia]|].
    rewrite Z.add_0_l. split; [intros [= <-]; lia|]. by intros [_ ->]. }
  split; [done|].
  split; [unfold s, summary, get_all_sheet_names; cbn; by rewrite !length_fmap|].
  split; [done|].
  split; [unfold s, summary, get_holdings; cbn [holdings]; rewrite Hperm;
          apply NoDup_elements|].
  split; [done|]. split; [done|]. split.
  { intros h. rewrite Hholdings. split.
    - intros (key & c & Hin & Hh). eexists. apply Hcounts. split; [|done].
      assert (Hc : c ∈ filter (λ p, holding p = h) (get_perusahaan config).*2).
      { apply list_elem_of_filter. split; [done|].
        apply list_elem_of_fmap. by exists (key, c). }
      destruct (filter _ _); [by apply elem_of_nil in Hc|]. cbn [length]. lia.
    - intros [n [Hpos Hn]%Hcounts].
      destruct (filter _ _) as [|c rest] eqn:Hfilter; [cbn in Hn; lia|].
      assert (Hc : c ∈ filter (λ p, holding p = h) (get_perusahaan config).*2)
        by (rewrite Hfilter; left).
      apply list_elem_of_filter in Hc as [Hh ([key c'] & -> & Hin)%list_elem_of_fmap].
      by exists key, c'. }
  destruct (payment_type_counts (get_row_mapping config).*2) as [Hle Heq].
  unfold s, summary, count_payment_type.
  cbn [cash_items non_cash_items total_row_mappings].
  rewrite length_fmap in Hle, Heq.
  split; [lia|]. split.
  - intros Hsum key info Hin. apply Heq; [lia|].
    apply list_elem_of_fmap. by exists (key, info).
  - intros Hall.
    assert (Hvalues : ∀ r, r ∈ (get_row_mapping config).*2 →
              payment_type r = "CASH" ∨ payment_type r = "NON CASH").
    { intros r ([key r'] & -> & Hin)%list_elem_of_fmap. by eapply Hall. }
    apply Heq in Hvalues. lia.
Qed.

End configuration.

(** ** Letter case and the workbook *)

Section letter_case.
Import ExcelReader.

Lemma lower_upper_char (c : ascii) :
  Py.lower_char (Py.upper_char c) = Py.lower_char c ∧
  Py.upper_char (Py.lower_char c) = Py.upper_char c ∧
  Py.lower_char (Py.lower_char c) = Py.lower_char c ∧
  Py.upper_char (Py.upper_char c) = Py.upper_char c.
Proof. destruct c as [[] [] [] [] [] [] [] []]; by vm_compute. Qed.

Lemma case_keeps_char (c : ascii) :
  Py.is_space (Py.upper_char c) = Py.is_space c ∧
  Py.is_space (Py.lower_char c) = Py.is_space c ∧
  Py.is_digit (Py.upper_char c) = Py.is_digit c ∧
  Py.is_digit (Py.lower_char c) = Py.is_digit c ∧
  (Py.is_digit c = true → Py.upper_char c = c ∧ Py.lower_char c = c).
Proof. destruct c as [[] [] [] [] [] [] [] []]; by vm_compute. Qed.

Lemma map_chars_compose (f g h : ascii → ascii) (s : string) :
  (∀ c, f (g c) = h c) → Py.map_chars f (Py.map_chars g s) = Py.map_chars h s.
Proof. intros Hfg. induction s as [|c s IH]; [done|]. cbn. by rewrite Hfg, IH. Qed.

Lemma lstrip_map_chars (f : ascii → ascii) (s : string) :
  (∀ c, Py.is_space (f c) = Py.is_space c) →
  Py.lstrip (Py.map_chars f s) = Py.map_chars f (Py.lstrip s).
Proof.
  intros Hf. induction s as [|c s IH]; [done|]. cbn. rewrite Hf.
  by destruct (Py.is_space c).
Qed.

Lemma rstrip_map_chars (f : ascii → ascii) (s : string) :
  (∀ c, Py.is_space (f c) = Py.is_space c) →
  Py.rstrip (Py.map_chars f s) = Py.map_chars f (Py.rstrip s).
Proof.
  intros Hf. induction s as [|c s IH]; [done|]. cbn. rewrite IH, Hf.
  destruct (Py.rstrip s); cbn; [by destruct (Py.is_space c)|done].
Qed.

Lemma strip_map_chars (f : ascii → ascii) (s : string) :
  (∀ c, Py.is_space (f c) = Py.is_space c) →
  Py.strip (Py.map_chars f s) = Py.map_chars f (Py.strip s).
Proof.
  intros Hf. unfold Py.strip. by rewrite lstrip_map_chars, rstrip_map_chars.
Qed.

Lemma decimal_map_chars (f : ascii → ascii) (s : string) :
  (∀ c, Py.is_digit (f c) = Py.is_digit c) →
  (∀ c, Py.is_digit c = true → f c = c) →
  Py.decimal (Py.map_chars f s) =
  match Py.decimal s with
  | Some (d, rest) => Some (d, Py.map_chars f rest)
  | None => None
  end.
Proof.
  intros Hdigit Hkeep. destruct s as [|c s]; [done|]. cbn. rewrite Hdigit.
  destruct (Py.is_digit c) eqn:Hc; [|done]. by rewrite Hkeep.
Qed.

Lemma match_year_map_chars (f : ascii → ascii) (s : string) :
  (∀ c, Py.is_digit (f c) = Py.is_digit c) →
  (∀ c, Py.is_digit c = true → f c = c) →
  match_year (Py.map_chars f s) = match_year s.
Proof.
  intros Hdigit Hkeep.
  assert (Heqb : ∀ c d, Py.is_digit d = true → Ascii.eqb (f c) d = Ascii.eqb c d).
  { intros c d Hd. destruct (Ascii.eqb_spec c d) as [->|Hne].
    - rewrite Hkeep by done. apply Ascii.eqb_refl.
    - apply Ascii.eqb_neq. intros Heq. apply Hne.
      rewrite <- Heq. symmetry. apply Hkeep. by rewrite <- Hdigit, Heq. }
  destruct s as [|c1 [|c2 rest]]; try done.
  unfold match_year. cbn [Py.map_chars Unicode.match_year].
  rewrite !Heqb by done.
  destruct (Ascii.eqb c1 "2" && Ascii.eqb c2 "0"); [|done].
  rewrite decimal_map_chars by done.
  destruct (Py.decimal rest) as [[d1 rest1]|]; [|done].
  rewrite decimal_map_chars by done.
  by destruct (Py.decimal rest1) as [[d2 rest2]|].
Qed.

Lemma extract_year_map_chars (f : ascii → ascii) (s : string) :
  (∀ c, Py.is_digit (f c) = Py.is_digit c) →
  (∀ c, Py.is_digit c = true → f c = c) →
  _extract_year (Py.map_chars f s) = _extract_year s.
Proof.
  intros Hdigit Hkeep. unfold _extract_year.
  induction s as [|c s IH]; [done|].
  change (Py.map_chars f (String c s)) with (String (f c) (Py.map_chars f s)).
  cbn [Unicode._extract_year].
  change (String (f c) (Py.map_chars f s)) with (Py.map_chars f (String c s)).
  change (Unicode.match_year Py.decimal) with match_year.
  rewrite match_year_map_chars by done. by rewrite IH.
Qed.

(** X20. On ASCII text header recognition ignores the case of letters:
    writing a cell's text in capitals or in small letters changes neither
    the month, the year nor the cumulative flag read from its stripped
    text, nor the upper-cased text in which the type row is searched for
    "REAL" and "RKAP".  ASCII text is where [str.upper], [str.lower] and
    [str.strip] act as [Py.upper], [Py.lower] and [Py.strip]; outside it
    the property fails, [str.upper] turning the long s into "S". *)
Theorem header_case_insensitive (value : string) :
  Py.isascii value = true →
  let header_text := Py.strip value in
  (_extract_month (Py.strip (Py.upper value)) = _extract_month header_text ∧
   _extract_year (Py.strip (Py.upper value)) = _extract_year header_text ∧
   _is_sd_header (Py.strip (Py.upper value)) = _is_sd_header header_text ∧
   Py.upper (Py.strip (Py.upper value)) = Py.upper header_text) ∧
  (_extract_month (Py.strip (Py.lower value)) = _extract_month header_text ∧
   _extract_year (Py.strip (Py.lower value)) = _extract_year header_text ∧
   _is_sd_header (Py.strip (Py.lower value)) = _is_sd_header header_text ∧
   Py.upper (Py.strip (Py.lower value)) = Py.upper header_text).
Proof.
  intros _ header_text. unfold header_text, Py.upper, Py.lower.
  rewrite !strip_map_chars by (intros c; apply case_keeps_char).
  unfold _extract_month, Unicode._extract_month, _is_sd_header, Py.lower, Py.upper.
  rewrite !extract_year_map_chars;
    try (intros c; apply case_keeps_char);
    try (intros c Hc; by apply case_keeps_char).
  rewrite (map_chars_compose Py.lower_char Py.upper_char Py.lower_char)
    by (intros c; apply lower_upper_char).
  rewrite (map_chars_compose Py.lower_char Py.lower_char Py.lower_char)
    by (intros c; apply lower_upper_char).
  rewrite (map_chars_compose Py.upper_char Py.upper_char Py.upper_char)
    by (intros c; apply lower_upper_char).
  rewrite (map_chars_compose Py.upper_char Py.lower_char Py.upper_char)
    by (intros c; apply lower_upper_char).
  done.
Qed.

Lemma header_case_insensitive_witness :
  let value := "  S.d. Desember 2024 " in
  Py.isascii value = true ∧
  _extract_month (Py.strip (Py.upper value)) = Some 12 ∧
  _extract_month (Py.strip value) = Some 12 ∧
  _extract_month (Py.strip (Py.upper value)) = _extract_month (Py.strip value) ∧
  _is_sd_header (Py.strip (Py.lower value)) = _is_sd_header (Py.strip value).
Proof.
  intros value. split; [reflexivity|].
  split; [by vm_compute|]. split; [by vm_compute|].
  destruct (header_case_insensitive value) as [(Hmonth & _) (_ & _ & Hsd & _)];
    [reflexivity|].
  split; [exact Hmonth|exact Hsd].
Defined.

End letter_case.

Section workbook.
Import ExcelReader.

(** X21. [get_sheet] returns a sheet exactly when [sheet_exists] holds, and
    it is then the first sheet of the workbook with that title; when the
    title is absent it raises a [ValueError] and nothing else. *)
Theorem get_sheet_exists (workbook : Workbook) (sheet_name : string) :
  (sheet_exists workbook sheet_name = true ↔
   ∃ sheet, get_sheet workbook sheet_name = Ok sheet) ∧
  (sheet_exists workbook sheet_name = false ↔
   ∃ text, get_sheet workbook sheet_name = Raise (Exception ValueError (Builtin text))) ∧
  (∀ sheet,
     get_sheet workbook sheet_name = Ok sheet ↔
     ∃ before after,
       workbook = (before ++ (sheet_name, sheet) :: after)%list ∧
       sheet_name ∉ sheetnames before).
Proof.
  assert (Hfind : ∀ sheet,
    workbook_getitem workbook sheet_name = Some sheet ↔
    ∃ before after,
      workbook = (before ++ (sheet_name, sheet) :: after)%list ∧
      sheet_name ∉ sheetnames before).
  { intros sheet. unfold workbook_getitem.
    induction workbook as [|[title s] wb IH]; cbn [List.find fmap option_fmap option_map].
    { split; [done|]. intros (before & after & Heq & _). by destruct before. }
    destruct (decide (title = sheet_name)) as [->|Hne].
    - rewrite bool_decide_eq_true_2 by done. cbn. split.
      + intros [= ->]. exists [], wb. split; [done|]. by intros ?%elem_of_nil.
      + intros ([|[t s'] before] & after & Heq & Hnot).
        * by injection Heq as ->.
        * injection Heq as -> _ _. destruct Hnot. unfold sheetnames.
          rewrite fmap_cons. left.
    - rewrite bool_decide_eq_false_2 by done. rewrite IH. split.
      + intros (before & after & -> & Hnot). exists ((title, s) :: before), after.
        split; [done|]. unfold sheetnames in *. rewrite fmap_cons. cbn [fst].
        intros [?|?]%elem_of_cons; [congruence|done].
      + intros ([|[t s'] before] & after & Heq & Hnot).
        * injection Heq as -> _. done.
        * injection Heq as -> -> ->. exists before, after. split; [done|].
          intros Hin. apply Hnot. unfold sheetnames in *. rewrite fmap_cons.
          by right. }
  assert (Hsome : sheet_name ∈ sheetnames workbook →
            ∃ sheet, workbook_getitem workbook sheet_name = Some sheet).
  { intros ([title sheet] & -> & Hin)%list_elem_of_fmap.
    unfold workbook_getitem.
    destruct (List.find _ workbook) as [[t s]|] eqn:Hfound; [by eexists|].
    pose proof (proj1 (find_none _ _) Hfound _ Hin) as Hfalse.
    by apply bool_decide_eq_false in Hfalse. }
  unfold get_sheet, sheet_exists.
  destruct (decide (sheet_name ∈ sheetnames workbook)) as [Hin|Hnin].
  - rewrite (bool_decide_eq_false_2 (sheet_name ∉ sheetnames workbook))
      by (intros Hn; by apply Hn).
    rewrite (bool_decide_eq_true_2 _ Hin).
    destruct (Hsome Hin) as [sheet Hsheet]. rewrite Hsheet.
    split; [split; [by eexists|done]|]. split; [split; [done|by intros [? ?]]|].
    intros sheet'. rewrite <- Hfind, Hsheet. split; congruence.
  - rewrite (bool_decide_eq_true_2 (sheet_name ∉ sheetnames workbook) Hnin).
    rewrite (bool_decide_eq_false_2 (sheet_name ∈ sheetnames workbook) Hnin).
    split; [split; [done|by intros [? ?]]|]. split; [split; [by eexists|done]|].
    intros sheet. split; [done|]. intros (before & after & -> & _).
    destruct Hnin. unfold sheetnames. rewrite fmap_app, fmap_cons.
    apply elem_of_app. right. left.
Qed.

End workbook.
